(** * Invoice and inventory management: stock ledger, inventory workflow and
      invoice text extraction

    A shallow embedding of the row store (tables, constraints and the two
    triggers of the inventory migration), of the handlers that write to it
    (invoice confirmation and deletion, sales, inventory workflow, product
    form), of the forms that feed them (product form, inventory form, invoice
    editor), of the inventory report and of the heuristic invoice parser
    (regular expressions, date normalisation, item extraction).

    Conventions of the model:
    - JavaScript numbers and SQL [numeric] columns are exact rationals [Q];
      IEEE rounding is not modelled.  Aggregated values are compared with
      [==].
    - The statements and handlers of the first part work on rows whose values
      are values of their columns, as they are once stored.  What a column
      does to the value of a request (the rounding to the scale of a
      [numeric] column, the refusal of a value beyond its precision, of a
      fraction for an [integer] column and of a string that is no date) is
      in [Column], and the handlers on the values of a request are in
      [Typed].  The overflow of [current_stock] in the addition of the stock
      trigger is not modelled.
    - [uuid]s are natural numbers drawn from one counter of the store, so a
      generated id differs from every id generated before, in any table.
    - Timestamp columns other than [completed_at] are left out.
    - Strings are sequences of 8-bit characters. *)

From Stdlib Require Import List String Ascii Bool Arith ZArith QArith Qabs Lia Lqa.
From Stdlib Require Import Permutation.
Import ListNotations.

Close Scope Q_scope.
Local Open Scope string_scope.
Local Open Scope list_scope.

(** ** Results and the store monad *)

Inductive error : Type :=
| PGRST116
| unique_violation (constraint : string)
| foreign_key_violation (constraint : string)
| numeric_value_out_of_range
| invalid_text_representation
| invalid_datetime_format
| datetime_field_overflow
| thrown (message : string).

Inductive result (A : Type) : Type :=
| Ok (a : A)
| Err (e : error).

Arguments Ok {A} a.
Arguments Err {A} e.

Definition uuid := nat.

Inductive MovementType : Type := purchase | sale | adjustment | inventory.

Inductive ReferenceType : Type :=
| ref_invoice_item | ref_inventory | ref_manual | ref_sale_item.

Inductive InventoryStatus : Type := draft | in_progress | completed.

Definition MovementType_eqb (a b : MovementType) : bool :=
  match a, b with
  | purchase, purchase | sale, sale | adjustment, adjustment
  | inventory, inventory => true
  | _, _ => false
  end.

Definition ReferenceType_eqb (a b : ReferenceType) : bool :=
  match a, b with
  | ref_invoice_item, ref_invoice_item | ref_inventory, ref_inventory
  | ref_manual, ref_manual | ref_sale_item, ref_sale_item => true
  | _, _ => false
  end.

Definition InventoryStatus_eqb (a b : InventoryStatus) : bool :=
  match a, b with
  | draft, draft | in_progress, in_progress | completed, completed => true
  | _, _ => false
  end.

(** ** Rows of the tables *)

Module Product.
Record t : Type := mk {
  id : uuid;
  name : string;
  unit : string;
  current_stock : Q;
  min_stock_level : Q;
  last_purchase_price : option Q
}.
Definition set_current_stock (q : Q) (p : t) : t :=
  mk (id p) (name p) (unit p) q (min_stock_level p) (last_purchase_price p).
Definition set_last_purchase_price (q : option Q) (p : t) : t :=
  mk (id p) (name p) (unit p) (current_stock p) (min_stock_level p) q.
End Product.

Module StockMovement.
Record t : Type := mk {
  id : uuid;
  product_id : uuid;
  movement_type : MovementType;
  quantity : Q;
  reference_id : option uuid;
  reference_type : option ReferenceType;
  notes : string
}.
End StockMovement.

Module Invoice.
Record t : Type := mk {
  id : uuid;
  filename : string;
  invoice_number : string;
  date : string;
  vendor : string;
  total_net : Q;
  total_gross : Q
}.
End Invoice.

(** [InvoiceItem] without its id: what the parsers produce. *)
Module InvoiceItem.
Record t : Type := mk {
  name : string;
  quantity : Q;
  unit : string;
  percentage : Q;
  net_price : Q;
  gross_price : Q;
  total_net : Q;
  total_gross : Q
}.
End InvoiceItem.

(** A row of [invoice_items]. *)
Module InvoiceItemRow.
Record t : Type := mk {
  id : uuid;
  invoice_id : uuid;
  item : InvoiceItem.t
}.
Definition net_price (r : t) : Q := InvoiceItem.net_price (item r).
End InvoiceItemRow.

Record ParsedInvoiceData : Type := mkParsed {
  invoiceNumber : string;
  date : string;
  vendor : string;
  items : list InvoiceItem.t;
  totalNet : Q;
  totalGross : Q
}.

Module Inventory.
Record t : Type := mk {
  id : uuid;
  name : string;
  status : InventoryStatus;
  completed_at : option string
}.
End Inventory.

Module InventoryItem.
Record t : Type := mk {
  id : uuid;
  inventory_id : uuid;
  product_id : uuid;
  expected_quantity : Q;
  counted_quantity : option Q
}.
(** [difference numeric GENERATED ALWAYS AS (counted_quantity -
    expected_quantity) STORED]: null while the item is not counted. *)
Definition difference (i : t) : option Q :=
  match counted_quantity i with
  | Some c => Some (c - expected_quantity i)%Q
  | None => None
  end.
End InventoryItem.

Module Sale.
Record t : Type := mk {
  id : uuid;
  sale_number : string;
  date : string;
  customer : string;
  total_amount : Q
}.
End Sale.

Module SaleItem.
Record t : Type := mk {
  id : uuid;
  sale_id : uuid;
  product_id : uuid;
  quantity : Q;
  unit_price : Q;
  total_price : Q
}.
End SaleItem.

Module CreateSaleItem.
Record t : Type := mk {
  product_id : uuid;
  quantity : Q;
  unit_price : Q
}.
End CreateSaleItem.

Record CreateSaleData : Type := mkCreateSale {
  cs_sale_number : string;
  cs_date : string;
  cs_customer : string;
  cs_items : list CreateSaleItem.t
}.

Record CreateInventoryData : Type := mkCreateInventory {
  ci_name : string;
  ci_product_ids : list uuid
}.

(** ** The store *)

Record store : Type := mkStore {
  products : list Product.t;
  stock_movements : list StockMovement.t;
  invoices : list Invoice.t;
  invoice_items : list InvoiceItemRow.t;
  inventories : list Inventory.t;
  inventory_items : list InventoryItem.t;
  sales : list Sale.t;
  sale_items : list SaleItem.t;
  next_uuid : uuid
}.

Definition empty_store : store := mkStore [] [] [] [] [] [] [] [] 0.

Definition set_products (v : list Product.t) (s : store) : store :=
  mkStore v (stock_movements s) (invoices s) (invoice_items s) (inventories s)
    (inventory_items s) (sales s) (sale_items s) (next_uuid s).

Definition set_stock_movements (v : list StockMovement.t) (s : store) : store :=
  mkStore (products s) v (invoices s) (invoice_items s) (inventories s)
    (inventory_items s) (sales s) (sale_items s) (next_uuid s).

Definition set_invoices (v : list Invoice.t) (s : store) : store :=
  mkStore (products s) (stock_movements s) v (invoice_items s) (inventories s)
    (inventory_items s) (sales s) (sale_items s) (next_uuid s).

Definition set_invoice_items (v : list InvoiceItemRow.t) (s : store) : store :=
  mkStore (products s) (stock_movements s) (invoices s) v (inventories s)
    (inventory_items s) (sales s) (sale_items s) (next_uuid s).

Definition set_inventories (v : list Inventory.t) (s : store) : store :=
  mkStore (products s) (stock_movements s) (invoices s) (invoice_items s) v
    (inventory_items s) (sales s) (sale_items s) (next_uuid s).

Definition set_inventory_items (v : list InventoryItem.t) (s : store) : store :=
  mkStore (products s) (stock_movements s) (invoices s) (invoice_items s)
    (inventories s) v (sales s) (sale_items s) (next_uuid s).

Definition set_sales (v : list Sale.t) (s : store) : store :=
  mkStore (products s) (stock_movements s) (invoices s) (invoice_items s)
    (inventories s) (inventory_items s) v (sale_items s) (next_uuid s).

Definition set_sale_items (v : list SaleItem.t) (s : store) : store :=
  mkStore (products s) (stock_movements s) (invoices s) (invoice_items s)
    (inventories s) (inventory_items s) (sales s) v (next_uuid s).

(** [gen_random_uuid()]: the next value of the counter. *)
Definition bump_uuid (s : store) : store :=
  mkStore (products s) (stock_movements s) (invoices s) (invoice_items s)
    (inventories s) (inventory_items s) (sales s) (sale_items s)
    (S (next_uuid s)).

(** A computation against the store.  The store it returns is the one the
    next statement sees, also after an error: the handlers run their
    statements one by one, with no transaction around them. *)
Definition db (A : Type) : Type := store -> result A * store.

Definition ret {A : Type} (a : A) : db A := fun s => (Ok a, s).

Definition bind {A B : Type} (m : db A) (f : A -> db B) : db B :=
  fun s =>
    match m s with
    | (Ok a, s') => f a s'
    | (Err e, s') => (Err e, s')
    end.

Notation "x <- m ;; k" := (bind m (fun x => k))
  (at level 61, m at next level, right associativity).
Notation "m ;;; k" := (bind m (fun _ => k))
  (at level 61, right associativity).

(** One SQL statement: it either commits its effect or fails and leaves the
    store as it was. *)
Definition statement {A : Type} (f : store -> result (A * store)) : db A :=
  fun s =>
    match f s with
    | Ok (a, s') => (Ok a, s')
    | Err e => (Err e, s)
    end.

Fixpoint for_each {A : Type} (xs : list A) (body : A -> db unit) : db unit :=
  match xs with
  | [] => ret tt
  | x :: xs' => body x ;;; for_each xs' body
  end.

(** [.single()]: the rows when there is exactly one, else [PGRST116]. *)
Definition single {A : Type} (rows : list A) : result A :=
  match rows with
  | [r] => Ok r
  | _ => Err PGRST116
  end.

Definition has_product (pid : uuid) (s : store) : bool :=
  existsb (fun p => Nat.eqb (Product.id p) pid) (products s).

(** ** Triggers on [stock_movements] *)

Inductive TG_OP : Type :=
| INSERT (NEW : StockMovement.t)
| DELETE (OLD : StockMovement.t)
| UPDATE (OLD NEW : StockMovement.t).

(** [update_product_stock()], [AFTER INSERT OR UPDATE OR DELETE ... FOR EACH
    ROW]. *)
Definition update_product_stock (op : TG_OP) (ps : list Product.t)
  : list Product.t :=
  match op with
  | INSERT NEW =>
      map (fun p =>
             if Nat.eqb (Product.id p) (StockMovement.product_id NEW)
             then Product.set_current_stock
                    (Product.current_stock p + StockMovement.quantity NEW)%Q p
             else p) ps
  | DELETE OLD =>
      map (fun p =>
             if Nat.eqb (Product.id p) (StockMovement.product_id OLD)
             then Product.set_current_stock
                    (Product.current_stock p - StockMovement.quantity OLD)%Q p
             else p) ps
  | UPDATE OLD NEW =>
      map (fun p =>
             if Nat.eqb (Product.id p) (StockMovement.product_id NEW)
             then Product.set_current_stock
                    (Product.current_stock p - StockMovement.quantity OLD
                     + StockMovement.quantity NEW)%Q p
             else p) ps
  end.

(** [SELECT ii.net_price FROM invoice_items ii WHERE ii.id = NEW.reference_id]
    as a scalar subquery: null when no row is selected (and when the
    reference is null). *)
Definition select_net_price (ref : option uuid) (iis : list InvoiceItemRow.t)
  : option Q :=
  match ref with
  | None => None
  | Some r =>
      match filter (fun ii => Nat.eqb (InvoiceItemRow.id ii) r) iis with
      | ii :: _ => Some (InvoiceItemRow.net_price ii)
      | [] => None
      end
  end.

(** [update_product_price_from_purchase()], [AFTER INSERT ... FOR EACH ROW]. *)
Definition update_product_price_from_purchase (NEW : StockMovement.t)
  (iis : list InvoiceItemRow.t) (ps : list Product.t) : list Product.t :=
  if MovementType_eqb (StockMovement.movement_type NEW) purchase
     && match StockMovement.reference_type NEW with
        | Some rt => ReferenceType_eqb rt ref_invoice_item
        | None => false
        end
  then
    map (fun p =>
           if Nat.eqb (Product.id p) (StockMovement.product_id NEW)
           then Product.set_last_purchase_price
                  (select_net_price (StockMovement.reference_id NEW) iis) p
           else p) ps
  else ps.

(** ** Statements on [stock_movements] *)

(** The object literal a handler inserts: a movement without its id. *)
Module NewStockMovement.
Record t : Type := mk {
  product_id : uuid;
  movement_type : MovementType;
  quantity : Q;
  reference_id : option uuid;
  reference_type : option ReferenceType;
  notes : string
}.
Definition row (i : uuid) (n : t) : StockMovement.t :=
  StockMovement.mk i (product_id n) (movement_type n) (quantity n)
    (reference_id n) (reference_type n) (notes n).
End NewStockMovement.

(** One inserted row: the foreign key on [product_id], the default id, then
    the row triggers in the order of their names
    ([trigger_update_product_price], [trigger_update_product_stock]).  The
    quantity is a value of its column, [numeric(10,3)];
    [Typed.insert_stock_movements] converts the quantity of a request. *)
Definition insert_stock_movement_row (n : NewStockMovement.t) (s : store)
  : result store :=
  if has_product (NewStockMovement.product_id n) s then
    let NEW := NewStockMovement.row (next_uuid s) n in
    let s1 := bump_uuid (set_stock_movements (stock_movements s ++ [NEW]) s) in
    Ok (set_products
          (update_product_stock (INSERT NEW)
             (update_product_price_from_purchase NEW (invoice_items s1)
                (products s1))) s1)
  else Err (foreign_key_violation "stock_movements_product_id_fkey").

Fixpoint insert_stock_movement_rows (ns : list NewStockMovement.t) (s : store)
  : result store :=
  match ns with
  | [] => Ok s
  | n :: ns' =>
      match insert_stock_movement_row n s with
      | Ok s' => insert_stock_movement_rows ns' s'
      | Err e => Err e
      end
  end.

(** [supabase.from('stock_movements').insert(rows)] *)
Definition insert_stock_movements (ns : list NewStockMovement.t) : db unit :=
  statement (fun s =>
    match insert_stock_movement_rows ns s with
    | Ok s' => Ok (tt, s')
    | Err e => Err e
    end).

(** [DELETE FROM stock_movements WHERE id = mid]: every selected row goes
    and fires the trigger with itself as [OLD]. *)
Fixpoint delete_movement_rows (mid : uuid) (ms : list StockMovement.t)
  (ps : list Product.t) : list StockMovement.t * list Product.t :=
  match ms with
  | [] => ([], ps)
  | m :: ms' =>
      if Nat.eqb (StockMovement.id m) mid
      then delete_movement_rows mid ms' (update_product_stock (DELETE m) ps)
      else
        let (ms'', ps') := delete_movement_rows mid ms' ps in
        (m :: ms'', ps')
  end.

Definition delete_stock_movement (mid : uuid) : db unit :=
  statement (fun s =>
    let (ms, ps) := delete_movement_rows mid (stock_movements s) (products s) in
    Ok (tt, set_products ps (set_stock_movements ms s))).

(** The [SET] clause of an [UPDATE] of a movement: each column is either
    assigned or left as it is. *)
Definition set_clause (set_product_id : option uuid) (set_quantity : option Q)
  (OLD : StockMovement.t) : StockMovement.t :=
  StockMovement.mk (StockMovement.id OLD)
    (match set_product_id with
     | Some p => p
     | None => StockMovement.product_id OLD
     end)
    (StockMovement.movement_type OLD)
    (match set_quantity with
     | Some q => q
     | None => StockMovement.quantity OLD
     end)
    (StockMovement.reference_id OLD) (StockMovement.reference_type OLD)
    (StockMovement.notes OLD).

Fixpoint update_movement_rows (mid : uuid) (sp : option uuid) (sq : option Q)
  (ms : list StockMovement.t) (ps : list Product.t)
  : list StockMovement.t * list Product.t :=
  match ms with
  | [] => ([], ps)
  | m :: ms' =>
      if Nat.eqb (StockMovement.id m) mid
      then
        let NEW := set_clause sp sq m in
        let (ms'', ps') :=
          update_movement_rows mid sp sq ms'
            (update_product_stock (UPDATE m NEW) ps) in
        (NEW :: ms'', ps')
      else
        let (ms'', ps') := update_movement_rows mid sp sq ms' ps in
        (m :: ms'', ps')
  end.

(** [UPDATE stock_movements SET ... WHERE id = mid].  The foreign key is
    checked when a row is selected and its [product_id] is assigned. *)
Definition update_stock_movement (mid : uuid) (sp : option uuid)
  (sq : option Q) : db unit :=
  statement (fun s =>
    let selected :=
      existsb (fun m => Nat.eqb (StockMovement.id m) mid) (stock_movements s) in
    let fk_ok :=
      match sp with
      | Some p => negb selected || has_product p s
      | None => true
      end in
    if fk_ok then
      let (ms, ps) :=
        update_movement_rows mid sp sq (stock_movements s) (products s) in
      Ok (tt, set_products ps (set_stock_movements ms s))
    else Err (foreign_key_violation "stock_movements_product_id_fkey")).

(** The operations on the ledger. *)
Inductive ledger_op : Type :=
| op_insert (n : NewStockMovement.t)
| op_update (mid : uuid) (set_product_id : option uuid) (set_quantity : option Q)
| op_delete (mid : uuid).

Definition run_ledger_op (o : ledger_op) : db unit :=
  match o with
  | op_insert n => insert_stock_movements [n]
  | op_update mid sp sq => update_stock_movement mid sp sq
  | op_delete mid => delete_stock_movement mid
  end.

(** The store after a sequence of operations; an operation the store refuses
    leaves it unchanged. *)
Fixpoint run_ledger_ops (os : list ledger_op) (s : store) : store :=
  match os with
  | [] => s
  | o :: os' => run_ledger_ops os' (snd (run_ledger_op o s))
  end.

(** [SELECT sum(quantity) FROM stock_movements WHERE product_id = pid] *)
Fixpoint ledger_sum (pid : uuid) (ms : list StockMovement.t) : Q :=
  match ms with
  | [] => 0%Q
  | m :: ms' =>
      if Nat.eqb (StockMovement.product_id m) pid
      then (StockMovement.quantity m + ledger_sum pid ms')%Q
      else ledger_sum pid ms'
  end.

Definition find_product (pid : uuid) (ps : list Product.t) : option Product.t :=
  find (fun p => Nat.eqb (Product.id p) pid) ps.

Definition stock_of (pid : uuid) (s : store) : option Q :=
  option_map Product.current_stock (find_product pid (products s)).

(** ** Statements on the other tables *)

(** [supabase.from('invoices').insert([row]).select().single()];
    [invoice_number text UNIQUE NOT NULL].  The date and the totals are
    values of their columns, [date] and [numeric(10,2)];
    [Typed.insert_invoice] converts those of a request. *)
Definition insert_invoice (filename invoice_number date vendor : string)
  (total_net total_gross : Q) : db Invoice.t :=
  statement (fun s =>
    if existsb (fun i => String.eqb (Invoice.invoice_number i) invoice_number)
         (invoices s)
    then Err (unique_violation "invoices_invoice_number_key")
    else
      let row := Invoice.mk (next_uuid s) filename invoice_number date vendor
                   total_net total_gross in
      Ok (row, bump_uuid (set_invoices (invoices s ++ [row]) s))).

Definition has_invoice (iid : uuid) (s : store) : bool :=
  existsb (fun i => Nat.eqb (Invoice.id i) iid) (invoices s).

Fixpoint insert_invoice_item_rows (rows : list (uuid * InvoiceItem.t))
  (s : store) : result store :=
  match rows with
  | [] => Ok s
  | (iid, it) :: rows' =>
      if has_invoice iid s then
        insert_invoice_item_rows rows'
          (bump_uuid
             (set_invoice_items
                (invoice_items s ++ [InvoiceItemRow.mk (next_uuid s) iid it]) s))
      else Err (foreign_key_violation "invoice_items_invoice_id_fkey")
  end.

(** [supabase.from('invoice_items').insert(items)]: each row is an invoice id
    and the item's columns, with values of these columns
    ([Typed.insert_invoice_items] converts those of a request: the
    percentage to [integer], the quantity and the amounts to [numeric]). *)
Definition insert_invoice_items (rows : list (uuid * InvoiceItem.t)) : db unit :=
  statement (fun s =>
    match insert_invoice_item_rows rows s with
    | Ok s' => Ok (tt, s')
    | Err e => Err e
    end).

(** [supabase.from('products').select('*').eq('name', n).single()]: the
    [{data, error}] pair as a result that the caller inspects. *)
Definition select_product_by_name (n : string) : db (result Product.t) :=
  fun s =>
    (Ok (single (filter (fun p => String.eqb (Product.name p) n) (products s))),
     s).

(** [supabase.from('products').insert([row]).select().single()];
    [name text UNIQUE NOT NULL]. *)
Definition insert_product (name unit : string) (current_stock min_stock_level : Q)
  (last_purchase_price : option Q) : db Product.t :=
  statement (fun s =>
    if existsb (fun p => String.eqb (Product.name p) name) (products s)
    then Err (unique_violation "products_name_key")
    else
      let row := Product.mk (next_uuid s) name unit current_stock
                   min_stock_level last_purchase_price in
      Ok (row, bump_uuid (set_products (products s ++ [row]) s))).

(** [supabase.from('products').update({name, unit, min_stock_level,
    current_stock}).eq('id', pid)] *)
Definition update_product (pid : uuid) (name unit : string)
  (min_stock_level current_stock : Q) : db Datatypes.unit :=
  statement (fun s =>
    if existsb (fun p => Nat.eqb (Product.id p) pid) (products s)
       && existsb (fun p => negb (Nat.eqb (Product.id p) pid)
                            && String.eqb (Product.name p) name) (products s)
    then Err (unique_violation "products_name_key")
    else
      Ok (tt,
          set_products
            (map (fun p =>
                    if Nat.eqb (Product.id p) pid
                    then Product.mk (Product.id p) name unit current_stock
                           min_stock_level (Product.last_purchase_price p)
                    else p) (products s)) s)).

(** [supabase.from('invoice_items').delete().eq('invoice_id', iid)] *)
Definition delete_invoice_items_of (iid : uuid) : db unit :=
  statement (fun s =>
    Ok (tt,
        set_invoice_items
          (filter (fun ii => negb (Nat.eqb (InvoiceItemRow.invoice_id ii) iid))
             (invoice_items s)) s)).

(** [supabase.from('invoices').delete().eq('id', iid)]; the rows of
    [invoice_items] that reference the invoice go with it
    ([REFERENCES invoices(id) ON DELETE CASCADE]). *)
Definition delete_invoice (iid : uuid) : db unit :=
  statement (fun s =>
    Ok (tt,
        set_invoice_items
          (filter (fun ii => negb (Nat.eqb (InvoiceItemRow.invoice_id ii) iid))
             (invoice_items s))
          (set_invoices
             (filter (fun i => negb (Nat.eqb (Invoice.id i) iid)) (invoices s))
             s))).

(** [supabase.from('sales').insert([row]).select().single()];
    [sale_number text UNIQUE NOT NULL].  The date and the amount are values
    of their columns, [date] and [numeric(10,2)]; [Typed.insert_sale]
    converts those of a request. *)
Definition insert_sale (sale_number date customer : string) (total_amount : Q)
  : db Sale.t :=
  statement (fun s =>
    if existsb (fun x => String.eqb (Sale.sale_number x) sale_number) (sales s)
    then Err (unique_violation "sales_sale_number_key")
    else
      let row := Sale.mk (next_uuid s) sale_number date customer total_amount in
      Ok (row, bump_uuid (set_sales (sales s ++ [row]) s))).

Definition has_sale (sid : uuid) (s : store) : bool :=
  existsb (fun x => Nat.eqb (Sale.id x) sid) (sales s).

(** A row of [sale_items] before it gets its id. *)
Module NewSaleItem.
Record t : Type := mk {
  sale_id : uuid;
  product_id : uuid;
  quantity : Q;
  unit_price : Q;
  total_price : Q
}.
Definition row (i : uuid) (n : t) : SaleItem.t :=
  SaleItem.mk i (sale_id n) (product_id n) (quantity n) (unit_price n)
    (total_price n).
End NewSaleItem.

Fixpoint insert_sale_item_rows (ns : list NewSaleItem.t) (s : store)
  : result store :=
  match ns with
  | [] => Ok s
  | n :: ns' =>
      if negb (has_sale (NewSaleItem.sale_id n) s)
      then Err (foreign_key_violation "sale_items_sale_id_fkey")
      else if negb (has_product (NewSaleItem.product_id n) s)
      then Err (foreign_key_violation "sale_items_product_id_fkey")
      else
        insert_sale_item_rows ns'
          (bump_uuid
             (set_sale_items
                (sale_items s ++ [NewSaleItem.row (next_uuid s) n]) s))
  end.

(** [supabase.from('sale_items').insert(saleItems)], on values of the
    columns; [Typed.insert_sale_items] converts those of a request. *)
Definition insert_sale_items (ns : list NewSaleItem.t) : db unit :=
  statement (fun s =>
    match insert_sale_item_rows ns s with
    | Ok s' => Ok (tt, s')
    | Err e => Err e
    end).

(** [supabase.from('inventories').insert([{name, status}]).select().single()] *)
Definition insert_inventory (name : string) (status : InventoryStatus)
  : db Inventory.t :=
  statement (fun s =>
    let row := Inventory.mk (next_uuid s) name status None in
    Ok (row, bump_uuid (set_inventories (inventories s ++ [row]) s))).

(** [supabase.from('inventories').update({status}).eq('id', iid)] and, with
    [completed_at], the same statement of the completion. *)
Definition update_inventory (iid : uuid) (status : InventoryStatus)
  (completed_at : option string) : db unit :=
  statement (fun s =>
    Ok (tt,
        set_inventories
          (map (fun i =>
                  if Nat.eqb (Inventory.id i) iid
                  then Inventory.mk (Inventory.id i) (Inventory.name i) status
                         (match completed_at with
                          | Some t => Some t
                          | None => Inventory.completed_at i
                          end)
                  else i) (inventories s)) s)).

Definition has_inventory (iid : uuid) (s : store) : bool :=
  existsb (fun i => Nat.eqb (Inventory.id i) iid) (inventories s).

(** A row of [inventory_items] as the creation inserts it. *)
Module NewInventoryItem.
Record t : Type := mk {
  inventory_id : uuid;
  product_id : uuid;
  expected_quantity : Q
}.
Definition row (i : uuid) (n : t) : InventoryItem.t :=
  InventoryItem.mk i (inventory_id n) (product_id n) (expected_quantity n) None.
End NewInventoryItem.

(** Foreign keys on the inventory and the product, and
    [UNIQUE(inventory_id, product_id)]. *)
Fixpoint insert_inventory_item_rows (ns : list NewInventoryItem.t) (s : store)
  : result store :=
  match ns with
  | [] => Ok s
  | n :: ns' =>
      if negb (has_inventory (NewInventoryItem.inventory_id n) s)
      then Err (foreign_key_violation "inventory_items_inventory_id_fkey")
      else if negb (has_product (NewInventoryItem.product_id n) s)
      then Err (foreign_key_violation "inventory_items_product_id_fkey")
      else if existsb
                (fun i =>
                   Nat.eqb (InventoryItem.inventory_id i)
                     (NewInventoryItem.inventory_id n)
                   && Nat.eqb (InventoryItem.product_id i)
                        (NewInventoryItem.product_id n)) (inventory_items s)
      then Err (unique_violation "inventory_items_inventory_id_product_id_key")
      else
        insert_inventory_item_rows ns'
          (bump_uuid
             (set_inventory_items
                (inventory_items s ++ [NewInventoryItem.row (next_uuid s) n]) s))
  end.

(** [supabase.from('inventory_items').insert(inventoryItems)] *)
Definition insert_inventory_items (ns : list NewInventoryItem.t) : db unit :=
  statement (fun s =>
    match insert_inventory_item_rows ns s with
    | Ok s' => Ok (tt, s')
    | Err e => Err e
    end).

(** [supabase.from('inventory_items').update({counted_quantity}).eq('id', i)],
    for a count that is a value of its column, [numeric(10,3)];
    [Typed.update_counted_quantity] converts the count of a request. *)
Definition update_counted_quantity (item_id : uuid) (counted : Q) : db unit :=
  statement (fun s =>
    Ok (tt,
        set_inventory_items
          (map (fun i =>
                  if Nat.eqb (InventoryItem.id i) item_id
                  then InventoryItem.mk (InventoryItem.id i)
                         (InventoryItem.inventory_id i)
                         (InventoryItem.product_id i)
                         (InventoryItem.expected_quantity i) (Some counted)
                  else i) (inventory_items s)) s)).

(** The rows of an inventory whose [difference] is not null, each with that
    difference. *)
Fixpoint with_difference (iid : uuid) (its : list InventoryItem.t)
  : list (InventoryItem.t * Q) :=
  match its with
  | [] => []
  | i :: its' =>
      if Nat.eqb (InventoryItem.inventory_id i) iid then
        match InventoryItem.difference i with
        | Some d => (i, d) :: with_difference iid its'
        | None => with_difference iid its'
        end
      else with_difference iid its'
  end.

(** [supabase.from('inventory_items').select('*').eq('inventory_id', iid)
    .not('difference', 'is', null)] *)
Definition select_items_with_difference (iid : uuid)
  : db (list (InventoryItem.t * Q)) :=
  fun s => (Ok (with_difference iid (inventory_items s)), s).

(** ** Handlers *)

Definition throw {A : Type} (e : error) : db A := fun s => (Err e, s).

(** The first half of the body of the loop of [handleConfirmInvoice]: look
    the product up by name and create it when there is none. *)
Definition lookup_or_create_product (item : InvoiceItem.t) : db uuid :=
  lookup <- select_product_by_name (InvoiceItem.name item) ;;
  match lookup with
  | Ok existingProduct => ret (Product.id existingProduct)
  | Err PGRST116 =>
      newProduct <-
        insert_product (InvoiceItem.name item) (InvoiceItem.unit item)
          0%Q 0%Q (Some (InvoiceItem.net_price item)) ;;
      ret (Product.id newProduct)
  | Err productError => throw productError
  end.

(** The purchase movement of an invoice line. *)
Definition purchase_movement (invoice : Invoice.t)
  (parsedData : ParsedInvoiceData) (productId : uuid) (item : InvoiceItem.t)
  : NewStockMovement.t :=
  NewStockMovement.mk productId purchase (InvoiceItem.quantity item)
    (Some (Invoice.id invoice)) (Some ref_invoice_item)
    ("Zakup z faktury " ++ invoiceNumber parsedData).

(** The body of the loop of [handleConfirmInvoice]. *)
Definition confirm_item (invoice : Invoice.t) (parsedData : ParsedInvoiceData)
  (item : InvoiceItem.t) : db unit :=
  productId <- lookup_or_create_product item ;;
  insert_stock_movements [purchase_movement invoice parsedData productId item].

(** The two inserts that open [handleConfirmInvoice]: the invoice, then its
    items. *)
Definition save_invoice (parsedData : ParsedInvoiceData) : db Invoice.t :=
  invoice <-
    insert_invoice "uploaded.pdf" (invoiceNumber parsedData) (date parsedData)
      (vendor parsedData) (totalNet parsedData) (totalGross parsedData) ;;
  insert_invoice_items
    (map (fun item => (Invoice.id invoice, item)) (items parsedData)) ;;;
  ret invoice.

Definition handleConfirmInvoice (parsedData : ParsedInvoiceData) : db unit :=
  invoice <- save_invoice parsedData ;;
  for_each (items parsedData) (confirm_item invoice parsedData).

Definition confirmDeleteInvoice (invoiceToDelete : Invoice.t) : db unit :=
  delete_invoice_items_of (Invoice.id invoiceToDelete) ;;;
  delete_invoice (Invoice.id invoiceToDelete).

Definition handleCreateSale (saleData : CreateSaleData) : db unit :=
  let totalAmount :=
    fold_left
      (fun sum item =>
         (sum + CreateSaleItem.quantity item * CreateSaleItem.unit_price item)%Q)
      (cs_items saleData) 0%Q in
  sale_row <-
    insert_sale (cs_sale_number saleData) (cs_date saleData)
      (cs_customer saleData) totalAmount ;;
  let saleItems :=
    map (fun item =>
           NewSaleItem.mk (Sale.id sale_row) (CreateSaleItem.product_id item)
             (CreateSaleItem.quantity item) (CreateSaleItem.unit_price item)
             (CreateSaleItem.quantity item * CreateSaleItem.unit_price item)%Q)
      (cs_items saleData) in
  insert_sale_items saleItems ;;;
  let stockMovements :=
    map (fun item =>
           NewStockMovement.mk (NewSaleItem.product_id item) sale
             (- NewSaleItem.quantity item)%Q
             (Some (NewSaleItem.sale_id item)) (Some ref_sale_item)
             ("Sprzedaż " ++ cs_sale_number saleData))
      saleItems in
  insert_stock_movements stockMovements.

(** The state of [ProductForm]. *)
Record ProductFormData : Type := mkProductForm {
  pf_name : string;
  pf_unit : string;
  pf_min_stock_level : Q;
  pf_current_stock : Q
}.

(** [last_purchase_price numeric(10,2) DEFAULT 0] for a product of the form. *)
Definition handleSaveProduct (editingProduct : option Product.t)
  (productData : ProductFormData) : db unit :=
  match editingProduct with
  | Some editing =>
      update_product (Product.id editing) (pf_name productData)
        (pf_unit productData) (pf_min_stock_level productData)
        (pf_current_stock productData)
  | None =>
      insert_product (pf_name productData) (pf_unit productData)
        (pf_current_stock productData) (pf_min_stock_level productData)
        (Some 0%Q) ;;;
      ret tt
  end.

(** [handleCreateInventory]; [products] is the list the component loaded. *)
Definition handleCreateInventory (products : list Product.t)
  (inventoryData : CreateInventoryData) : db unit :=
  inventory_row <- insert_inventory (ci_name inventoryData) draft ;;
  let inventoryItems :=
    map (fun productId =>
           NewInventoryItem.mk (Inventory.id inventory_row) productId
             (match find_product productId products with
              | Some product => Product.current_stock product
              | None => 0%Q
              end))
      (ci_product_ids inventoryData) in
  insert_inventory_items inventoryItems.

Definition handleStartInventory (inventoryId : uuid) : db unit :=
  update_inventory inventoryId in_progress None.

(** The movement of one counted item in [handleCompleteInventory]. *)
Definition inventory_movement (inventoryId : uuid)
  (item : InventoryItem.t * Q) : NewStockMovement.t :=
  NewStockMovement.mk (InventoryItem.product_id (fst item)) inventory
    (snd item) (Some inventoryId) (Some ref_inventory)
    ("Korekta inwentaryzacyjna: "
     ++ (if negb (Qle_bool (snd item) 0) then "nadwyżka" else "niedobór")).

Definition handleCompleteInventory (now : string) (inventoryId : uuid)
  : db unit :=
  update_inventory inventoryId completed (Some now) ;;;
  items <- select_items_with_difference inventoryId ;;
  let stockMovements :=
    map (inventory_movement inventoryId)
      (filter (fun item => negb (Qeq_bool (snd item) 0)) items) in
  if Nat.ltb 0 (List.length stockMovements)
  then insert_stock_movements stockMovements
  else ret tt.

Definition handleUpdateCount (itemId : uuid) (countedQuantity : Q) : db unit :=
  update_counted_quantity itemId countedQuantity.

(** ** The controls the inventory views render

    [InventoryManager] renders the start button of a row when
    [inventory.status === 'draft'] and the complete button when
    [inventory.status === 'in_progress']; [InventoryModal] passes
    [canEdit = (inventory.status === 'in_progress')] to its rows, and a row
    renders its count controls under [canEdit]. *)

Definition start_button (inv : Inventory.t) : option (db unit) :=
  if InventoryStatus_eqb (Inventory.status inv) draft
  then Some (handleStartInventory (Inventory.id inv))
  else None.

Definition complete_button (now : string) (inv : Inventory.t)
  : option (db unit) :=
  if InventoryStatus_eqb (Inventory.status inv) in_progress
  then Some (handleCompleteInventory now (Inventory.id inv))
  else None.

Definition canEdit (inv : Inventory.t) : bool :=
  InventoryStatus_eqb (Inventory.status inv) in_progress.

Definition save_count_button (inv : Inventory.t) (item : InventoryItem.t)
  (countValue : Q) : option (db unit) :=
  if canEdit inv
  then Some (handleUpdateCount (InventoryItem.id item) countValue)
  else None.

Inductive ui_action : Type :=
| click_start (inventoryId : uuid)
| click_complete (inventoryId : uuid)
| click_save_count (itemId : uuid) (countValue : Q).

Definition find_inventory (iid : uuid) (s : store) : option Inventory.t :=
  find (fun i => Nat.eqb (Inventory.id i) iid) (inventories s).

Definition find_inventory_item (item_id : uuid) (s : store)
  : option InventoryItem.t :=
  find (fun i => Nat.eqb (InventoryItem.id i) item_id) (inventory_items s).

(** A click on a rendered control, for a client whose lists show the rows of
    the store (every handler reloads them when it is done): the handler the
    control runs, or nothing when the control is not rendered. *)
Definition ui_click (now : string) (a : ui_action) (s : store)
  : option (db unit) :=
  match a with
  | click_start iid =>
      match find_inventory iid s with
      | Some inv => start_button inv
      | None => None
      end
  | click_complete iid =>
      match find_inventory iid s with
      | Some inv => complete_button now inv
      | None => None
      end
  | click_save_count item_id countValue =>
      match find_inventory_item item_id s with
      | Some item =>
          match find_inventory (InventoryItem.inventory_id item) s with
          | Some inv => save_count_button inv item countValue
          | None => None
          end
      | None => None
      end
  end.

(** The order of the workflow. *)
Definition status_rank (st : InventoryStatus) : nat :=
  match st with
  | draft => 0
  | in_progress => 1
  | completed => 2
  end.

Definition status_of (iid : uuid) (s : store) : option InventoryStatus :=
  option_map Inventory.status (find_inventory iid s).

(** ** JavaScript strings *)

Definition chars (s : string) : list ascii := list_ascii_of_string s.
Definition str (cs : list ascii) : string := string_of_list_ascii cs.

Definition code (c : ascii) : nat := nat_of_ascii c.

Definition in_range (lo hi c : ascii) : bool :=
  Nat.leb (code lo) (code c) && Nat.leb (code c) (code hi).

Definition is_digit (c : ascii) : bool := in_range "0" "9" c.

(** White space and line terminators below U+0080: tab, line feed, vertical
    tab, form feed, carriage return, space. *)
Definition is_space (c : ascii) : bool :=
  (Nat.leb 9 (code c) && Nat.leb (code c) 13) || Nat.eqb (code c) 32.

Definition is_line_terminator (c : ascii) : bool :=
  Nat.eqb (code c) 10 || Nat.eqb (code c) 13.

Definition to_upper (c : ascii) : ascii :=
  if in_range "a" "z" c then ascii_of_nat (code c - 32) else c.

Definition to_lower (c : ascii) : ascii :=
  if in_range "A" "Z" c then ascii_of_nat (code c + 32) else c.

Fixpoint drop_spaces (cs : list ascii) : list ascii :=
  match cs with
  | c :: cs' => if is_space c then drop_spaces cs' else cs
  | [] => []
  end.

(** [String.prototype.trim] *)
Definition trim (s : string) : string :=
  str (rev (drop_spaces (rev (drop_spaces (chars s))))).

(** [s.split(sep)] for a separator of one character. *)
Fixpoint split_chars (sep : ascii) (cur : list ascii) (cs : list ascii)
  : list (list ascii) :=
  match cs with
  | [] => [rev cur]
  | c :: cs' =>
      if Ascii.eqb c sep
      then rev cur :: split_chars sep [] cs'
      else split_chars sep (c :: cur) cs'
  end.

Definition split (sep : ascii) (s : string) : list string :=
  map str (split_chars sep [] (chars s)).

(** [s.replace(a, b)] for strings [a], [b] of one character: the first
    occurrence only. *)
Fixpoint replace_first_chars (a b : ascii) (cs : list ascii) : list ascii :=
  match cs with
  | [] => []
  | c :: cs' =>
      if Ascii.eqb c a then b :: cs' else c :: replace_first_chars a b cs'
  end.

Definition replace_first (a b : ascii) (s : string) : string :=
  str (replace_first_chars a b (chars s)).

(** [s.padStart(n, '0')] *)
Definition padStart0 (n : nat) (s : string) : string :=
  str (repeat "0"%char (n - String.length s)) ++ s.

Definition digit_value (c : ascii) : Z := Z.of_nat (code c - 48).

Fixpoint take_digits (cs : list ascii) : list ascii * list ascii :=
  match cs with
  | c :: cs' =>
      if is_digit c
      then let (ds, rest) := take_digits cs' in (c :: ds, rest)
      else ([], cs)
  | [] => ([], [])
  end.

Definition digits_value (ds : list ascii) : Z :=
  fold_left (fun acc d => (10 * acc + digit_value d)%Z) ds 0%Z.

Definition hex_value (c : ascii) : option Z :=
  if is_digit c then Some (digit_value c)
  else if in_range "a" "f" c then Some (Z.of_nat (code c - 87))
  else if in_range "A" "F" c then Some (Z.of_nat (code c - 55))
  else None.

Fixpoint take_hex (cs : list ascii) : list Z :=
  match cs with
  | c :: cs' =>
      match hex_value c with
      | Some v => v :: take_hex cs'
      | None => []
      end
  | [] => []
  end.

Definition split_sign (cs : list ascii) : bool * list ascii :=
  match cs with
  | "-"%char :: cs' => (true, cs')
  | "+"%char :: cs' => (false, cs')
  | _ => (false, cs)
  end.

(** [parseInt(s)] with no radix; [None] is [NaN]. *)
Definition parseInt (s : string) : option Z :=
  let (negative, body) := split_sign (drop_spaces (chars s)) in
  let magnitude :=
    match body with
    | "0"%char :: x :: hex =>
        if Ascii.eqb x "x" || Ascii.eqb x "X" then
          match take_hex hex with
          | [] => None
          | hs => Some (fold_left (fun acc d => (16 * acc + d)%Z) hs 0%Z)
          end
        else
          Some (digits_value (fst (take_digits body)))
    | _ =>
        match fst (take_digits body) with
        | [] => None
        | ds => Some (digits_value ds)
        end
    end in
  match magnitude with
  | Some v => Some (if negative then (- v)%Z else v)
  | None => None
  end.

Definition pow10 (n : nat) : positive := Z.to_pos (10 ^ Z.of_nat n).

(** The exponent part [e[+-]digits] of a decimal literal, when there is one:
    the power of ten to multiply by. *)
Definition exponent_part (cs : list ascii) : Q :=
  match cs with
  | e :: cs' =>
      if Ascii.eqb e "e" || Ascii.eqb e "E" then
        let (negative, body) := split_sign cs' in
        match fst (take_digits body) with
        | [] => 1%Q
        | ds =>
            let p := Qmake (Z.pos (pow10 (Z.to_nat (digits_value ds)))) 1 in
            if negative then (1 / p)%Q else p
        end
      else 1%Q
  | [] => 1%Q
  end.

(** [parseFloat(s)]: the longest prefix that is a decimal literal; [None] is
    [NaN].  The literal [Infinity] has no rational value and is read as
    [NaN]. *)
Definition parseFloat (s : string) : option Q :=
  let (negative, body) := split_sign (drop_spaces (chars s)) in
  let (int_digits, rest) := take_digits body in
  let (frac_digits, rest') :=
    match rest with
    | "."%char :: after => take_digits after
    | _ => ([], rest)
    end in
  match int_digits ++ frac_digits with
  | [] => None
  | ds =>
      let magnitude :=
        Qred (Qmake (digits_value ds) (pow10 (List.length frac_digits))
              * exponent_part rest')%Q in
      Some (if negative then (- magnitude)%Q else magnitude)
  end.

(** ** Regular expressions

    The fragment of ECMAScript patterns that the parsers use, matched by
    backtracking in ECMAScript's order: alternatives left to right, a greedy
    quantifier tries one more iteration before it stops, a lazy one stops
    first. *)

Inductive regex : Type :=
| Chr (c : ascii)
| Any
| Class (ranges : list (ascii * ascii))
| Seq (r1 r2 : regex)
| Alt (r1 r2 : regex)
| Group (n : nat) (r : regex)
| Repeat (greedy : bool) (min : nat) (max : option nat) (r : regex)
| Bol
| Eol
| Empty.

(** The captures made so far, the latest first. *)
Definition captures : Type := list (nat * list ascii).

Definition matcher_result : Type := option (list ascii * captures).

Section Matcher.

Variable ignoreCase : bool.
Variable input_length : nat.

Definition canonicalize (c : ascii) : ascii :=
  if ignoreCase then to_upper c else c.

Definition in_class (ranges : list (ascii * ascii)) (c : ascii) : bool :=
  existsb
    (fun r =>
       in_range (fst r) (snd r) c
       || (ignoreCase
           && (in_range (fst r) (snd r) (to_upper c)
               || in_range (fst r) (snd r) (to_lower c))))
    ranges.

(** [matches r s caps k]: match [r] at the front of [s], then continue with
    [k] on what is left.  An iteration of a quantifier past its minimum must
    consume a character, so [min + length s + 1] iterations are never
    exceeded. *)
Fixpoint matches (r : regex) (s : list ascii) (caps : captures)
  (k : list ascii -> captures -> matcher_result) {struct r} : matcher_result :=
  match r with
  | Chr c =>
      match s with
      | x :: s' =>
          if Ascii.eqb (canonicalize x) (canonicalize c) then k s' caps else None
      | [] => None
      end
  | Any =>
      match s with
      | x :: s' => if is_line_terminator x then None else k s' caps
      | [] => None
      end
  | Class ranges =>
      match s with
      | x :: s' => if in_class ranges x then k s' caps else None
      | [] => None
      end
  | Seq r1 r2 => matches r1 s caps (fun s' caps' => matches r2 s' caps' k)
  | Alt r1 r2 =>
      match matches r1 s caps k with
      | Some res => Some res
      | None => matches r2 s caps k
      end
  | Group n r' =>
      matches r' s caps
        (fun s' caps' =>
           k s' ((n, firstn (List.length s - List.length s') s) :: caps'))
  | Repeat greedy min max r' =>
      (fix iterate (fuel min : nat) (max : option nat) (s : list ascii)
         (caps : captures) {struct fuel} : matcher_result :=
         match fuel with
         | O => None
         | S fuel' =>
             match min with
             | S min' =>
                 matches r' s caps
                   (fun s' caps' =>
                      iterate fuel' min' (option_map Nat.pred max) s' caps')
             | O =>
                 let again (_ : unit) :=
                   match max with
                   | Some O => None
                   | _ =>
                       matches r' s caps
                         (fun s' caps' =>
                            if Nat.ltb (List.length s') (List.length s)
                            then iterate fuel' O (option_map Nat.pred max)
                                   s' caps'
                            else None)
                   end in
                 if greedy then
                   match again tt with
                   | Some res => Some res
                   | None => k s caps
                   end
                 else
                   match k s caps with
                   | Some res => Some res
                   | None => again tt
                   end
             end
         end) (min + List.length s + 1) min max s caps
  | Bol => if Nat.eqb (List.length s) input_length then k s caps else None
  | Eol => match s with [] => k s caps | _ :: _ => None end
  | Empty => k s caps
  end.

End Matcher.

(** A match: where it starts, the matched substring and the captures. *)
Record regex_match : Type := mkMatch {
  index : nat;
  whole : string;
  groups : captures
}.

(** [match[n]] for a group: undefined when the group took no part. *)
Definition group (n : nat) (mr : regex_match) : option string :=
  match find (fun c => Nat.eqb (fst c) n) (groups mr) with
  | Some c => Some (str (snd c))
  | None => None
  end.

(** The text of a group that takes part in every match of its pattern (the
    first group of the invoice number patterns, groups 1, 2 and 4 of the item
    patterns). *)
Definition group_text (n : nat) (m : regex_match) : string :=
  match group n m with
  | Some s => s
  | None => ""
  end.

(** The first match from the leftmost start that has one. *)
Fixpoint search (ignoreCase : bool) (input_length : nat) (r : regex)
  (s : list ascii) : option regex_match :=
  match matches ignoreCase input_length r s [] (fun s' caps => Some (s', caps)) with
  | Some (rest, caps) =>
      Some (mkMatch (input_length - List.length s)
              (str (firstn (List.length s - List.length rest) s)) caps)
  | None =>
      match s with
      | _ :: s' => search ignoreCase input_length r s'
      | [] => None
      end
  end.

(** [s.match(r)] for a pattern without the [g] flag, and the first element of
    its result with the flag. *)
Definition js_match (ignoreCase : bool) (r : regex) (s : string)
  : option regex_match :=
  search ignoreCase (String.length s) r (chars s).

Definition seq (rs : list regex) : regex := fold_right Seq Empty rs.

Fixpoint alts (rs : list regex) : regex :=
  match rs with
  | [] => Class []
  | [r] => r
  | r :: rs' => Alt r (alts rs')
  end.

Definition lit (s : string) : regex := seq (map Chr (chars s)).

Definition plus (r : regex) : regex := Repeat true 1 None r.
Definition star (r : regex) : regex := Repeat true 0 None r.
Definition lazy_plus (r : regex) : regex := Repeat false 1 None r.
Definition opt (r : regex) : regex := Repeat true 0 (Some 1) r.

(** [[0-9]], [\s] (below U+0080) and [[.\-\/]] *)
Definition digit : regex := Class [("0"%char, "9"%char)].
Definition space : regex :=
  Class [(ascii_of_nat 9, ascii_of_nat 13); (" "%char, " "%char)].
Definition date_separator : regex :=
  Class [("."%char, "."%char); ("-"%char, "-"%char); ("/"%char, "/"%char)].

(** [[0-9]+(?:[.,][0-9]+)?] *)
Definition number : regex :=
  Seq (plus digit)
    (opt (Seq (Class [("."%char, "."%char); (","%char, ","%char)]) (plus digit))).

(** ** Calendar dates of [Date]

    Day numbers count from 1970-01-01 in the proleptic Gregorian calendar, as
    ECMAScript defines them.  Local time is taken without an offset: a date
    built from a year, a month and a day is read back in the same zone, and
    the range of [Date] ends with the day it ends with in UTC (in another
    zone the last day of the range may differ). *)

Definition DayFromYear (y : Z) : Z :=
  (365 * (y - 1970) + (y - 1969) / 4 - (y - 1901) / 100 + (y - 1601) / 400)%Z.

Definition InLeapYear (y : Z) : bool :=
  ((y mod 4 =? 0) && negb (y mod 100 =? 0) || (y mod 400 =? 0))%Z.

Definition leap_day (y : Z) : Z := if InLeapYear y then 1%Z else 0%Z.

(** The year of a day number: the largest [y] with [DayFromYear y <= day].
    The mean year of 146097/400 days gives it within one. *)
Definition YearFromDay (day : Z) : Z :=
  let y0 := (1970 + (day * 400) / 146097 - 1)%Z in
  if (DayFromYear (y0 + 2) <=? day)%Z then (y0 + 2)%Z
  else if (DayFromYear (y0 + 1) <=? day)%Z then (y0 + 1)%Z
  else y0.

(** The day within its year on which month [m] (0 to 11) starts. *)
Definition month_start (y m : Z) : Z :=
  let l := leap_day y in
  (match m with
   | 0 => 0
   | 1 => 31
   | 2 => 59 + l
   | 3 => 90 + l
   | 4 => 120 + l
   | 5 => 151 + l
   | 6 => 181 + l
   | 7 => 212 + l
   | 8 => 243 + l
   | 9 => 273 + l
   | 10 => 304 + l
   | _ => 334 + l
   end)%Z.

(** [MakeDay(year, month, date)] *)
Definition MakeDay (year month date : Z) : Z :=
  let ym := (year + month / 12)%Z in
  let mn := (month mod 12)%Z in
  (DayFromYear ym + month_start ym mn + date - 1)%Z.

Definition DayWithinYear (day : Z) : Z := (day - DayFromYear (YearFromDay day))%Z.

(** [MonthFromTime] *)
Definition MonthFromDay (day : Z) : Z :=
  let y := YearFromDay day in
  let d := DayWithinYear day in
  (if d <? month_start y 1 then 0
   else if d <? month_start y 2 then 1
   else if d <? month_start y 3 then 2
   else if d <? month_start y 4 then 3
   else if d <? month_start y 5 then 4
   else if d <? month_start y 6 then 5
   else if d <? month_start y 7 then 6
   else if d <? month_start y 8 then 7
   else if d <? month_start y 9 then 8
   else if d <? month_start y 10 then 9
   else if d <? month_start y 11 then 10
   else 11)%Z.

(** [DateFromTime] *)
Definition DateFromDay (day : Z) : Z :=
  (DayWithinYear day - month_start (YearFromDay day) (MonthFromDay day) + 1)%Z.

(** [TimeClip]: a time value further than 8.64 * 10^15 milliseconds, that is
    10^8 days, from the epoch is no time value. *)
Definition TimeClip (day : Z) : option Z :=
  if (Z.abs day <=? 100000000)%Z then Some day else None.

(** [new Date(year, monthIndex, day)] as a day number, [None] for an Invalid
    Date; years 0 to 99 stand for 1900 to 1999. *)
Definition new_Date (year monthIndex day : Z) : option Z :=
  let yr := if ((0 <=? year) && (year <=? 99))%Z then (1900 + year)%Z else year in
  TimeClip (MakeDay yr monthIndex day).

Definition getFullYear (d : Z) : Z := YearFromDay d.
Definition getMonth (d : Z) : Z := MonthFromDay d.
Definition getDate (d : Z) : Z := DateFromDay d.

(** The validation of [formatDateToISO]: the date built from the three
    numbers has that year, month and day.  A [NaN] among them makes the date
    invalid, and every comparison with its fields unequal. *)
Definition date_round_trips (year month day : option Z) : bool :=
  match year, month, day with
  | Some y, Some m, Some d =>
      match new_Date y (m - 1) d with
      | Some date =>
          ((getFullYear date =? y) && (getMonth date =? m - 1)
           && (getDate date =? d))%Z
      | None => false
      end
  | _, _, _ => false
  end.

(** A day of the calendar, with a year that [new Date] takes as it is. *)
Definition days_in_month (y m : Z) : Z :=
  (match m with
   | 2 => 28 + leap_day y
   | 4 | 6 | 9 | 11 => 30
   | _ => 31
   end)%Z.

Definition valid_calendar_date (y m d : Z) : bool :=
  ((1 <=? m) && (m <=? 12) && (1 <=? d) && (d <=? days_in_month y m)
   && negb ((0 <=? y) && (y <=? 99)))%Z.

(** ** The patterns of the parsers *)

Definition token_class : regex :=
  Class [("A"%char, "Z"%char); ("0"%char, "9"%char); ("/"%char, "/"%char);
         ("-"%char, "-"%char)].

Definition colon_or_space : regex :=
  Class [(":"%char, ":"%char); (ascii_of_nat 9, ascii_of_nat 13);
         (" "%char, " "%char)].

(** [/(?:faktura|invoice|nr|number)[:\s]*([A-Z0-9\/\-]{3,})/i],
    [/(?:FV|INV)[:\s]*([A-Z0-9\/\-]{3,})/i] and
    [/([A-Z0-9]+\/[0-9]+\/[0-9]+)/i] *)
Definition invoice_number_patterns : list regex :=
  [ seq [alts [lit "faktura"; lit "invoice"; lit "nr"; lit "number"];
         star colon_or_space; Group 1 (Repeat true 3 None token_class)];
    seq [alts [lit "FV"; lit "INV"];
         star colon_or_space; Group 1 (Repeat true 3 None token_class)];
    Group 1
      (seq [plus (Class [("A"%char, "Z"%char); ("0"%char, "9"%char)]);
            Chr "/"; plus digit; Chr "/"; plus digit]) ].

(** [/([0-9]{1,2}[.\-\/][0-9]{1,2}[.\-\/][0-9]{4})/g] and
    [/([0-9]{4}[.\-\/][0-9]{1,2}[.\-\/][0-9]{1,2})/g] *)
Definition date_patterns : list regex :=
  [ Group 1
      (seq [Repeat true 1 (Some 2) digit; date_separator;
            Repeat true 1 (Some 2) digit; date_separator;
            Repeat true 4 (Some 4) digit]);
    Group 1
      (seq [Repeat true 4 (Some 4) digit; date_separator;
            Repeat true 1 (Some 2) digit; date_separator;
            Repeat true 1 (Some 2) digit]) ].

(** [/faktura|invoice|data|date/i] and [/^[0-9\s\.\-\/]+$/] *)
Definition vendor_keyword_pattern : regex :=
  alts [lit "faktura"; lit "invoice"; lit "data"; lit "date"].

Definition vendor_numeric_pattern : regex :=
  seq [Bol;
       plus (Class [("0"%char, "9"%char); (ascii_of_nat 9, ascii_of_nat 13);
                    (" "%char, " "%char); ("."%char, "."%char);
                    ("-"%char, "-"%char); ("/"%char, "/"%char)]);
       Eol].

(** [/(.+?)\s+([0-9]+(?:[.,][0-9]+)?)\s+(szt|kg|m|l|godz)\s+([0-9]+(?:[.,][0-9]+)?)\s+([0-9]+)%\s+([0-9]+(?:[.,][0-9]+)?)/]
    and
    [/(.+?)\s+([0-9]+(?:[.,][0-9]+)?)\s+([0-9]+(?:[.,][0-9]+)?)\s+([0-9]+(?:[.,][0-9]+)?)/] *)
Definition item_patterns : list regex :=
  [ seq [Group 1 (lazy_plus Any); plus space; Group 2 number; plus space;
         Group 3 (alts [lit "szt"; lit "kg"; lit "m"; lit "l"; lit "godz"]);
         plus space; Group 4 number; plus space; Group 5 (plus digit);
         Chr "%"; plus space; Group 6 number];
    seq [Group 1 (lazy_plus Any); plus space; Group 2 number; plus space;
         Group 3 number; plus space; Group 4 number] ].

(** [/^\d{4}-\d{2}-\d{2}$/] *)
Definition iso_date_pattern : regex :=
  seq [Bol; Repeat true 4 (Some 4) digit; Chr "-";
       Repeat true 2 (Some 2) digit; Chr "-"; Repeat true 2 (Some 2) digit; Eol].

(** The first pattern of the list that matches, with its match. *)
Fixpoint first_match (ignoreCase : bool) (patterns : list regex) (text : string)
  : option regex_match :=
  match patterns with
  | [] => None
  | pattern :: patterns' =>
      match js_match ignoreCase pattern text with
      | Some m => Some m
      | None => first_match ignoreCase patterns' text
      end
  end.

(** [extractInvoiceNumber] (the same in both parsers) *)
Definition extractInvoiceNumber (text : string) : string :=
  match first_match true invoice_number_patterns text with
  | Some m => trim (group_text 1 m)
  | None => "UNKNOWN"
  end.

Definition vendor_line (line : string) : bool :=
  Nat.ltb 5 (String.length line) && Nat.ltb (String.length line) 100
  && negb (match js_match true vendor_keyword_pattern line with
           | Some _ => true
           | None => false
           end)
  && negb (match js_match false vendor_numeric_pattern line with
           | Some _ => true
           | None => false
           end).

(** [extractVendor] (the same in both parsers) *)
Definition extractVendor (text : string) : string :=
  match find vendor_line (map trim (firstn 10 (split (ascii_of_nat 10) text))) with
  | Some line => line
  | None => "UNKNOWN VENDOR"
  end.

(** The item both parsers fall back to. *)
Definition placeholder_item : InvoiceItem.t :=
  InvoiceItem.mk "Extracted item from PDF" 1%Q "szt" 23%Q 100%Q 123%Q 100%Q
    123%Q.

(** ** [AIInvoiceParser] *)

Module AIInvoiceParser.

Section Environment.

(** [new Date().toISOString().split('T')[0]] *)
Variable today : string.

(** [new Date(dateStr)] for a string that is not in the ISO format, as the
    date part of its [toISOString()]; [None] for an invalid date.  What such
    strings parse to is left to the implementation. *)
Variable Date_parse : string -> option string.

(** [parseAIResponse(await callGroqAPI(createParsingPrompt(pdfText)))]: the
    completion service and the decoding of its answer; [Err] when any of the
    three throws. *)
Variable ai_parse : string -> result ParsedInvoiceData.

Definition validateDate (dateStr : string) : string :=
  if String.eqb dateStr "" then today
  else
    match js_match false iso_date_pattern dateStr with
    | Some _ => dateStr
    | None =>
        match Date_parse dateStr with
        | None => today
        | Some iso => iso
        end
    end.

Definition extractDate (text : string) : string :=
  match first_match false date_patterns text with
  | Some m => validateDate (whole m)
  | None => today
  end.

Definition extractItems (text : string) : list InvoiceItem.t :=
  [placeholder_item].

Definition fallbackParsing (pdfText : string) : ParsedInvoiceData :=
  mkParsed (extractInvoiceNumber pdfText) (extractDate pdfText)
    (extractVendor pdfText) (extractItems pdfText) 0%Q 0%Q.

(** The [catch] of [parseInvoiceWithAI] takes every error, so the function
    always returns. *)
Definition parseInvoiceWithAI (pdfText : string) : result ParsedInvoiceData :=
  match ai_parse pdfText with
  | Ok parsed => Ok parsed
  | Err _ => Ok (fallbackParsing pdfText)
  end.

End Environment.

End AIInvoiceParser.

(** ** [InvoicePDFParser] *)

Module InvoicePDFParser.

(** [x || d] for a string that may be undefined. *)
Definition or_default (x : option string) (d : string) : string :=
  match x with
  | Some s => if String.eqb s "" then d else s
  | None => d
  end.

(** A number for a parsed token.  [NaN] has no value in [Q]; the tokens come
    from groups of digits, on which [parseFloat] and [parseInt] yield
    numbers. *)
Definition number_of (x : option Q) : Q :=
  match x with
  | Some q => q
  | None => 0%Q
  end.

(** The item pushed for a match, from
    [const [, name, quantity, unit, netPrice, percentage, grossPrice] = match]. *)
Definition item_of_match (m : regex_match) : InvoiceItem.t :=
  let name := group_text 1 m in
  let quantity := group_text 2 m in
  let unit := group 3 m in
  let netPrice := group_text 4 m in
  let percentage := group 5 m in
  let grossPrice := group 6 m in
  let qty := number_of (parseFloat (replace_first "," "." quantity)) in
  let net := number_of (parseFloat (replace_first "," "." netPrice)) in
  let percent :=
    match percentage with
    | Some p =>
        if String.eqb p "" then 23%Q
        else number_of (option_map inject_Z (parseInt p))
    | None => 23%Q
    end in
  let gross :=
    match grossPrice with
    | Some g =>
        if String.eqb g "" then (net * (1 + percent / 100))%Q
        else number_of (parseFloat (replace_first "," "." g))
    | None => (net * (1 + percent / 100))%Q
    end in
  InvoiceItem.mk (trim name) qty (or_default unit "szt") percent net gross
    (qty * net)%Q (qty * gross)%Q.

(** The items one line contributes: the loop over the patterns pushes an item
    for each pattern that matches. *)
Definition line_items (line : string) : list InvoiceItem.t :=
  flat_map
    (fun pattern =>
       match js_match false pattern line with
       | Some m => [item_of_match m]
       | None => []
       end)
    item_patterns.

Definition extractItems (text : string) : list InvoiceItem.t :=
  let items :=
    flat_map (fun line => line_items (trim line))
      (split (ascii_of_nat 10) text) in
  match items with
  | [] => [placeholder_item]
  | _ => items
  end.

Definition formatDateToISO (today : string) (dateStr : string) : string :=
  let cleanDate :=
    str (map (fun c =>
                if Ascii.eqb c "." || Ascii.eqb c "-" || Ascii.eqb c "/"
                then "/"%char else c) (chars dateStr)) in
  match split "/" cleanDate with
  | [p0; p1; p2] =>
      let '(year, month, day) :=
        if Nat.eqb (String.length p0) 4
        then (p0, padStart0 2 p1, padStart0 2 p2)
        else (p2, padStart0 2 p1, padStart0 2 p0) in
      if date_round_trips (parseInt year) (parseInt month) (parseInt day)
      then year ++ "-" ++ month ++ "-" ++ day
      else today
  | _ => today
  end.

Definition extractDate (today : string) (text : string) : string :=
  match first_match false date_patterns text with
  | Some m => formatDateToISO today (whole m)
  | None => today
  end.

Definition join_lines (lines : list string) : string :=
  String.concat (String (ascii_of_nat 10) "") lines.

Definition simulatePDFText : string :=
  join_lines
    [ "";
      "      ABC Company Sp. z o.o.";
      "      ul. Przykładowa 123";
      "      00-000 Warszawa";
      "      ";
      "      FAKTURA VAT";
      "      Nr: FV/2024/001";
      "      Data: 15.01.2024";
      "      ";
      "      Pozycje:";
      "      Laptop Dell Inspiron 15 1 szt 2500,00 23% 3075,00";
      "      Mysz optyczna Logitech 2 szt 45,00 23% 55,35";
      "      Klawiatura mechaniczna 1 szt 200,00 23% 246,00";
      "      ";
      "      Razem netto: 2790,00";
      "      VAT 23%: 641,70";
      "      Razem brutto: 3431,70";
      "    " ].

Definition sum_total_net (items : list InvoiceItem.t) : Q :=
  fold_left (fun sum item => (sum + InvoiceItem.total_net item)%Q) items 0%Q.

Definition sum_total_gross (items : list InvoiceItem.t) : Q :=
  fold_left (fun sum item => (sum + InvoiceItem.total_gross item)%Q) items 0%Q.

(** The heuristic result of the [catch] branch of [parsePDF]. *)
Definition heuristic (today : string) (text : string) : ParsedInvoiceData :=
  let items := extractItems text in
  mkParsed (extractInvoiceNumber text) (extractDate today text)
    (extractVendor text) items (sum_total_net items) (sum_total_gross items).

(** [parsePDF]: the text of the buffer is the fixed sample. *)
Definition parsePDF (today : string) (Date_parse : string -> option string)
  (ai_parse : string -> result ParsedInvoiceData) : ParsedInvoiceData :=
  let text := simulatePDFText in
  match AIInvoiceParser.parseInvoiceWithAI today Date_parse ai_parse text with
  | Ok aiResult => aiResult
  | Err _ => heuristic today text
  end.

End InvoicePDFParser.

(** ** Vocabulary of the statements *)

(** The stock of every product is the sum of its movements. *)
Definition ledger_invariant (s : store) : Prop :=
  forall pid c, stock_of pid s = Some c ->
    (c == ledger_sum pid (stock_movements s))%Q.

(** An update that assigns [product_id]. *)
Definition assigns_product_id (o : ledger_op) : bool :=
  match o with
  | op_update _ (Some _) _ => true
  | _ => false
  end.

Definition stock_in (pid : uuid) (ps : list Product.t) : option Q :=
  option_map Product.current_stock (find_product pid ps).

(** The quantity a trigger event adds to the stock of product [pid]. *)
Definition stock_delta (op : TG_OP) (pid : uuid) : Q :=
  match op with
  | INSERT NEW =>
      if Nat.eqb (StockMovement.product_id NEW) pid
      then StockMovement.quantity NEW else 0%Q
  | DELETE OLD =>
      if Nat.eqb (StockMovement.product_id OLD) pid
      then (- StockMovement.quantity OLD)%Q else 0%Q
  | UPDATE OLD NEW =>
      if Nat.eqb (StockMovement.product_id NEW) pid
      then (StockMovement.quantity NEW - StockMovement.quantity OLD)%Q else 0%Q
  end.

(** A movement without its id. *)
Definition strip (m : StockMovement.t) : NewStockMovement.t :=
  NewStockMovement.mk (StockMovement.product_id m)
    (StockMovement.movement_type m) (StockMovement.quantity m)
    (StockMovement.reference_id m) (StockMovement.reference_type m)
    (StockMovement.notes m).

(** The quantities of the inserted movements of product [pid], summed. *)
Fixpoint new_sum (pid : uuid) (ns : list NewStockMovement.t) : Q :=
  match ns with
  | [] => 0%Q
  | n :: ns' =>
      if Nat.eqb (NewStockMovement.product_id n) pid
      then (NewStockMovement.quantity n + new_sum pid ns')%Q
      else new_sum pid ns'
  end.

(** What an insert into [stock_movements] leaves as it was. *)
Record frame (s s' : store) : Prop := mkFrame {
  frame_invoices : invoices s' = invoices s;
  frame_invoice_items : invoice_items s' = invoice_items s;
  frame_inventories : inventories s' = inventories s;
  frame_inventory_items : inventory_items s' = inventory_items s;
  frame_sales : sales s' = sales s;
  frame_sale_items : sale_items s' = sale_items s;
  frame_has_product : forall pid, has_product pid s' = has_product pid s
}.

(** An item of inventory [iid] that was counted and differs from what was
    expected. *)
Definition counted_with_difference (iid : uuid) (it : InventoryItem.t) : bool :=
  Nat.eqb (InventoryItem.inventory_id it) iid
  && match InventoryItem.difference it with
     | Some d => negb (Qeq_bool d 0)
     | None => false
     end.



(** The [stockMovements] of [handleCompleteInventory]. *)
Definition completion_movements (iid : uuid) (its : list InventoryItem.t)
  : list NewStockMovement.t :=
  map (inventory_movement iid)
    (filter (fun item => negb (Qeq_bool (snd item) 0)) (with_difference iid its)).

(** The rows a confirmation writes for an invoice and for a product it
    creates. *)
Definition confirmed_invoice (parsedData : ParsedInvoiceData) (n : uuid)
  : Invoice.t :=
  Invoice.mk n "uploaded.pdf" (invoiceNumber parsedData) (date parsedData)
    (vendor parsedData) (totalNet parsedData) (totalGross parsedData).

Definition created_product (item : InvoiceItem.t) (n : uuid) : Product.t :=
  Product.mk n (InvoiceItem.name item) (InvoiceItem.unit item) 0%Q 0%Q
    (Some (InvoiceItem.net_price item)).






(** The status stays or advances by one step. *)
Definition forward_step (st st' : InventoryStatus) : Prop :=
  st' = st \/ status_rank st' = S (status_rank st).

Definition is_date_separator (c : ascii) : bool :=
  Ascii.eqb c "." || Ascii.eqb c "-" || Ascii.eqb c "/".

(** A token of one or more digits. *)
Definition digit_string (s : string) : bool :=
  negb (String.eqb s "") && forallb is_digit (chars s).

Definition clean (c : ascii) : ascii :=
  if Ascii.eqb c "." || Ascii.eqb c "-" || Ascii.eqb c "/" then "/"%char else c.

(** The result of the normalisation for the three tokens of a date, in the
    order year, month, day. *)
Definition iso_or_today (today year month day : string) : string :=
  if date_round_trips (Some (digits_value (chars year)))
       (Some (digits_value (chars month))) (Some (digits_value (chars day)))
  then year ++ "-" ++ padStart0 2 month ++ "-" ++ padStart0 2 day
  else today.

(** The totals of a parsed invoice agree with its items within 0.01. *)
Definition totals_consistent (d : ParsedInvoiceData) : Prop :=
  (Qabs (InvoicePDFParser.sum_total_net (items d) - totalNet d) <= 1 # 100)%Q
  /\ (Qabs (InvoicePDFParser.sum_total_gross (items d) - totalGross d)
      <= 1 # 100)%Q.

(** The totals of an item are its quantity times its prices. *)
Definition item_totals (item : InvoiceItem.t) : Prop :=
  (InvoiceItem.total_net item
   == InvoiceItem.quantity item * InvoiceItem.net_price item)%Q
  /\ (InvoiceItem.total_gross item
      == InvoiceItem.quantity item * InvoiceItem.gross_price item)%Q.

(** ** Scenarios *)

(** The run of some handlers one after the other, whatever each returns. *)
Fixpoint run_all (hs : list (db unit)) (s : store) : store :=
  match hs with
  | [] => s
  | h :: hs' => run_all hs' (snd (h s))
  end.

(** A product entered in the product form with an initial stock of 5. *)
Definition cable_form : ProductFormData := mkProductForm "Kabel" "m" 0%Q 5%Q.

Definition store_with_initial_stock : store :=
  run_all [handleSaveProduct None cable_form] empty_store.

Definition manual_adjustment : NewStockMovement.t :=
  NewStockMovement.mk 0 adjustment 2%Q None (Some ref_manual) "".

(** An insert, an update of the quantity and a delete. *)
Definition sample_ledger_ops : list ledger_op :=
  [op_insert manual_adjustment; op_update 1 None (Some 4%Q); op_delete 1].

(** Two products without stock and one movement of 3 for the first. *)
Definition store_with_two_products : store :=
  run_ledger_ops
    [op_insert (NewStockMovement.mk 0 adjustment 3%Q None (Some ref_manual) "")]
    (run_all
       [handleSaveProduct None (mkProductForm "A" "szt" 0%Q 0%Q);
        handleSaveProduct None (mkProductForm "B" "szt" 0%Q 0%Q)]
       empty_store).

(** A product with a stock of 10 and a draft inventory that lists it. *)
Definition store_with_draft_inventory : store :=
  let s := run_all [handleSaveProduct None (mkProductForm "A" "szt" 0%Q 10%Q)]
             empty_store in
  run_all
    [handleCreateInventory (products s)
       (mkCreateInventory "Inwentaryzacja" [0])] s.

(** The inventory started and its item counted: 7 where 10 were expected. *)
Definition store_with_counted_inventory : store :=
  run_all [handleStartInventory 1; handleUpdateCount 2 7%Q]
    store_with_draft_inventory.

(** A one-line invoice. *)
Definition laptop_line : InvoiceItem.t :=
  InvoiceItem.mk "Laptop Dell Inspiron 15" 1%Q "szt" 23%Q 2500%Q 3075%Q
    2500%Q 3075%Q.

Definition laptop_invoice : ParsedInvoiceData :=
  mkParsed "FV/2024/001" "2024-01-15" "ABC Company Sp. z o.o." [laptop_line]
    2500%Q 3075%Q.

(** The product of the invoice entered in the product form, without stock. *)
Definition store_before_confirmation : store :=
  run_all
    [handleSaveProduct None
       (mkProductForm "Laptop Dell Inspiron 15" "szt" 0%Q 0%Q)]
    empty_store.

(** A second invoice for the same product at another price. *)
Definition second_laptop_invoice : ParsedInvoiceData :=
  mkParsed "FV/2024/002" "2024-02-01" "ABC Company Sp. z o.o."
    [InvoiceItem.mk "Laptop Dell Inspiron 15" 2%Q "szt" 23%Q 2600%Q 3198%Q
       5200%Q 6396%Q]
    5200%Q 6396%Q.


(** A line that both item patterns match. *)
Definition paper_line : string := "Papier A4 80 500 10 szt 12,50 23% 15,38".

(** ** Deleting a product *)

(** The rows of [stock_movements] that reference product [pid] go with it
    ([REFERENCES products(id) ON DELETE CASCADE]).  Each fires
    [update_product_stock] with itself as [OLD], on the products that are
    left once the row of the product is gone. *)
Fixpoint cascade_movement_rows (pid : uuid) (ms : list StockMovement.t)
  (ps : list Product.t) : list StockMovement.t * list Product.t :=
  match ms with
  | [] => ([], ps)
  | m :: ms' =>
      if Nat.eqb (StockMovement.product_id m) pid
      then cascade_movement_rows pid ms' (update_product_stock (DELETE m) ps)
      else
        let (ms'', ps') := cascade_movement_rows pid ms' ps in
        (m :: ms'', ps')
  end.

(** [supabase.from('products').delete().eq('id', pid)]; the rows of
    [stock_movements], [inventory_items] and [sale_items] that reference the
    product go with it. *)
Definition delete_product (pid : uuid) : db unit :=
  statement (fun s =>
    let remaining :=
      filter (fun p => negb (Nat.eqb (Product.id p) pid)) (products s) in
    let (ms, ps) := cascade_movement_rows pid (stock_movements s) remaining in
    Ok (tt,
        set_sale_items
          (filter (fun x => negb (Nat.eqb (SaleItem.product_id x) pid))
             (sale_items s))
          (set_inventory_items
             (filter (fun i => negb (Nat.eqb (InventoryItem.product_id i) pid))
                (inventory_items s))
             (set_products ps (set_stock_movements ms s))))).

(** [handleDeleteProduct]; [confirmed] is the answer to the [confirm]
    dialog. *)
Definition handleDeleteProduct (confirmed : bool) (id : uuid) : db unit :=
  if confirmed then delete_product id else ret tt.

(** ** The writes of the application

    Every statement the components send to the store is sent by one of these
    handlers. *)

Inductive app_action : Type :=
| act_confirm_invoice (parsedData : ParsedInvoiceData)
| act_delete_invoice (invoiceToDelete : Invoice.t)
| act_create_sale (saleData : CreateSaleData)
| act_save_product (editingProduct : option Product.t)
    (productData : ProductFormData)
| act_delete_product (confirmed : bool) (id : uuid)
| act_create_inventory (loaded : list Product.t)
    (inventoryData : CreateInventoryData)
| act_start_inventory (inventoryId : uuid)
| act_complete_inventory (now : string) (inventoryId : uuid)
| act_update_count (itemId : uuid) (countedQuantity : Q).

Definition run_action (a : app_action) : db unit :=
  match a with
  | act_confirm_invoice parsedData => handleConfirmInvoice parsedData
  | act_delete_invoice invoiceToDelete => confirmDeleteInvoice invoiceToDelete
  | act_create_sale saleData => handleCreateSale saleData
  | act_save_product editingProduct productData =>
      handleSaveProduct editingProduct productData
  | act_delete_product confirmed id => handleDeleteProduct confirmed id
  | act_create_inventory loaded inventoryData =>
      handleCreateInventory loaded inventoryData
  | act_start_inventory inventoryId => handleStartInventory inventoryId
  | act_complete_inventory now inventoryId =>
      handleCompleteInventory now inventoryId
  | act_update_count itemId countedQuantity =>
      handleUpdateCount itemId countedQuantity
  end.

(** The store after some actions, whatever each returns. *)
Definition run_actions (acts : list app_action) (s : store) : store :=
  run_all (map run_action acts) s.

(** ** [InventoryForm] *)

Module InventoryForm.

Definition handleProductToggle (productId : uuid)
  (formData : CreateInventoryData) : CreateInventoryData :=
  mkCreateInventory (ci_name formData)
    (if existsb (fun id => Nat.eqb id productId) (ci_product_ids formData)
     then filter (fun id => negb (Nat.eqb id productId))
            (ci_product_ids formData)
     else ci_product_ids formData ++ [productId]).

Definition handleSelectAll (products : list Product.t)
  (formData : CreateInventoryData) : CreateInventoryData :=
  mkCreateInventory (ci_name formData)
    (if Nat.eqb (List.length (ci_product_ids formData)) (List.length products)
     then []
     else map Product.id products).

(** [handleSubmit]: what it passes to [onSave], or nothing after the alert. *)
Definition handleSubmit (formData : CreateInventoryData)
  : option CreateInventoryData :=
  if Nat.eqb (List.length (ci_product_ids formData)) 0
  then None
  else Some formData.

(** The inputs of the form: the name, the check box of a listed product and
    the button that selects all. *)
Inductive click : Type :=
| change_name (value : string)
| click_product (productId : uuid)
| click_select_all.

Definition run_click (products : list Product.t) (c : click)
  (formData : CreateInventoryData) : CreateInventoryData :=
  match c with
  | change_name value => mkCreateInventory value (ci_product_ids formData)
  | click_product productId => handleProductToggle productId formData
  | click_select_all => handleSelectAll products formData
  end.

Definition run_clicks (products : list Product.t) (cs : list click)
  (formData : CreateInventoryData) : CreateInventoryData :=
  fold_left (fun d c => run_click products c d) cs formData.

(** A check box is rendered for each product of the list. *)
Definition rendered (products : list Product.t) (c : click) : bool :=
  match c with
  | click_product productId =>
      existsb (fun p => Nat.eqb (Product.id p) productId) products
  | change_name _ | click_select_all => true
  end.

End InventoryForm.

(** ** The inventory report

    [PDFGenerator.createInventoryHTML] and the summary of [InventoryModal]. *)

Module InventoryReport.

(** [item.difference || 0] *)
Definition difference_or_0 (item : InventoryItem.t) : Q :=
  match InventoryItem.difference item with
  | Some d => if Qeq_bool d 0 then 0%Q else d
  | None => 0%Q
  end.

Definition totalDifference (items : list InventoryItem.t) : Q :=
  fold_left (fun sum item => (sum + difference_or_0 item)%Q) items 0%Q.

Definition countedItems (items : list InventoryItem.t) : nat :=
  List.length
    (filter (fun item =>
               match InventoryItem.counted_quantity item with
               | Some _ => true
               | None => false
               end) items).

Definition status (item : InventoryItem.t) : string :=
  let difference := difference_or_0 item in
  match InventoryItem.counted_quantity item with
  | None => "Nie policzono"
  | Some _ =>
      if Qeq_bool difference 0 then "OK"
      else if negb (Qle_bool difference 0) then "Nadwyżka"
      else "Niedobór"
  end.

End InventoryReport.

(** ** [InvoiceEditor] *)

Module InvoiceEditor.

(** The field and the value [handleHeaderChange] is called with. *)
Inductive header_change : Type :=
| set_invoiceNumber (value : string)
| set_date (value : string)
| set_vendor (value : string).

(** The field and the value the inputs of a row pass to
    [handleItemChange]. *)
Inductive item_change : Type :=
| set_name (value : string)
| set_quantity (value : Q)
| set_unit (value : string)
| set_percentage (value : Q)
| set_net_price (value : Q)
| set_gross_price (value : Q).

Definition handleHeaderChange (c : header_change)
  (editedData : ParsedInvoiceData) : ParsedInvoiceData :=
  match c with
  | set_invoiceNumber value =>
      mkParsed value (date editedData) (vendor editedData) (items editedData)
        (totalNet editedData) (totalGross editedData)
  | set_date value =>
      mkParsed (invoiceNumber editedData) value (vendor editedData)
        (items editedData) (totalNet editedData) (totalGross editedData)
  | set_vendor value =>
      mkParsed (invoiceNumber editedData) (date editedData) value
        (items editedData) (totalNet editedData) (totalGross editedData)
  end.

(** [{ ...updatedItems[index], [field]: value }] *)
Definition assign (c : item_change) (item : InvoiceItem.t) : InvoiceItem.t :=
  match c with
  | set_name value =>
      InvoiceItem.mk value (InvoiceItem.quantity item) (InvoiceItem.unit item)
        (InvoiceItem.percentage item) (InvoiceItem.net_price item)
        (InvoiceItem.gross_price item) (InvoiceItem.total_net item)
        (InvoiceItem.total_gross item)
  | set_quantity value =>
      InvoiceItem.mk (InvoiceItem.name item) value (InvoiceItem.unit item)
        (InvoiceItem.percentage item) (InvoiceItem.net_price item)
        (InvoiceItem.gross_price item) (InvoiceItem.total_net item)
        (InvoiceItem.total_gross item)
  | set_unit value =>
      InvoiceItem.mk (InvoiceItem.name item) (InvoiceItem.quantity item) value
        (InvoiceItem.percentage item) (InvoiceItem.net_price item)
        (InvoiceItem.gross_price item) (InvoiceItem.total_net item)
        (InvoiceItem.total_gross item)
  | set_percentage value =>
      InvoiceItem.mk (InvoiceItem.name item) (InvoiceItem.quantity item)
        (InvoiceItem.unit item) value (InvoiceItem.net_price item)
        (InvoiceItem.gross_price item) (InvoiceItem.total_net item)
        (InvoiceItem.total_gross item)
  | set_net_price value =>
      InvoiceItem.mk (InvoiceItem.name item) (InvoiceItem.quantity item)
        (InvoiceItem.unit item) (InvoiceItem.percentage item) value
        (InvoiceItem.gross_price item) (InvoiceItem.total_net item)
        (InvoiceItem.total_gross item)
  | set_gross_price value =>
      InvoiceItem.mk (InvoiceItem.name item) (InvoiceItem.quantity item)
        (InvoiceItem.unit item) (InvoiceItem.percentage item)
        (InvoiceItem.net_price item) value (InvoiceItem.total_net item)
        (InvoiceItem.total_gross item)
  end.

(** [item.total_net = item.quantity * item.net_price;
     item.total_gross = item.quantity * item.gross_price] *)
Definition with_totals (item : InvoiceItem.t) : InvoiceItem.t :=
  InvoiceItem.mk (InvoiceItem.name item) (InvoiceItem.quantity item)
    (InvoiceItem.unit item) (InvoiceItem.percentage item)
    (InvoiceItem.net_price item) (InvoiceItem.gross_price item)
    (InvoiceItem.quantity item * InvoiceItem.net_price item)%Q
    (InvoiceItem.quantity item * InvoiceItem.gross_price item)%Q.

(** [setEditedData({ ...editedData, items })] *)
Definition with_items (items : list InvoiceItem.t)
  (editedData : ParsedInvoiceData) : ParsedInvoiceData :=
  mkParsed (invoiceNumber editedData) (date editedData) (vendor editedData)
    items (totalNet editedData) (totalGross editedData).

(** [recalculateTotals(items)]: the update it queues, applied to the state
    [prev] it finds. *)
Definition recalculateTotals (items : list InvoiceItem.t)
  (prev : ParsedInvoiceData) : ParsedInvoiceData :=
  let totalNet :=
    fold_left (fun sum item => (sum + InvoiceItem.total_net item)%Q) items 0%Q in
  let totalGross :=
    fold_left (fun sum item => (sum + InvoiceItem.total_gross item)%Q) items
      0%Q in
  mkParsed (invoiceNumber prev) (date prev) (vendor prev) items totalNet
    totalGross.

(** The copy of the list with the element at [index] replaced, for an index
    inside the list. *)
Fixpoint replace_at (index : nat) (item : InvoiceItem.t)
  (items : list InvoiceItem.t) : list InvoiceItem.t :=
  match items, index with
  | [], _ => []
  | _ :: items', O => item :: items'
  | x :: items', S i => x :: replace_at i item items'
  end.

(** [handleItemChange(index, field, value)] for the index of a row.  Outside
    the list the assignment would add an item with no other field than the
    assigned one, which has no counterpart here: [None]. *)
Definition handleItemChange (index : nat) (c : item_change)
  (editedData : ParsedInvoiceData) : option ParsedInvoiceData :=
  match nth_error (items editedData) index with
  | Some old =>
      let updatedItems :=
        replace_at index (with_totals (assign c old)) (items editedData) in
      Some (recalculateTotals updatedItems (with_items updatedItems editedData))
  | None => None
  end.

Definition newItem : InvoiceItem.t :=
  InvoiceItem.mk "" 1%Q "szt" 23%Q 0%Q 0%Q 0%Q 0%Q.

Definition addItem (editedData : ParsedInvoiceData) : ParsedInvoiceData :=
  with_items (items editedData ++ [newItem]) editedData.

(** [items.filter((_, i) => i !== index)] *)
Fixpoint filter_index {A : Type} (keep : nat -> bool) (i : nat) (xs : list A)
  : list A :=
  match xs with
  | [] => []
  | x :: xs' =>
      if keep i then x :: filter_index keep (S i) xs'
      else filter_index keep (S i) xs'
  end.

Definition removeItem (index : nat) (editedData : ParsedInvoiceData)
  : ParsedInvoiceData :=
  let updatedItems :=
    filter_index (fun i => negb (Nat.eqb i index)) 0 (items editedData) in
  recalculateTotals updatedItems (with_items updatedItems editedData).

(** The steps of an editing session. *)
Inductive step : Type :=
| step_header (c : header_change)
| step_item (index : nat) (c : item_change)
| step_add
| step_remove (index : nat).

Definition run_step (st : step) (editedData : ParsedInvoiceData)
  : option ParsedInvoiceData :=
  match st with
  | step_header c => Some (handleHeaderChange c editedData)
  | step_item index c => handleItemChange index c editedData
  | step_add => Some (addItem editedData)
  | step_remove index => Some (removeItem index editedData)
  end.

Fixpoint run_steps (sts : list step) (editedData : ParsedInvoiceData)
  : option ParsedInvoiceData :=
  match sts with
  | [] => Some editedData
  | st :: sts' =>
      match run_step st editedData with
      | Some d => run_steps sts' d
      | None => None
      end
  end.

(** The invoice the editor opens with for an invoice entered by hand. *)
Definition manual_invoice : ParsedInvoiceData := mkParsed "" "" "" [] 0%Q 0%Q.

End InvoiceEditor.

(** ** [ProductForm] *)

Module ProductForm.

(** [x || 0] for a number. *)
Definition or_0 (x : Q) : Q := if Qeq_bool x 0 then 0%Q else x.

(** The state the form opens with, for the product that is edited or for a
    new product. *)
Definition initial (product : option Product.t) : ProductFormData :=
  match product with
  | Some p =>
      mkProductForm (Product.name p)
        (if String.eqb (Product.unit p) "" then "szt" else Product.unit p)
        (or_0 (Product.min_stock_level p)) (or_0 (Product.current_stock p))
  | None => mkProductForm "" "szt" 0%Q 0%Q
  end.

(** The inputs of the form. *)
Inductive change : Type :=
| set_name (value : string)
| set_unit (value : string)
| set_min_stock_level (value : Q)
| set_current_stock (value : Q).

Definition run_change (c : change) (formData : ProductFormData)
  : ProductFormData :=
  match c with
  | set_name value =>
      mkProductForm value (pf_unit formData) (pf_min_stock_level formData)
        (pf_current_stock formData)
  | set_unit value =>
      mkProductForm (pf_name formData) value (pf_min_stock_level formData)
        (pf_current_stock formData)
  | set_min_stock_level value =>
      mkProductForm (pf_name formData) (pf_unit formData) value
        (pf_current_stock formData)
  | set_current_stock value =>
      mkProductForm (pf_name formData) (pf_unit formData)
        (pf_min_stock_level formData) value
  end.

Definition run_changes (cs : list change) (formData : ProductFormData)
  : ProductFormData :=
  fold_left (fun d c => run_change c d) cs formData.

(** The input of the initial stock is rendered under [!product]. *)
Definition rendered (product : option Product.t) (c : change) : bool :=
  match c, product with
  | set_current_stock _, Some _ => false
  | _, _ => true
  end.

End ProductForm.
(** ** Vocabulary of the statements on the whole application *)

(** A computation keeps a property of the store, whatever it returns. *)
Definition preserves {A : Type} (I : store -> Prop) (m : db A) : Prop :=
  forall s, I s -> I (snd (m s)).

Fixpoint distinct_ids (l : list uuid) : bool :=
  match l with
  | [] => true
  | x :: l' => negb (existsb (Nat.eqb x) l') && distinct_ids l'
  end.

Fixpoint distinct_names (l : list string) : bool :=
  match l with
  | [] => true
  | x :: l' => negb (existsb (String.eqb x) l') && distinct_names l'
  end.

(** The ids of the rows that other rows refer to come from the counter. *)
Definition fresh_ids (s : store) : bool :=
  forallb (fun p => Nat.ltb (Product.id p) (next_uuid s)) (products s)
  && forallb (fun i => Nat.ltb (Invoice.id i) (next_uuid s)) (invoices s)
  && forallb (fun i => Nat.ltb (Inventory.id i) (next_uuid s)) (inventories s)
  && forallb (fun x => Nat.ltb (Sale.id x) (next_uuid s)) (sales s).

(** The foreign keys: every row refers to rows that exist. *)
Definition references_hold (s : store) : bool :=
  forallb (fun m => has_product (StockMovement.product_id m) s)
    (stock_movements s)
  && forallb (fun i => has_inventory (InventoryItem.inventory_id i) s
                       && has_product (InventoryItem.product_id i) s)
       (inventory_items s)
  && forallb (fun x => has_sale (SaleItem.sale_id x) s
                       && has_product (SaleItem.product_id x) s)
       (sale_items s)
  && forallb (fun ii => has_invoice (InvoiceItemRow.invoice_id ii) s)
       (invoice_items s).

(** The primary key and [name text UNIQUE] of [products]. *)
Definition product_keys_hold (s : store) : bool :=
  distinct_ids (map Product.id (products s))
  && distinct_names (map Product.name (products s)).

Definition well_formed (s : store) : bool :=
  fresh_ids s && references_hold s && product_keys_hold s.

(** [well_formed] as a proposition. *)
Record WF (s : store) : Prop := mkWF {
  wf_products : forall p, In p (products s) -> Product.id p < next_uuid s;
  wf_invoices : forall i, In i (invoices s) -> Invoice.id i < next_uuid s;
  wf_inventories :
    forall i, In i (inventories s) -> Inventory.id i < next_uuid s;
  wf_sales : forall x, In x (sales s) -> Sale.id x < next_uuid s;
  wf_movements :
    forall m, In m (stock_movements s) ->
      has_product (StockMovement.product_id m) s = true;
  wf_inventory_items :
    forall i, In i (inventory_items s) ->
      has_inventory (InventoryItem.inventory_id i) s = true
      /\ has_product (InventoryItem.product_id i) s = true;
  wf_sale_items :
    forall x, In x (sale_items s) ->
      has_sale (SaleItem.sale_id x) s = true
      /\ has_product (SaleItem.product_id x) s = true;
  wf_invoice_items :
    forall ii, In ii (invoice_items s) ->
      has_invoice (InvoiceItemRow.invoice_id ii) s = true;
  wf_product_ids : NoDup (map Product.id (products s));
  wf_product_names : NoDup (map Product.name (products s))
}.

(** The actions that write no stock of their own: every one but a save of
    the product form that edits a product or enters an initial stock. *)
Definition keeps_ledger (a : app_action) : bool :=
  match a with
  | act_save_product None productData =>
      Qeq_bool (pf_current_stock productData) 0
  | act_save_product (Some _) _ => false
  | _ => true
  end.







(** The stock of a product in the list a component loaded (0 when the list
    does not have it). *)
Definition loaded_stock (loaded : list Product.t) (pid : uuid) : Q :=
  match find_product pid loaded with
  | Some product => Product.current_stock product
  | None => 0%Q
  end.

Fixpoint number_inventory_items (i : uuid) (ns : list NewInventoryItem.t)
  : list InventoryItem.t :=
  match ns with
  | [] => []
  | n :: ns' => NewInventoryItem.row i n :: number_inventory_items (S i) ns'
  end.

(** Row [r] of [inventory_items] lists product [pid] in inventory
    [inventory_id], not counted yet, with the stock of the loaded list as the
    expected quantity. *)
Definition inventory_item_written (loaded : list Product.t) (inventory_id : uuid)
  (pid : uuid) (r : InventoryItem.t) : Prop :=
  InventoryItem.inventory_id r = inventory_id
  /\ InventoryItem.product_id r = pid
  /\ InventoryItem.expected_quantity r = loaded_stock loaded pid
  /\ InventoryItem.counted_quantity r = None.

(** The quantities of some movements to insert, summed. *)
Fixpoint total_quantity (ns : list NewStockMovement.t) : Q :=
  match ns with
  | [] => 0%Q
  | n :: ns' => (NewStockMovement.quantity n + total_quantity ns')%Q
  end.

(** The items of an inventory, as [InventoryModal] selects them. *)
Definition items_of_inventory (iid : uuid) (s : store) : list InventoryItem.t :=
  filter (fun it => Nat.eqb (InventoryItem.inventory_id it) iid)
    (inventory_items s).

(** An item with a count recorded. *)
Definition counted (countedQuantity : Q) (it : InventoryItem.t)
  : InventoryItem.t :=
  InventoryItem.mk (InventoryItem.id it) (InventoryItem.inventory_id it)
    (InventoryItem.product_id it) (InventoryItem.expected_quantity it)
    (Some countedQuantity).

(** ** Further scenarios *)

(** An invoice of three lines, two of them for the same product. *)
Definition three_line_invoice : ParsedInvoiceData :=
  mkParsed "FV/2024/003" "2024-02-10" "ABC Company Sp. z o.o."
    [InvoiceItem.mk "Mysz optyczna Logitech" 2%Q "szt" 23%Q 45%Q (1107 # 20)%Q
       90%Q (1107 # 10)%Q;
     laptop_line;
     InvoiceItem.mk "Mysz optyczna Logitech" 3%Q "szt" 23%Q 45%Q (1107 # 20)%Q
       135%Q (3321 # 20)%Q]
    2725%Q (67035 # 20)%Q.

(** A session that does not use the product form to set a stock: a product
    without stock, an invoice, a sale of what the invoice brought, an
    inventory of both products with one count, the deletion of the invoice
    and of the first product. *)
Definition sample_session : list app_action :=
  [act_save_product None (mkProductForm "Kabel" "m" 0%Q 0%Q);
   act_confirm_invoice laptop_invoice;
   act_create_sale
     (mkCreateSale "S/2024/002" "2024-03-01" "Jan Kowalski"
        [CreateSaleItem.mk 3 1%Q 3000%Q]);
   act_create_inventory
     [Product.mk 0 "Kabel" "m" 0%Q 0%Q (Some 0%Q);
      Product.mk 3 "Laptop Dell Inspiron 15" "szt" 0%Q 0%Q None]
     (mkCreateInventory "Inwentaryzacja" [0; 3]);
   act_start_inventory 8;
   act_update_count 9 4%Q;
   act_complete_inventory "2024-03-31" 8;
   act_delete_invoice (confirmed_invoice laptop_invoice 1);
   act_delete_product true 0].


(** The product of [store_with_draft_inventory], as the list shows it. *)
Definition listed_product : Product.t :=
  Product.mk 0 "A" "szt" 10%Q 0%Q (Some 0%Q).

(** An invoice in the editor: the fallback result, whose totals are 0. *)
Definition fallback_invoice : ParsedInvoiceData :=
  mkParsed "VAT" "2024-01-15" "ABC Company Sp. z o.o." [placeholder_item] 0%Q 0%Q.

(** An editing session on an invoice entered by hand. *)
Definition sample_editing : list InvoiceEditor.step :=
  [InvoiceEditor.step_header (InvoiceEditor.set_invoiceNumber "FV/2024/004");
   InvoiceEditor.step_add;
   InvoiceEditor.step_item 0 (InvoiceEditor.set_name "Papier A4");
   InvoiceEditor.step_item 0 (InvoiceEditor.set_quantity 10%Q);
   InvoiceEditor.step_item 0 (InvoiceEditor.set_net_price (25 # 2)%Q);
   InvoiceEditor.step_add;
   InvoiceEditor.step_remove 1].
(** ** Vocabulary of the statements on the parsers *)

(** The decimal digit of a number from 0 to 9, and the two digits of a number
    below 100. *)
Definition digit_char (n : Z) : ascii := ascii_of_nat (48 + Z.to_nat n).

Definition two_digits (n : Z) : string :=
  str [digit_char (n / 10); digit_char (n mod 10)].

(** [YYYY-MM-DD] for a year of four digits and the numbers of a month and a
    day. *)
Definition iso_date (year : string) (month day : Z) : string :=
  year ++ "-" ++ two_digits month ++ "-" ++ two_digits day.




(** ** The types of the columns

    PostgREST converts every value of a request to the type of its column
    before the statement runs; a value that is refused fails the statement. *)

Module Column.

Definition and_then {A B : Type} (r : result A) (f : A -> result B) : result B :=
  match r with
  | Ok a => f a
  | Err e => Err e
  end.

(** The rows of a request, each converted. *)
Fixpoint for_all {A : Type} (convert : A -> result A) (rows : list A)
  : result (list A) :=
  match rows with
  | [] => Ok []
  | row :: rows' =>
      and_then (convert row) (fun r =>
      and_then (for_all convert rows') (fun rs => Ok (r :: rs)))
  end.

(** The rounding of [numeric] to [scale] decimals: to the nearest, a tie
    away from zero. *)
Definition round (scale : nat) (q : Q) : Q :=
  let unit := (10 ^ Z.of_nat scale)%Z in
  let n := (Z.abs (Qnum q) * unit)%Z in
  let d := Z.pos (Qden q) in
  Qred (Qmake (Z.sgn (Qnum q) * ((2 * n + d) / (2 * d))) (Z.to_pos unit)).

(** [numeric(precision, scale)]: the value is rounded to the scale; a rounded
    value of more than [precision - scale] digits before the point is refused
    (22003). *)
Definition numeric (precision scale : nat) (q : Q) : result Q :=
  let r := round scale q in
  if Qle_bool (inject_Z (10 ^ Z.of_nat (precision - scale))) (Qabs r)
  then Err numeric_value_out_of_range
  else Ok r.

Definition accepted {A : Type} (r : result A) : bool :=
  match r with
  | Ok _ => true
  | Err _ => false
  end.

(** A [numeric] column that may be null. *)
Definition nullable (convert : Q -> result Q) (q : option Q)
  : result (option Q) :=
  match q with
  | Some v => and_then (convert v) (fun r => Ok (Some r))
  | None => Ok None
  end.

(** [integer]: the text of a number with a fraction, and the exponent form
    that JSON takes from 10^21 on, is no integer (22P02); an integer beyond 32
    bits is refused (22003). *)
Definition integer (q : Q) : result Q :=
  let r := Qred q in
  if negb (Pos.eqb (Qden r) 1)
     || Z.leb (10 ^ 21) (Z.abs (Qnum r))
  then Err invalid_text_representation
  else if Z.ltb (Qnum r) (- 2147483648) || Z.ltb 2147483647 (Qnum r)
  then Err numeric_value_out_of_range
  else Ok r.

(** The columns of [invoice_items] that a line of an invoice fills. *)
Definition invoice_item (item : InvoiceItem.t) : result InvoiceItem.t :=
  and_then (numeric 10 3 (InvoiceItem.quantity item)) (fun quantity =>
  and_then (integer (InvoiceItem.percentage item)) (fun percentage =>
  and_then (numeric 10 2 (InvoiceItem.net_price item)) (fun net_price =>
  and_then (numeric 10 2 (InvoiceItem.gross_price item)) (fun gross_price =>
  and_then (numeric 10 2 (InvoiceItem.total_net item)) (fun total_net =>
  and_then (numeric 10 2 (InvoiceItem.total_gross item)) (fun total_gross =>
  Ok (InvoiceItem.mk (InvoiceItem.name item) quantity (InvoiceItem.unit item)
        percentage net_price gross_price total_net total_gross))))))).


(** The columns of [stock_movements]. *)
Definition stock_movement (n : NewStockMovement.t) : result NewStockMovement.t :=
  and_then (numeric 10 3 (NewStockMovement.quantity n)) (fun quantity =>
  Ok (NewStockMovement.mk (NewStockMovement.product_id n)
        (NewStockMovement.movement_type n) quantity
        (NewStockMovement.reference_id n) (NewStockMovement.reference_type n)
        (NewStockMovement.notes n))).

(** The columns of [sale_items]. *)
Definition sale_item (n : NewSaleItem.t) : result NewSaleItem.t :=
  and_then (numeric 10 3 (NewSaleItem.quantity n)) (fun quantity =>
  and_then (numeric 10 2 (NewSaleItem.unit_price n)) (fun unit_price =>
  and_then (numeric 10 2 (NewSaleItem.total_price n)) (fun total_price =>
  Ok (NewSaleItem.mk (NewSaleItem.sale_id n) (NewSaleItem.product_id n)
        quantity unit_price total_price)))).


(** The columns of [inventory_items] that the creation fills. *)
Definition inventory_item (n : NewInventoryItem.t) : result NewInventoryItem.t :=
  and_then (numeric 10 3 (NewInventoryItem.expected_quantity n))
    (fun expected_quantity =>
  Ok (NewInventoryItem.mk (NewInventoryItem.inventory_id n)
        (NewInventoryItem.product_id n) expected_quantity)).

End Column.

(** ** The handlers on the values of a request

    The statements of the handlers with the conversion of the values first:
    a value that its column refuses fails the statement before any
    constraint is looked at.  When several values of a statement are refused,
    the error is the one of the first in the order of the columns. *)

Module Typed.

(** A statement whose values are converted first. *)
Definition converted {A B : Type} (values : result A) (statement : A -> db B)
  : db B :=
  fun s =>
    match values with
    | Ok a => statement a s
    | Err e => (Err e, s)
    end.

Definition insert_product (name unit : string) (current_stock min_stock_level : Q)
  (last_purchase_price : option Q) : db Product.t :=
  converted
    (Column.and_then (Column.numeric 10 3 current_stock) (fun stock =>
     Column.and_then (Column.numeric 10 3 min_stock_level) (fun level =>
     Column.and_then (Column.nullable (Column.numeric 10 2) last_purchase_price)
       (fun price => Ok (stock, level, price)))))
    (fun '(stock, level, price) => insert_product name unit stock level price).

Definition insert_invoice_items (rows : list (uuid * InvoiceItem.t)) : db unit :=
  converted
    (Column.for_all
       (fun row =>
          Column.and_then (Column.invoice_item (snd row))
            (fun item => Ok (fst row, item)))
       rows)
    insert_invoice_items.

Definition insert_stock_movements (ns : list NewStockMovement.t) : db unit :=
  converted (Column.for_all Column.stock_movement ns) insert_stock_movements.

Definition insert_sale_items (ns : list NewSaleItem.t) : db unit :=
  converted (Column.for_all Column.sale_item ns) insert_sale_items.

Definition insert_inventory_items (ns : list NewInventoryItem.t) : db unit :=
  converted (Column.for_all Column.inventory_item ns) insert_inventory_items.

(** [counted_quantity numeric(10,3)] and the generated [difference
    numeric(10,3)] of the rows that are updated. *)
Definition update_counted_quantity (item_id : uuid) (counted : Q) : db unit :=
  fun s =>
    match Column.numeric 10 3 counted with
    | Ok stored =>
        match
          Column.for_all
            (fun d => Column.numeric 10 3 d)
            (map (fun i => (stored - InventoryItem.expected_quantity i)%Q)
               (filter (fun i => Nat.eqb (InventoryItem.id i) item_id)
                  (inventory_items s)))
        with
        | Ok _ => update_counted_quantity item_id stored s
        | Err e => (Err e, s)
        end
    | Err e => (Err e, s)
    end.

Section Dates.

(** The input function of the type [date]: the date as it is stored and read
    back, or the error for a string that is no date (22007) or no day of the
    calendar (22008). *)
Variable date_in : string -> result string.

Definition insert_invoice (filename invoice_number date vendor : string)
  (total_net total_gross : Q) : db Invoice.t :=
  converted
    (Column.and_then (date_in date) (fun stored_date =>
     Column.and_then (Column.numeric 10 2 total_net) (fun net =>
     Column.and_then (Column.numeric 10 2 total_gross) (fun gross =>
     Ok (stored_date, net, gross)))))
    (fun '(stored_date, net, gross) =>
       insert_invoice filename invoice_number stored_date vendor net gross).

Definition insert_sale (sale_number date customer : string) (total_amount : Q)
  : db Sale.t :=
  converted
    (Column.and_then (date_in date) (fun stored_date =>
     Column.and_then (Column.numeric 10 2 total_amount) (fun amount =>
     Ok (stored_date, amount))))
    (fun '(stored_date, amount) =>
       insert_sale sale_number stored_date customer amount).

Definition lookup_or_create_product (item : InvoiceItem.t) : db uuid :=
  lookup <- select_product_by_name (InvoiceItem.name item) ;;
  match lookup with
  | Ok existingProduct => ret (Product.id existingProduct)
  | Err PGRST116 =>
      newProduct <-
        insert_product (InvoiceItem.name item) (InvoiceItem.unit item)
          0%Q 0%Q (Some (InvoiceItem.net_price item)) ;;
      ret (Product.id newProduct)
  | Err productError => throw productError
  end.

Definition confirm_item (invoice : Invoice.t) (parsedData : ParsedInvoiceData)
  (item : InvoiceItem.t) : db unit :=
  productId <- lookup_or_create_product item ;;
  insert_stock_movements [purchase_movement invoice parsedData productId item].

Definition save_invoice (parsedData : ParsedInvoiceData) : db Invoice.t :=
  invoice <-
    insert_invoice "uploaded.pdf" (invoiceNumber parsedData) (date parsedData)
      (vendor parsedData) (totalNet parsedData) (totalGross parsedData) ;;
  insert_invoice_items
    (map (fun item => (Invoice.id invoice, item)) (items parsedData)) ;;;
  ret invoice.

Definition handleConfirmInvoice (parsedData : ParsedInvoiceData) : db unit :=
  invoice <- save_invoice parsedData ;;
  for_each (items parsedData) (confirm_item invoice parsedData).

(** The sum and the product of two numbers as JavaScript computes them (the
    doubles nearest to the sum and to the product): the total price of an
    item, and the amount of the sale, are rounded to two decimals from
    these. *)
Variable plus times : Q -> Q -> Q.

Definition handleCreateSale (saleData : CreateSaleData) : db unit :=
  let totalAmount :=
    fold_left
      (fun sum item =>
         plus sum
           (times (CreateSaleItem.quantity item) (CreateSaleItem.unit_price item)))
      (cs_items saleData) 0%Q in
  sale_row <-
    insert_sale (cs_sale_number saleData) (cs_date saleData)
      (cs_customer saleData) totalAmount ;;
  let saleItems :=
    map (fun item =>
           NewSaleItem.mk (Sale.id sale_row) (CreateSaleItem.product_id item)
             (CreateSaleItem.quantity item) (CreateSaleItem.unit_price item)
             (times (CreateSaleItem.quantity item)
                (CreateSaleItem.unit_price item)))
      (cs_items saleData) in
  insert_sale_items saleItems ;;;
  let stockMovements :=
    map (fun item =>
           NewStockMovement.mk (NewSaleItem.product_id item) sale
             (- NewSaleItem.quantity item)%Q
             (Some (NewSaleItem.sale_id item)) (Some ref_sale_item)
             ("Sprzedaż " ++ cs_sale_number saleData))
      saleItems in
  insert_stock_movements stockMovements.

(** The values of an invoice as its columns store them. *)
Definition stored_invoice (parsedData : ParsedInvoiceData)
  : result ParsedInvoiceData :=
  Column.and_then (date_in (date parsedData)) (fun stored_date =>
  Column.and_then (Column.numeric 10 2 (totalNet parsedData)) (fun net =>
  Column.and_then (Column.numeric 10 2 (totalGross parsedData)) (fun gross =>
  Column.and_then (Column.for_all Column.invoice_item (items parsedData))
    (fun stored_items =>
  Ok (mkParsed (invoiceNumber parsedData) stored_date (vendor parsedData)
        stored_items net gross))))).

End Dates.

Definition handleCreateInventory (products : list Product.t)
  (inventoryData : CreateInventoryData) : db unit :=
  inventory_row <- insert_inventory (ci_name inventoryData) draft ;;
  let inventoryItems :=
    map (fun productId =>
           NewInventoryItem.mk (Inventory.id inventory_row) productId
             (match find_product productId products with
              | Some product => Product.current_stock product
              | None => 0%Q
              end))
      (ci_product_ids inventoryData) in
  insert_inventory_items inventoryItems.

Definition handleCompleteInventory (now : string) (inventoryId : uuid)
  : db unit :=
  update_inventory inventoryId completed (Some now) ;;;
  items <- select_items_with_difference inventoryId ;;
  let stockMovements :=
    map (inventory_movement inventoryId)
      (filter (fun item => negb (Qeq_bool (snd item) 0)) items) in
  if Nat.ltb 0 (List.length stockMovements)
  then insert_stock_movements stockMovements
  else ret tt.

Definition handleUpdateCount (itemId : uuid) (countedQuantity : Q) : db unit :=
  update_counted_quantity itemId countedQuantity.

End Typed.

(** A date input for the scenarios: it takes a day of the calendar in the ISO
    format as it is and refuses every other string.  (The input function of
    the type [date] takes more forms than this one.) *)
Definition iso_date_in (s : string) : result string :=
  match js_match false iso_date_pattern s with
  | Some _ =>
      if date_round_trips (parseInt (substring 0 4 s))
           (parseInt (substring 5 2 s)) (parseInt (substring 8 2 s))
      then Ok s
      else Err datetime_field_overflow
  | None => Err invalid_datetime_format
  end.

(** ** Vocabulary of the statements on requests *)






(** ** Scenarios of requests *)



(** A line of 1.2345 m of cable, and its invoice. *)
Definition cable_line : InvoiceItem.t :=
  InvoiceItem.mk "Kabel YDY 3x2,5" (2469 # 2000)%Q "m" 23%Q 4%Q (123 # 25)%Q
    (2469 # 500)%Q (303687 # 50000)%Q.

Definition cable_invoice : ParsedInvoiceData :=
  mkParsed "FV/2024/002" "2024-01-16" "ABC Company Sp. z o.o." [cable_line]
    (2469 # 500)%Q (303687 # 50000)%Q.


(** The one-line invoice with a percentage of 8.5. *)
Definition invoice_with_fraction_of_percent : ParsedInvoiceData :=
  mkParsed "FV/2024/005" "2024-01-18" "ABC Company Sp. z o.o."
    [InvoiceItem.mk "Laptop Dell Inspiron 15" 1%Q "szt" (17 # 2)%Q 2500%Q
       (5425 # 2)%Q 2500%Q (5425 # 2)%Q]
    2500%Q (5425 # 2)%Q.

(** * Proofs *)

Ltac store_simpl :=
  unfold bump_uuid, set_invoices, set_invoice_items, set_products,
    set_stock_movements, set_inventories, set_inventory_items, set_sales,
    set_sale_items in *;
  cbn [next_uuid products stock_movements invoices invoice_items
       inventories inventory_items sales sale_items fst snd] in *.

Ltac div_lia := Z.div_mod_to_equations; lia.

Ltac month_cases H :=
  destruct H as [->|[->|[->|[->|[->|[->|[->|[->|[->|[->|[->| ->]]]]]]]]]]].

Ltac table_cases :=
  repeat match goal with
         | |- context [if Z.ltb ?a ?b then _ else _] =>
             destruct (Z.ltb_spec a b); try lia
         end.

(** ** The stock ledger *)

Lemma find_product_map (f : Product.t -> Product.t) pid ps :
  (forall p, Product.id (f p) = Product.id p) ->
  find_product pid (map f ps) = option_map f (find_product pid ps).
Proof.
  intros Hid. unfold find_product.
  induction ps as [|p ps IH]; simpl; [reflexivity|].
  rewrite Hid. destruct (Nat.eqb (Product.id p) pid); [reflexivity|exact IH].
Qed.

Lemma update_product_stock_stock op pid ps c :
  stock_in pid ps = Some c ->
  exists c', stock_in pid (update_product_stock op ps) = Some c'
             /\ (c' == c + stock_delta op pid)%Q.
Proof.
  unfold stock_in. intros H.
  destruct (find_product pid ps) as [p|] eqn:Hf; [|discriminate].
  simpl in H. injection H as <-.
  assert (Hp : Product.id p = pid).
  { unfold find_product in Hf. apply find_some in Hf.
    destruct Hf as [_ Hf]. now apply Nat.eqb_eq in Hf. }
  destruct op as [NEW|OLD|OLD NEW]; simpl;
    (rewrite find_product_map;
     [|intros q; destruct (Nat.eqb _ _); reflexivity]);
    rewrite Hf; simpl; rewrite Hp, Nat.eqb_sym;
    destruct (Nat.eqb _ pid); simpl; eexists; (split; [reflexivity|]); ring.
Qed.

Lemma update_product_price_stock NEW iis pid ps :
  stock_in pid (update_product_price_from_purchase NEW iis ps) = stock_in pid ps.
Proof.
  unfold update_product_price_from_purchase, stock_in.
  destruct (_ && _); [|reflexivity].
  rewrite find_product_map.
  - destruct (find_product pid ps) as [p|]; [|reflexivity].
    simpl. destruct (Nat.eqb _ _); reflexivity.
  - intros q; destruct (Nat.eqb _ _); reflexivity.
Qed.

Lemma ledger_sum_app pid ms1 ms2 :
  (ledger_sum pid (ms1 ++ ms2) == ledger_sum pid ms1 + ledger_sum pid ms2)%Q.
Proof.
  induction ms1 as [|m ms1 IH]; simpl.
  - ring.
  - destruct (Nat.eqb _ _); rewrite IH; ring.
Qed.

Lemma insert_row_offset n s s' pid c :
  insert_stock_movement_row n s = Ok s' ->
  stock_of pid s = Some c ->
  exists c', stock_of pid s' = Some c'
    /\ (c' - ledger_sum pid (stock_movements s')
        == c - ledger_sum pid (stock_movements s))%Q.
Proof.
  unfold insert_stock_movement_row.
  destruct (has_product _ _); [|discriminate].
  intros [= <-] Hc. unfold stock_of in *. simpl.
  fold (stock_in pid (products s)) in Hc.
  set (NEW := NewStockMovement.row (next_uuid s) n).
  set (ps1 := update_product_price_from_purchase NEW (invoice_items s) (products s)).
  assert (H1 : stock_in pid ps1 = Some c)
    by (unfold ps1; now rewrite update_product_price_stock).
  destruct (update_product_stock_stock (INSERT NEW) pid ps1 c H1) as (c' & Hc' & Heq).
  exists c'. split; [exact Hc'|].
  rewrite ledger_sum_app, Heq. simpl.
  destruct (Nat.eqb _ _); ring.
Qed.

Lemma delete_rows_offset mid pid ms :
  forall ps c,
    stock_in pid ps = Some c ->
    exists c', stock_in pid (snd (delete_movement_rows mid ms ps)) = Some c'
      /\ (c' - ledger_sum pid (fst (delete_movement_rows mid ms ps))
          == c - ledger_sum pid ms)%Q.
Proof.
  induction ms as [|m ms IH]; intros ps c Hc; simpl.
  - exists c. split; [exact Hc|reflexivity].
  - destruct (Nat.eqb (StockMovement.id m) mid).
    + destruct (update_product_stock_stock (DELETE m) pid ps c Hc) as (c1 & Hc1 & He1).
      destruct (IH _ _ Hc1) as (c' & Hc' & He').
      exists c'. split; [exact Hc'|].
      rewrite He', He1. simpl. destruct (Nat.eqb _ _); ring.
    + destruct (IH _ _ Hc) as (c' & Hc' & He').
      destruct (delete_movement_rows mid ms ps) as [ms'' ps'] eqn:Hd. simpl in *.
      exists c'. split; [exact Hc'|].
      destruct (Nat.eqb _ _); [|exact He'].
      setoid_replace (c' - (StockMovement.quantity m + ledger_sum pid ms''))%Q
        with (c' - ledger_sum pid ms'' - StockMovement.quantity m)%Q by ring.
      rewrite He'. ring.
Qed.

Lemma update_rows_offset mid sq pid ms :
  forall ps c,
    stock_in pid ps = Some c ->
    exists c', stock_in pid (snd (update_movement_rows mid None sq ms ps)) = Some c'
      /\ (c' - ledger_sum pid (fst (update_movement_rows mid None sq ms ps))
          == c - ledger_sum pid ms)%Q.
Proof.
  induction ms as [|m ms IH]; intros ps c Hc.
  - exists c. split; [exact Hc|reflexivity].
  - cbn [update_movement_rows ledger_sum].
    assert (Hpid : StockMovement.product_id (set_clause None sq m)
                   = StockMovement.product_id m) by reflexivity.
    set (NEW := set_clause None sq m) in *.
    destruct (Nat.eqb (StockMovement.id m) mid).
    + destruct (update_product_stock_stock (UPDATE m NEW) pid ps c Hc)
        as (c1 & Hc1 & He1).
      destruct (IH _ _ Hc1) as (c' & Hc' & He').
      destruct (update_movement_rows mid None sq ms _) as [ms'' ps'].
      cbn [fst snd] in *.
      exists c'. split; [exact Hc'|].
      cbn [ledger_sum stock_delta] in *. rewrite Hpid in *.
      destruct (Nat.eqb _ _).
      * setoid_replace (c' - (StockMovement.quantity NEW + ledger_sum pid ms''))%Q
          with (c' - ledger_sum pid ms'' - StockMovement.quantity NEW)%Q by ring.
        rewrite He', He1. ring.
      * rewrite He', He1. ring.
    + destruct (IH _ _ Hc) as (c' & Hc' & He').
      destruct (update_movement_rows mid None sq ms ps) as [ms'' ps'].
      cbn [fst snd] in *.
      exists c'. split; [exact Hc'|].
      cbn [ledger_sum].
      destruct (Nat.eqb _ _); [|exact He'].
      setoid_replace (c' - (StockMovement.quantity m + ledger_sum pid ms''))%Q
        with (c' - ledger_sum pid ms'' - StockMovement.quantity m)%Q by ring.
      rewrite He'. ring.
Qed.

Lemma run_ledger_op_offset o s pid c :
  assigns_product_id o = false ->
  stock_of pid s = Some c ->
  exists c', stock_of pid (snd (run_ledger_op o s)) = Some c'
    /\ (c' - ledger_sum pid (stock_movements (snd (run_ledger_op o s)))
        == c - ledger_sum pid (stock_movements s))%Q.
Proof.
  intros Ho Hc.
  destruct o as [n|mid sp sq|mid]; cbn [run_ledger_op].
  - unfold insert_stock_movements, statement.
    cbn [insert_stock_movement_rows].
    destruct (insert_stock_movement_row n s) as [s'|e] eqn:Hi; cbn [snd].
    + eapply insert_row_offset; eassumption.
    + exists c. split; [exact Hc|reflexivity].
  - destruct sp as [p|]; [discriminate|].
    unfold update_stock_movement, statement.
    destruct (update_rows_offset mid sq pid (stock_movements s) (products s) c Hc)
      as (c' & Hc' & He').
    destruct (update_movement_rows mid None sq (stock_movements s) (products s))
      as [ms ps]. cbn [fst snd] in *.
    exists c'. split; [exact Hc'|exact He'].
  - unfold delete_stock_movement, statement.
    destruct (delete_rows_offset mid pid (stock_movements s) (products s) c Hc)
      as (c' & Hc' & He').
    destruct (delete_movement_rows mid (stock_movements s) (products s))
      as [ms ps]. cbn [fst snd] in *.
    exists c'. split; [exact Hc'|exact He'].
Qed.

(** C1, as amended.  Every insert, delete and update that does not assign
    [product_id] changes the stock of a product by exactly what it changes
    the sum of the product's movements by: an insert of [q] adds [q], a
    delete of [q] subtracts [q], an update from [q_old] to [q_new] adds
    [q_new - q_old].  So after any sequence of such operations the stock
    minus the sum of the movements is what it was before, and the stock
    equals the sum whenever it did before (as for a product created with a
    stock of 0 and no movement). *)
Theorem ledger_offset_preserved os :
  forall s pid c,
    forallb (fun o => negb (assigns_product_id o)) os = true ->
    stock_of pid s = Some c ->
    exists c', stock_of pid (run_ledger_ops os s) = Some c'
      /\ (c' - ledger_sum pid (stock_movements (run_ledger_ops os s))
          == c - ledger_sum pid (stock_movements s))%Q
      /\ ((c == ledger_sum pid (stock_movements s))%Q ->
          (c' == ledger_sum pid (stock_movements (run_ledger_ops os s)))%Q).
Proof.
  induction os as [|o os IH]; intros s pid c Hos Hc; cbn [run_ledger_ops].
  - exists c. split; [exact Hc|]. split; [reflexivity|tauto].
  - cbn [forallb] in Hos. apply andb_true_iff in Hos as [Ho Hos].
    apply negb_true_iff in Ho.
    destruct (run_ledger_op_offset o s pid c Ho Hc) as (c1 & Hc1 & He1).
    destruct (IH _ pid c1 Hos Hc1) as (c' & Hc' & He' & _).
    exists c'. split; [exact Hc'|].
    assert (He : (c' - ledger_sum pid
                         (stock_movements (run_ledger_ops os (snd (run_ledger_op o s))))
                  == c - ledger_sum pid (stock_movements s))%Q)
      by (now rewrite He', He1).
    split; [exact He|].
    intros Hinv. rewrite Hinv in He.
    setoid_replace (ledger_sum pid (stock_movements s)
                    - ledger_sum pid (stock_movements s))%Q with 0%Q in He by ring.
    setoid_replace c' with
      (c' - ledger_sum pid
              (stock_movements (run_ledger_ops os (snd (run_ledger_op o s))))
       + ledger_sum pid
           (stock_movements (run_ledger_ops os (snd (run_ledger_op o s)))))%Q
      at 1 by ring.
    rewrite He. ring.
Qed.

Lemma existsb_map_id (f : Product.t -> Product.t) pid ps :
  (forall p, Product.id (f p) = Product.id p) ->
  existsb (fun p => Nat.eqb (Product.id p) pid) (map f ps)
  = existsb (fun p => Nat.eqb (Product.id p) pid) ps.
Proof.
  intros Hid. induction ps as [|p ps IH]; simpl; [reflexivity|].
  now rewrite Hid, IH.
Qed.

Lemma update_product_stock_id op :
  forall ps pid,
    existsb (fun p => Nat.eqb (Product.id p) pid) (update_product_stock op ps)
    = existsb (fun p => Nat.eqb (Product.id p) pid) ps.
Proof.
  intros ps pid.
  destruct op; simpl; apply existsb_map_id; intros q;
    destruct (Nat.eqb _ _); reflexivity.
Qed.

Lemma update_product_price_id NEW iis ps pid :
  existsb (fun p => Nat.eqb (Product.id p) pid)
    (update_product_price_from_purchase NEW iis ps)
  = existsb (fun p => Nat.eqb (Product.id p) pid) ps.
Proof.
  unfold update_product_price_from_purchase.
  destruct (_ && _); [|reflexivity].
  apply existsb_map_id; intros q; destruct (Nat.eqb _ _); reflexivity.
Qed.

Lemma frame_refl s : frame s s.
Proof. constructor; reflexivity. Qed.

Lemma frame_trans s1 s2 s3 : frame s1 s2 -> frame s2 s3 -> frame s1 s3.
Proof.
  intros [] []. constructor; try congruence.
Qed.

Lemma insert_row_spec n s :
  has_product (NewStockMovement.product_id n) s = true ->
  exists s',
    insert_stock_movement_row n s = Ok s'
    /\ stock_movements s' = stock_movements s ++ [NewStockMovement.row (next_uuid s) n]
    /\ next_uuid s' = S (next_uuid s)
    /\ frame s s'.
Proof.
  intros Hp. unfold insert_stock_movement_row. rewrite Hp.
  eexists. split; [reflexivity|]. split; [reflexivity|]. split; [reflexivity|].
  constructor; try reflexivity.
  intros pid. unfold has_product.
  cbn [products set_products bump_uuid set_stock_movements invoice_items].
  now rewrite update_product_stock_id, update_product_price_id.
Qed.

Lemma insert_rows_spec ns :
  forall s,
    forallb (fun n => has_product (NewStockMovement.product_id n) s) ns = true ->
    exists s' rows,
      insert_stock_movement_rows ns s = Ok s'
      /\ stock_movements s' = stock_movements s ++ rows
      /\ map strip rows = ns
      /\ frame s s'
      /\ (forall pid c, stock_of pid s = Some c ->
            exists c', stock_of pid s' = Some c' /\ (c' == c + new_sum pid ns)%Q).
Proof.
  induction ns as [|n ns IH]; intros s Hall.
  - exists s, []. cbn. split; [reflexivity|]. split; [now rewrite app_nil_r|].
    split; [reflexivity|]. split; [apply frame_refl|].
    intros pid c Hc. exists c. split; [exact Hc|ring].
  - cbn [forallb] in Hall. apply andb_true_iff in Hall as [Hn Hall].
    destruct (insert_row_spec n s Hn) as (s1 & Hrow & Hms1 & Hid1 & Hf1).
    assert (Hall1 : forallb (fun n0 => has_product (NewStockMovement.product_id n0) s1) ns = true).
    { rewrite forallb_forall in *. intros x Hx.
      rewrite (frame_has_product _ _ Hf1). now apply Hall. }
    destruct (IH s1 Hall1) as (s' & rows & Hrows & Hms & Hstrip & Hf & Hstock).
    exists s', (NewStockMovement.row (next_uuid s) n :: rows).
    cbn [insert_stock_movement_rows]. rewrite Hrow.
    split; [exact Hrows|].
    split; [rewrite Hms, Hms1, <- app_assoc; reflexivity|].
    split; [cbn [map]; rewrite Hstrip; destruct n; reflexivity|].
    split; [eapply frame_trans; eassumption|].
    intros pid c Hc.
    destruct (insert_row_offset n s s1 pid c Hrow Hc) as (c1 & Hc1 & He1).
    destruct (Hstock pid c1 Hc1) as (c' & Hc' & He').
    exists c'. split; [exact Hc'|].
    rewrite He'. rewrite Hms1, ledger_sum_app in He1. cbn in He1. cbn [new_sum].
    destruct (Nat.eqb _ _).
    + setoid_replace c1 with (c1 - (ledger_sum pid (stock_movements s) + (NewStockMovement.quantity n + 0)) + (ledger_sum pid (stock_movements s) + (NewStockMovement.quantity n + 0)))%Q by ring.
      rewrite He1. ring.
    + setoid_replace c1 with (c1 - (ledger_sum pid (stock_movements s) + 0) + (ledger_sum pid (stock_movements s) + 0))%Q by ring.
      rewrite He1. ring.
Qed.

(** ** Inventory completion *)




Lemma find_inventory_map (f : Inventory.t -> Inventory.t) iid invs :
  (forall i, Inventory.id (f i) = Inventory.id i) ->
  find (fun i => Nat.eqb (Inventory.id i) iid) (map f invs)
  = option_map f (find (fun i => Nat.eqb (Inventory.id i) iid) invs).
Proof.
  intros Hid. induction invs as [|i invs IH]; simpl; [reflexivity|].
  rewrite Hid. destruct (Nat.eqb (Inventory.id i) iid); [reflexivity|exact IH].
Qed.

(** The status of every inventory after [update_inventory iid st t]. *)
Lemma update_inventory_status iid st t s j :
  status_of j (snd (update_inventory iid st t s))
  = option_map (fun old => if Nat.eqb j iid then st else old) (status_of j s).
Proof.
  unfold update_inventory, statement, status_of, find_inventory.
  cbn [snd inventories set_inventories].
  rewrite find_inventory_map
    by (intros i; destruct (Nat.eqb _ _); reflexivity).
  destruct (find _ (inventories s)) as [i|] eqn:Hf; [|reflexivity].
  apply find_some in Hf. destruct Hf as [_ Hf]. apply Nat.eqb_eq in Hf.
  cbn [option_map]. rewrite Hf.
  destruct (Nat.eqb j iid); reflexivity.
Qed.

Lemma insert_stock_movements_run ns s :
  insert_stock_movements ns s
  = match insert_stock_movement_rows ns s with
    | Ok s' => (Ok tt, s')
    | Err e => (Err e, s)
    end.
Proof.
  unfold insert_stock_movements, statement.
  destruct (insert_stock_movement_rows ns s); reflexivity.
Qed.

Lemma handleCompleteInventory_run now iid s :
  handleCompleteInventory now iid s
  = let s1 := snd (update_inventory iid completed (Some now) s) in
    match insert_stock_movement_rows
            (completion_movements iid (inventory_items s)) s1 with
    | Ok s' => (Ok tt, s')
    | Err e => (Err e, s1)
    end.
Proof.
  unfold handleCompleteInventory, bind, select_items_with_difference.
  unfold update_inventory at 1, statement at 1. cbn [snd fst].
  cbn [inventory_items set_inventories].
  fold (completion_movements iid (inventory_items s)).
  destruct (completion_movements iid (inventory_items s)) as [|n ns] eqn:Hns.
  - reflexivity.
  - cbn [List.length Nat.ltb Nat.leb]. rewrite insert_stock_movements_run.
    reflexivity.
Qed.


(** ** Invoice confirmation *)

Lemma filter_existsb_false {A} (f : A -> bool) l :
  existsb f l = false -> filter f l = [].
Proof.
  induction l as [|x l IH]; simpl; [reflexivity|].
  destruct (f x); [discriminate|]. exact IH.
Qed.

Lemma existsb_app_last {A} (f : A -> bool) l x :
  existsb f (l ++ [x]) = existsb f l || f x.
Proof. rewrite existsb_app. simpl. now rewrite orb_false_r. Qed.

Lemma lookup_or_create_unseen item s :
  existsb (fun p => String.eqb (Product.name p) (InvoiceItem.name item))
    (products s) = false ->
  lookup_or_create_product item s
  = (Ok (next_uuid s),
     bump_uuid (set_products (products s ++ [created_product item (next_uuid s)]) s)).
Proof.
  intros Hname.
  unfold lookup_or_create_product, bind, select_product_by_name.
  rewrite (filter_existsb_false _ _ Hname). cbn [single].
  unfold insert_product, statement. rewrite Hname. reflexivity.
Qed.

Lemma save_invoice_single parsedData item ps ms invs iis ivs ivis sls slis n :
  items parsedData = [item] ->
  existsb (fun i => String.eqb (Invoice.invoice_number i) (invoiceNumber parsedData))
    invs = false ->
  save_invoice parsedData (mkStore ps ms invs iis ivs ivis sls slis n)
  = (Ok (confirmed_invoice parsedData n),
     mkStore ps ms (invs ++ [confirmed_invoice parsedData n])
       (iis ++ [InvoiceItemRow.mk (1 + n) n item]) ivs ivis sls slis (2 + n)).
Proof.
  intros Hitems Hnum.
  unfold save_invoice, bind.
  unfold insert_invoice, statement. cbn [invoices]. rewrite Hnum. store_simpl.
  rewrite Hitems. cbn [map].
  unfold insert_invoice_items, statement. cbn [insert_invoice_item_rows].
  unfold has_invoice. store_simpl.
  rewrite existsb_app_last. cbn [Invoice.id]. rewrite Nat.eqb_refl, orb_true_r.
  reflexivity.
Qed.

Lemma insert_purchase_created parsedData inv item ps ms invs iis ivs ivis sls slis n :
  let NEW := NewStockMovement.row (S n)
               (purchase_movement inv parsedData n item) in
  insert_stock_movements [purchase_movement inv parsedData n item]
    (mkStore (ps ++ [created_product item n]) ms invs iis ivs ivis sls slis (S n))
  = (Ok tt,
     mkStore
       (update_product_stock (INSERT NEW)
          (update_product_price_from_purchase NEW iis
             (ps ++ [created_product item n])))
       (ms ++ [NEW]) invs iis ivs ivis sls slis (S (S n))).
Proof.
  cbn zeta.
  unfold insert_stock_movements, statement. cbn [insert_stock_movement_rows].
  unfold insert_stock_movement_row, has_product. store_simpl.
  cbn [NewStockMovement.product_id purchase_movement].
  rewrite existsb_app_last. cbn [Product.id created_product].
  rewrite Nat.eqb_refl, orb_true_r. reflexivity.
Qed.

Lemma confirm_single_new_item parsedData item ps ms invs iis ivs ivis sls slis n :
  items parsedData = [item] ->
  existsb (fun i => String.eqb (Invoice.invoice_number i) (invoiceNumber parsedData))
    invs = false ->
  existsb (fun p => String.eqb (Product.name p) (InvoiceItem.name item)) ps = false ->
  let inv := confirmed_invoice parsedData n in
  let NEW := NewStockMovement.row (3 + n)
               (purchase_movement inv parsedData (2 + n) item) in
  let iis' := iis ++ [InvoiceItemRow.mk (1 + n) n item] in
  handleConfirmInvoice parsedData (mkStore ps ms invs iis ivs ivis sls slis n)
  = (Ok tt,
     mkStore
       (update_product_stock (INSERT NEW)
          (update_product_price_from_purchase NEW iis'
             (ps ++ [created_product item (2 + n)])))
       (ms ++ [NEW]) (invs ++ [inv]) iis' ivs ivis sls slis (4 + n)).
Proof.
  intros Hitems Hnum Hname. cbn zeta.
  unfold handleConfirmInvoice, bind.
  rewrite save_invoice_single with (item := item) by assumption.
  rewrite Hitems. cbn [for_each]. unfold bind at 1. unfold confirm_item, bind.
  rewrite lookup_or_create_unseen by exact Hname. store_simpl.
  unfold ret. cbn [Product.id]. rewrite insert_purchase_created. reflexivity.
Qed.

Lemma find_name_map (f : Product.t -> Product.t) name ps :
  (forall p, Product.name (f p) = Product.name p) ->
  find (fun p => String.eqb (Product.name p) name) (map f ps)
  = option_map f (find (fun p => String.eqb (Product.name p) name) ps).
Proof.
  intros Hn. induction ps as [|p ps IH]; simpl; [reflexivity|].
  rewrite Hn. destruct (String.eqb (Product.name p) name); [reflexivity|exact IH].
Qed.

Lemma find_unseen_last name ps (p : Product.t) :
  existsb (fun q => String.eqb (Product.name q) name) ps = false ->
  Product.name p = name ->
  find (fun q => String.eqb (Product.name q) name) (ps ++ [p]) = Some p.
Proof.
  intros Hps Hp. induction ps as [|q ps IH]; simpl.
  - now rewrite Hp, String.eqb_refl.
  - simpl in Hps. apply orb_false_iff in Hps as [Hq Hps].
    rewrite Hq. now apply IH.
Qed.

Lemma update_product_stock_name op name ps :
  find (fun p => String.eqb (Product.name p) name) (update_product_stock op ps)
  = option_map
      (fun p =>
         match find_product (Product.id p) (update_product_stock op [p]) with
         | Some p' => p'
         | None => p
         end)
      (find (fun p => String.eqb (Product.name p) name) ps).
Proof.
  destruct op; cbn [update_product_stock]; rewrite find_name_map;
    try (intros q; destruct (Nat.eqb _ _); reflexivity);
    destruct (find _ ps) as [p|]; cbn [option_map]; try reflexivity;
    f_equal; unfold find_product; cbn [map find];
    destruct (Nat.eqb (Product.id p) _) eqn:E; cbn [Product.set_current_stock Product.id];
    now rewrite Nat.eqb_refl.
Qed.

(** The created product after the triggers of its purchase movement. *)
Lemma triggers_on_created parsedData inv item ps iis n k :
  existsb (fun p => String.eqb (Product.name p) (InvoiceItem.name item)) ps = false ->
  let NEW := NewStockMovement.row k (purchase_movement inv parsedData n item) in
  find (fun p => String.eqb (Product.name p) (InvoiceItem.name item))
    (update_product_stock (INSERT NEW)
       (update_product_price_from_purchase NEW iis
          (ps ++ [created_product item n])))
  = Some (Product.mk n (InvoiceItem.name item) (InvoiceItem.unit item)
            (0 + InvoiceItem.quantity item)%Q 0%Q
            (select_net_price (Some (Invoice.id inv)) iis)).
Proof.
  intros Hname. cbn zeta.
  rewrite update_product_stock_name.
  unfold update_product_price_from_purchase.
  cbn [NewStockMovement.row purchase_movement StockMovement.movement_type
       StockMovement.reference_type StockMovement.product_id
       StockMovement.reference_id MovementType_eqb ReferenceType_eqb andb
       NewStockMovement.movement_type NewStockMovement.reference_type
       NewStockMovement.product_id NewStockMovement.reference_id
       NewStockMovement.quantity].
  rewrite find_name_map
    by (intros q; destruct (Nat.eqb _ _); reflexivity).
  rewrite (find_unseen_last _ _ _ Hname) by reflexivity.
  cbn [option_map created_product Product.id].
  rewrite Nat.eqb_refl.
  cbn [Product.set_last_purchase_price Product.id Product.name Product.unit
       Product.current_stock Product.min_stock_level Product.last_purchase_price
       update_product_stock map StockMovement.product_id StockMovement.quantity].
  rewrite Nat.eqb_refl. unfold find_product. cbn [find Product.set_current_stock Product.id
       Product.name Product.unit Product.current_stock Product.min_stock_level
       Product.last_purchase_price].
  now rewrite Nat.eqb_refl.
Qed.

(** On stored values: confirming an invoice of a single line whose product
    name is not in [products] yet (and whose number is not in [invoices]).
    After the invoice and its item are stored, the product is created with a
    stock of 0, a minimum level of 0, the unit of the line and the net price
    of the line as its last purchase price, and no movement is written yet;
    then the purchase movement is inserted, the confirmation succeeds, and
    the product of that name has the quantity of the line as its stock. *)
Lemma confirm_single_line_of_stored_values parsedData item s :
  items parsedData = [item] ->
  existsb (fun i => String.eqb (Invoice.invoice_number i) (invoiceNumber parsedData))
    (invoices s) = false ->
  existsb (fun p => String.eqb (Product.name p) (InvoiceItem.name item))
    (products s) = false ->
  exists invoice s1 pid s2 s',
    save_invoice parsedData s = (Ok invoice, s1)
    /\ lookup_or_create_product item s1 = (Ok pid, s2)
    /\ products s2
       = products s
         ++ [Product.mk pid (InvoiceItem.name item) (InvoiceItem.unit item)
               0%Q 0%Q (Some (InvoiceItem.net_price item))]
    /\ stock_movements s2 = stock_movements s
    /\ insert_stock_movements [purchase_movement invoice parsedData pid item] s2
       = (Ok tt, s')
    /\ handleConfirmInvoice parsedData s = (Ok tt, s')
    /\ exists p,
         find (fun p => String.eqb (Product.name p) (InvoiceItem.name item))
           (products s') = Some p
         /\ Product.id p = pid
         /\ Product.unit p = InvoiceItem.unit item
         /\ Product.min_stock_level p = 0%Q
         /\ (Product.current_stock p == InvoiceItem.quantity item)%Q.
Proof.
  intros Hitems Hnum Hname.
  destruct s as [ps ms invs iis ivs ivis sls slis n]. store_simpl.
  eexists _, _, _, _, _.
  split; [apply save_invoice_single; eassumption|].
  split; [apply lookup_or_create_unseen; exact Hname|].
  store_simpl.
  split; [reflexivity|]. split; [reflexivity|].
  split; [apply insert_purchase_created|].
  split; [apply confirm_single_new_item; assumption|].
  eexists. split; [store_simpl; apply triggers_on_created; exact Hname|].
  cbn [Product.id Product.unit Product.min_stock_level Product.current_stock].
  repeat split; try reflexivity. ring.
Qed.

(** ** Sales and invoice deletion *)





(** C5, as amended.  Deleting an invoice removes the invoice and its items
    and nothing else: the movements written when it was confirmed stay in
    the ledger, and the stock of every product stays what it was after the
    confirmation. *)
Theorem delete_invoice_keeps_ledger invoiceToDelete s :
  exists s',
    confirmDeleteInvoice invoiceToDelete s = (Ok tt, s')
    /\ invoices s'
       = filter (fun i => negb (Nat.eqb (Invoice.id i) (Invoice.id invoiceToDelete)))
           (invoices s)
    /\ (forall ii, In ii (invoice_items s') <->
          In ii (invoice_items s)
          /\ InvoiceItemRow.invoice_id ii <> Invoice.id invoiceToDelete)
    /\ stock_movements s' = stock_movements s
    /\ products s' = products s.
Proof.
  destruct s as [ps ms invs iis ivs ivis sls slis n].
  eexists. split; [reflexivity|]. store_simpl.
  split; [reflexivity|]. split; [|split; reflexivity].
  intros ii. rewrite !filter_In, negb_true_iff, Nat.eqb_neq. tauto.
Qed.

(** ** The inventory workflow *)

Lemma insert_rows_inventories ns :
  forall s s',
    insert_stock_movement_rows ns s = Ok s' -> inventories s' = inventories s.
Proof.
  induction ns as [|n ns IH]; intros s s' H; cbn in H.
  - now injection H as <-.
  - unfold insert_stock_movement_row in H.
    destruct (has_product _ _); [|discriminate].
    apply IH in H. exact H.
Qed.

Lemma handleCompleteInventory_inventories now iid s :
  inventories (snd (handleCompleteInventory now iid s))
  = inventories (snd (update_inventory iid completed (Some now) s)).
Proof.
  rewrite handleCompleteInventory_run. cbn zeta.
  destruct (insert_stock_movement_rows _ _) as [s'|e] eqn:H; cbn [snd].
  - now apply insert_rows_inventories in H.
  - reflexivity.
Qed.

Lemma status_of_inventories s s' iid :
  inventories s' = inventories s -> status_of iid s' = status_of iid s.
Proof. unfold status_of, find_inventory. now intros ->. Qed.

Lemma find_inventory_id iid s inv :
  find_inventory iid s = Some inv -> Inventory.id inv = iid.
Proof.
  unfold find_inventory. intros H. apply find_some in H.
  destruct H as [_ H]. now apply Nat.eqb_eq in H.
Qed.

Lemma status_eqb_eq a b : InventoryStatus_eqb a b = true -> a = b.
Proof. destruct a, b; simpl; congruence. Qed.

Lemma status_after_update iid target t s j st :
  status_of iid s = Some st ->
  status_rank target = S (status_rank st) ->
  forall old, status_of j s = Some old ->
  exists st', status_of j (snd (update_inventory iid target t s)) = Some st'
              /\ forward_step old st'.
Proof.
  intros Hst Hrank old Hold.
  rewrite update_inventory_status, Hold. cbn [option_map].
  destruct (Nat.eqb j iid) eqn:E.
  - apply Nat.eqb_eq in E. subst j. rewrite Hst in Hold. injection Hold as <-.
    eexists. split; [reflexivity|]. now right.
  - eexists. split; [reflexivity|]. now left.
Qed.

(** C6, as amended.  The views render the start control for a draft
    inventory only, the complete control for an inventory in progress only,
    and the count controls only while the inventory is in progress.  So a
    click on a rendered control leaves the status of every inventory as it
    was or advances it by one step: start takes draft to in progress,
    complete takes in progress to completed, and saving a count changes no
    status and happens on an inventory in progress. *)
Theorem rendered_controls_move_forward now a s h :
  ui_click now a s = Some h ->
  (forall iid st,
     status_of iid s = Some st ->
     exists st', status_of iid (snd (h s)) = Some st' /\ forward_step st st')
  /\ match a with
     | click_start iid =>
         status_of iid s = Some draft
         /\ status_of iid (snd (h s)) = Some in_progress
     | click_complete iid =>
         status_of iid s = Some in_progress
         /\ status_of iid (snd (h s)) = Some completed
     | click_save_count item_id _ =>
         exists item,
           find_inventory_item item_id s = Some item
           /\ status_of (InventoryItem.inventory_id item) s = Some in_progress
           /\ inventories (snd (h s)) = inventories s
     end.
Proof.
  intros Hclick. destruct a as [iid|iid|item_id q]; cbn [ui_click] in Hclick.
  - destruct (find_inventory iid s) as [inv|] eqn:Hf; [|discriminate].
    unfold start_button in Hclick.
    destruct (InventoryStatus_eqb _ _) eqn:Hs; [|discriminate].
    injection Hclick as <-. apply status_eqb_eq in Hs.
    rewrite (find_inventory_id _ _ _ Hf).
    assert (Hst : status_of iid s = Some draft)
      by (unfold status_of; rewrite Hf; cbn; now rewrite Hs).
    unfold handleStartInventory. split.
    + intros j old Hold. eapply status_after_update; eauto.
    + split; [exact Hst|].
      rewrite update_inventory_status, Hst. cbn. now rewrite Nat.eqb_refl.
  - destruct (find_inventory iid s) as [inv|] eqn:Hf; [|discriminate].
    unfold complete_button in Hclick.
    destruct (InventoryStatus_eqb _ _) eqn:Hs; [|discriminate].
    injection Hclick as <-. apply status_eqb_eq in Hs.
    rewrite (find_inventory_id _ _ _ Hf).
    assert (Hst : status_of iid s = Some in_progress)
      by (unfold status_of; rewrite Hf; cbn; now rewrite Hs).
    split.
    + intros j old Hold.
      rewrite (status_of_inventories _ _ j (handleCompleteInventory_inventories now iid s)).
      eapply status_after_update; eauto.
    + split; [exact Hst|].
      rewrite (status_of_inventories _ _ iid (handleCompleteInventory_inventories now iid s)).
      rewrite update_inventory_status, Hst. cbn. now rewrite Nat.eqb_refl.
  - destruct (find_inventory_item item_id s) as [item|] eqn:Hi; [|discriminate].
    destruct (find_inventory _ s) as [inv|] eqn:Hf; [|discriminate].
    unfold save_count_button, canEdit in Hclick.
    destruct (InventoryStatus_eqb _ _) eqn:Hs; [|discriminate].
    injection Hclick as <-. apply status_eqb_eq in Hs.
    assert (Hinv : inventories (snd (handleUpdateCount (InventoryItem.id item) q s))
                   = inventories s) by reflexivity.
    split.
    + intros j old Hold. exists old.
      rewrite (status_of_inventories _ _ j Hinv). split; [exact Hold|now left].
    + exists item. split; [reflexivity|]. split; [|exact Hinv].
      unfold status_of. rewrite Hf. cbn. now rewrite Hs.
Qed.

(** ** Date tokens *)

Lemma chars_str cs : chars (str cs) = cs.
Proof. apply list_ascii_of_string_of_list_ascii. Qed.

Lemma str_chars s : str (chars s) = s.
Proof. apply string_of_list_ascii_of_string. Qed.

Lemma chars_append a b : chars (a ++ b)%string = (chars a ++ chars b)%list.
Proof.
  unfold chars. induction a as [|c a IH]; simpl; [reflexivity|now rewrite IH].
Qed.

Lemma length_chars s : List.length (chars s) = String.length s.
Proof.
  unfold chars. induction s as [|c s IH]; simpl; [reflexivity|now rewrite IH].
Qed.

Lemma digit_not_separator c : is_digit c = true -> is_date_separator c = false.
Proof.
  unfold is_digit, in_range, is_date_separator, code. intros H.
  apply andb_true_iff in H as [H1 H2].
  apply Nat.leb_le in H1, H2. cbn in H1, H2.
  rewrite !orb_false_iff. repeat split; apply Ascii.eqb_neq; intros ->;
    cbn in H1, H2; lia.
Qed.

Lemma digit_not_space c : is_digit c = true -> is_space c = false.
Proof.
  unfold is_digit, in_range, is_space, code. intros H.
  apply andb_true_iff in H as [H1 H2].
  apply Nat.leb_le in H1, H2. cbn in H1, H2.
  apply orb_false_iff. split.
  - apply andb_false_iff. right. apply Nat.leb_gt. lia.
  - apply Nat.eqb_neq. lia.
Qed.

Lemma split_chars_sep sep cs :
  forall cur rest,
    forallb (fun c => negb (Ascii.eqb c sep)) cs = true ->
    split_chars sep cur (cs ++ sep :: rest)
    = (rev cur ++ cs)%list :: split_chars sep [] rest.
Proof.
  induction cs as [|c cs IH]; intros cur rest H; cbn.
  - rewrite Ascii.eqb_refl, app_nil_r. reflexivity.
  - cbn in H. apply andb_true_iff in H as [Hc H].
    apply negb_true_iff in Hc. rewrite Hc, IH by exact H.
    cbn. now rewrite <- app_assoc.
Qed.

Lemma split_chars_last sep cs :
  forall cur,
    forallb (fun c => negb (Ascii.eqb c sep)) cs = true ->
    split_chars sep cur cs = [(rev cur ++ cs)%list].
Proof.
  induction cs as [|c cs IH]; intros cur H; cbn.
  - now rewrite app_nil_r.
  - cbn in H. apply andb_true_iff in H as [Hc H].
    apply negb_true_iff in Hc. rewrite Hc, IH by exact H.
    cbn. now rewrite <- app_assoc.
Qed.

Lemma clean_digits cs : forallb is_digit cs = true -> map clean cs = cs.
Proof.
  induction cs as [|c cs IH]; cbn; intros H; [reflexivity|].
  apply andb_true_iff in H as [Hc H]. rewrite IH by exact H.
  unfold clean. apply digit_not_separator in Hc.
  unfold is_date_separator in Hc. now rewrite Hc.
Qed.

Lemma digits_no_slash cs :
  forallb is_digit cs = true ->
  forallb (fun c => negb (Ascii.eqb c "/")) cs = true.
Proof.
  intros H. rewrite forallb_forall in *. intros c Hc.
  apply H in Hc. apply digit_not_separator in Hc.
  unfold is_date_separator in Hc. rewrite !orb_false_iff in Hc.
  destruct Hc as [_ Hc]. now rewrite Hc.
Qed.

Lemma take_digits_all cs :
  forallb is_digit cs = true -> take_digits cs = (cs, []).
Proof.
  induction cs as [|c cs IH]; cbn; intros H; [reflexivity|].
  apply andb_true_iff in H as [Hc H]. now rewrite Hc, IH.
Qed.

Lemma digit_facts c :
  is_digit c = true ->
  c <> "-"%char /\ c <> "+"%char /\ c <> "x"%char /\ c <> "X"%char.
Proof.
  unfold is_digit, in_range, code. intros H.
  apply andb_true_iff in H as [H1 H2]. apply Nat.leb_le in H1, H2.
  cbn in H1, H2. repeat split; intros ->; cbn in H1, H2; lia.
Qed.

Lemma split_sign_digit c cs :
  is_digit c = true -> split_sign (c :: cs) = (false, c :: cs).
Proof.
  intros H. destruct (digit_facts c H) as (Hm & Hp & _).
  unfold split_sign.
  destruct c as [[] [] [] [] [] [] [] []]; try reflexivity; congruence.
Qed.

Lemma parseInt_digits s :
  digit_string s = true -> parseInt s = Some (digits_value (chars s)).
Proof.
  unfold digit_string. intros H. apply andb_true_iff in H as [Hne Hd].
  unfold parseInt.
  destruct (chars s) as [|c cs] eqn:Hs.
  - destruct s; [discriminate|discriminate].
  - cbn in Hd. apply andb_true_iff in Hd as [Hc Hcs].
    cbn [drop_spaces]. rewrite (digit_not_space c Hc).
    rewrite (split_sign_digit c cs Hc).
    assert (Htd : take_digits (c :: cs) = (c :: cs, []))
      by (apply take_digits_all; cbn; now rewrite Hc, Hcs).
    destruct cs as [|x cs'].
    + destruct c as [[] [] [] [] [] [] [] []]; cbn in Hc; try discriminate;
        reflexivity.
    + cbn in Hcs. apply andb_true_iff in Hcs as [Hx Hcs'].
      destruct (digit_facts x Hx) as (_ & _ & Hx1 & Hx2).
      apply Ascii.eqb_neq in Hx1, Hx2.
      destruct (Ascii.eqb c "0") eqn:Hc0.
      * apply Ascii.eqb_eq in Hc0. subst c. rewrite Hx1, Hx2. cbn [orb].
        now rewrite Htd.
      * assert (Hgen : forall (body : list ascii) (R : option Z),
                  body = c :: x :: cs' ->
                  match body with
                  | "0"%char :: x0 :: hex =>
                      if Ascii.eqb x0 "x" || Ascii.eqb x0 "X"
                      then match take_hex hex with
                           | [] => None
                           | hs => Some (fold_left (fun acc d => (16 * acc + d)%Z) hs 0%Z)
                           end
                      else Some (digits_value (fst (take_digits body)))
                  | _ => match fst (take_digits body) with
                         | [] => None
                         | ds => Some (digits_value ds)
                         end
                  end = Some (digits_value body)).
        { intros body R ->. rewrite Htd. cbn [fst].
          destruct c as [[] [] [] [] [] [] [] []]; try reflexivity.
          cbn in Hc0. discriminate. }
        rewrite (Hgen _ None eq_refl). reflexivity.
Qed.

Lemma digits_value_zeros n ds :
  digits_value (repeat "0"%char n ++ ds) = digits_value ds.
Proof.
  unfold digits_value. induction n as [|n IH]; [reflexivity|].
  cbn [repeat app fold_left]. exact IH.
Qed.

Lemma chars_padStart0 n s :
  chars (padStart0 n s) = (repeat "0"%char (n - String.length s) ++ chars s)%list.
Proof. unfold padStart0. now rewrite chars_append, chars_str. Qed.

Lemma padStart0_value n s :
  digits_value (chars (padStart0 n s)) = digits_value (chars s).
Proof. now rewrite chars_padStart0, digits_value_zeros. Qed.

Lemma chars_nil s : chars s = [] -> s = "".
Proof. destruct s; [reflexivity|discriminate]. Qed.

Lemma padStart0_digit_string n s :
  digit_string s = true -> digit_string (padStart0 n s) = true.
Proof.
  unfold digit_string. intros H. apply andb_true_iff in H as [Hne Hd].
  apply andb_true_iff. split.
  - apply negb_true_iff, String.eqb_neq. intros E.
    apply (f_equal chars) in E. rewrite chars_padStart0 in E.
    apply app_eq_nil in E as [_ E]. apply chars_nil in E. subst s. discriminate.
  - rewrite chars_padStart0, forallb_app, Hd, andb_true_r.
    apply forallb_forall. intros c Hc. apply repeat_spec in Hc. now subst c.
Qed.

Lemma parseInt_padStart0 n s :
  digit_string s = true ->
  parseInt (padStart0 n s) = Some (digits_value (chars s)).
Proof.
  intros H. rewrite parseInt_digits by now apply padStart0_digit_string.
  now rewrite padStart0_value.
Qed.

Lemma split_date_token a b c s1 s2 :
  digit_string a = true -> digit_string b = true -> digit_string c = true ->
  is_date_separator s1 = true -> is_date_separator s2 = true ->
  split "/" (str (map clean (chars (a ++ String s1 (b ++ String s2 c))%string)))
  = [a; b; c].
Proof.
  unfold digit_string. intros Ha Hb Hc H1 H2.
  apply andb_true_iff in Ha as [_ Ha], Hb as [_ Hb], Hc as [_ Hc].
  unfold split. rewrite chars_str.
  rewrite chars_append. change (chars (String s1 (b ++ String s2 c)%string))
    with (s1 :: chars (b ++ String s2 c)%string).
  rewrite chars_append. change (chars (String s2 c)) with (s2 :: chars c).
  rewrite map_app. cbn [map]. rewrite map_app. cbn [map].
  rewrite !clean_digits by assumption.
  assert (Hs : forall s, is_date_separator s = true -> clean s = "/"%char).
  { intros s Hs. unfold clean. unfold is_date_separator in Hs. now rewrite Hs. }
  rewrite (Hs s1 H1), (Hs s2 H2).
  rewrite split_chars_sep by now apply digits_no_slash.
  rewrite split_chars_sep by now apply digits_no_slash.
  rewrite split_chars_last by now apply digits_no_slash.
  cbn [rev app map]. now rewrite !str_chars.
Qed.

Lemma formatDateToISO_token today a b c s1 s2 :
  digit_string a = true -> digit_string b = true -> digit_string c = true ->
  is_date_separator s1 = true -> is_date_separator s2 = true ->
  InvoicePDFParser.formatDateToISO today (a ++ String s1 (b ++ String s2 c))%string
  = if Nat.eqb (String.length a) 4
    then iso_or_today today a b c
    else iso_or_today today c b a.
Proof.
  intros Ha Hb Hc H1 H2.
  unfold InvoicePDFParser.formatDateToISO.
  change (fun c0 : ascii =>
            if Ascii.eqb c0 "." || Ascii.eqb c0 "-" || Ascii.eqb c0 "/"
            then "/"%char else c0) with clean.
  rewrite split_date_token by assumption.
  unfold iso_or_today.
  destruct (Nat.eqb (String.length a) 4).
  - rewrite (parseInt_digits a Ha), !parseInt_padStart0 by assumption.
    reflexivity.
  - rewrite (parseInt_digits c Hc), !parseInt_padStart0 by assumption.
    reflexivity.
Qed.

(** ** The calendar *)

Local Open Scope Z_scope.

Lemma leap_day_cases y : leap_day y = 0 \/ leap_day y = 1.
Proof. unfold leap_day. destruct (InLeapYear y); auto. Qed.

Lemma DayFromYear_step y : DayFromYear (y + 1) = DayFromYear y + 365 + leap_day y.
Proof.
  unfold DayFromYear, leap_day, InLeapYear.
  destruct (Z.eqb_spec (y mod 4) 0), (Z.eqb_spec (y mod 100) 0),
    (Z.eqb_spec (y mod 400) 0); cbn [andb orb negb]; div_lia.
Qed.

Lemma DayFromYear_mono a b : a <= b -> DayFromYear a <= DayFromYear b.
Proof. unfold DayFromYear. div_lia. Qed.

Lemma YearFromDay_bounds day :
  DayFromYear (YearFromDay day) <= day < DayFromYear (YearFromDay day + 1).
Proof.
  unfold YearFromDay.
  set (y0 := 1970 + day * 400 / 146097 - 1).
  assert (H0 : DayFromYear y0 <= day) by (unfold y0, DayFromYear; div_lia).
  assert (H3 : day < DayFromYear (y0 + 3)) by (unfold y0, DayFromYear; div_lia).
  destruct (Z.leb_spec (DayFromYear (y0 + 2)) day).
  - replace (y0 + 2 + 1) with (y0 + 3) by lia. lia.
  - destruct (Z.leb_spec (DayFromYear (y0 + 1)) day).
    + replace (y0 + 1 + 1) with (y0 + 2) by lia. lia.
    + lia.
Qed.

Lemma YearFromDay_unique y day :
  DayFromYear y <= day < DayFromYear (y + 1) -> YearFromDay day = y.
Proof.
  intros H. pose proof (YearFromDay_bounds day) as B.
  destruct (Z.lt_trichotomy (YearFromDay day) y) as [L|[E|G]]; [|exact E|].
  - pose proof (DayFromYear_mono (YearFromDay day + 1) y ltac:(lia)). lia.
  - pose proof (DayFromYear_mono (y + 1) (YearFromDay day) ltac:(lia)). lia.
Qed.

Lemma DayWithinYear_range day :
  0 <= DayWithinYear day < 365 + leap_day (YearFromDay day).
Proof.
  unfold DayWithinYear. pose proof (YearFromDay_bounds day) as B.
  rewrite DayFromYear_step in B. lia.
Qed.

Lemma MonthFromDay_range day : 0 <= MonthFromDay day <= 11.
Proof.
  unfold MonthFromDay.
  repeat match goal with
         | |- context [if ?b then _ else _] => destruct b
         end; lia.
Qed.

Lemma DateFromDay_range day :
  1 <= DateFromDay day
    <= days_in_month (YearFromDay day) (MonthFromDay day + 1).
Proof.
  unfold DateFromDay, MonthFromDay.
  pose proof (DayWithinYear_range day) as R.
  set (y := YearFromDay day) in *. set (d := DayWithinYear day) in *.
  unfold month_start, days_in_month.
  destruct (leap_day_cases y) as [L|L]; rewrite L in *;
    repeat match goal with
           | |- context [if (?a <? ?b) then _ else _] =>
               destruct (Z.ltb_spec a b)
           end; cbn; lia.
Qed.

(** A date of the calendar is read back as it was given. *)
Lemma valid_date_round_trips y m d :
  1 <= m <= 12 -> 1 <= d <= days_in_month y m ->
  let date := MakeDay y (m - 1) d in
  YearFromDay date = y /\ MonthFromDay date = m - 1 /\ DateFromDay date = d.
Proof.
  intros Hm Hd date.
  assert (Hdate : date = DayFromYear y + (month_start y (m - 1) + d - 1)).
  { unfold date, MakeDay.
    replace ((m - 1) / 12) with 0 by div_lia.
    replace ((m - 1) mod 12) with (m - 1) by div_lia.
    rewrite Z.add_0_r. lia. }
  clearbody date.
  assert (Hc : m = 1 \/ m = 2 \/ m = 3 \/ m = 4 \/ m = 5 \/ m = 6 \/ m = 7
               \/ m = 8 \/ m = 9 \/ m = 10 \/ m = 11 \/ m = 12) by lia.
  clear Hm. remember (m - 1) as mi eqn:Hmi.
  assert (Hrange : 0 <= month_start y mi + d - 1 < 365 + leap_day y).
  { destruct (leap_day_cases y) as [L|L];
      month_cases Hc; compute in Hmi; subst mi;
      unfold month_start, days_in_month in *; rewrite L in *;
      cbv beta iota in *; lia. }
  assert (Hy : YearFromDay date = y).
  { apply YearFromDay_unique. rewrite DayFromYear_step. lia. }
  assert (Hw : DayWithinYear date = month_start y mi + d - 1).
  { unfold DayWithinYear. rewrite Hy. lia. }
  split; [exact Hy|].
  unfold DateFromDay, MonthFromDay. rewrite Hy, Hw.
  clear Hdate Hy Hw Hrange.
  destruct (leap_day_cases y) as [L|L];
    month_cases Hc; compute in Hmi; subst mi;
    unfold month_start, days_in_month in *; rewrite L in *;
    cbv beta iota in *; table_cases; cbv beta iota; lia.
Qed.

Lemma month_start_nonneg y m : 0 <= month_start y m.
Proof.
  unfold month_start. destruct (leap_day_cases y) as [L|L]; rewrite L.
  all: destruct m as [|p|p]; try lia.
  all: repeat (destruct p as [p|p|]; try lia).
Qed.

Lemma YearFromDay_lower y day : DayFromYear y <= day -> y <= YearFromDay day.
Proof.
  intros H. pose proof (YearFromDay_bounds day) as B.
  destruct (Z_lt_le_dec (YearFromDay day) y) as [L|G]; [|exact G].
  pose proof (DayFromYear_mono (YearFromDay day + 1) y ltac:(lia)). lia.
Qed.

(** A two-digit year is taken as a year of the twentieth century, so the
    date never has that year. *)
Lemma short_year_not_read_back yr m d :
  1900 <= yr -> 0 <= m -> 0 <= d ->
  1899 <= YearFromDay (MakeDay yr (m - 1) d).
Proof.
  intros Hy Hm Hd. apply YearFromDay_lower. unfold MakeDay.
  pose proof (month_start_nonneg (yr + (m - 1) / 12) ((m - 1) mod 12)) as Hs.
  destruct (Z.eq_dec m 0) as [->|Hm0].
  - replace ((0 - 1) / 12) with (-1) by reflexivity.
    replace ((0 - 1) mod 12) with 11 by reflexivity.
    unfold month_start.
    pose proof (DayFromYear_mono 1899 (yr + -1) ltac:(lia)).
    destruct (leap_day_cases (yr + -1)) as [L|L]; rewrite L; lia.
  - assert (0 <= (m - 1) / 12) by div_lia.
    pose proof (DayFromYear_mono 1900 (yr + (m - 1) / 12) ltac:(lia)).
    pose proof (DayFromYear_step 1899). replace (1899 + 1) with 1900 in * by lia.
    destruct (leap_day_cases 1899); lia.
Qed.

(** A day of the calendar of the years 100 to 275759 is in the range of
    [Date]. *)
Lemma valid_date_in_range y m d :
  100 <= y <= 275759 -> 1 <= m <= 12 -> 1 <= d <= days_in_month y m ->
  TimeClip (MakeDay y (m - 1) d) = Some (MakeDay y (m - 1) d).
Proof.
  intros Hy Hm Hd. unfold TimeClip.
  assert (Hdate : MakeDay y (m - 1) d
                  = DayFromYear y + (month_start y (m - 1) + d - 1)).
  { unfold MakeDay.
    replace ((m - 1) / 12) with 0 by div_lia.
    replace ((m - 1) mod 12) with (m - 1) by div_lia.
    rewrite Z.add_0_r. lia. }
  assert (Hc : m = 1 \/ m = 2 \/ m = 3 \/ m = 4 \/ m = 5 \/ m = 6 \/ m = 7
               \/ m = 8 \/ m = 9 \/ m = 10 \/ m = 11 \/ m = 12) by lia.
  assert (Hrange : 0 <= month_start y (m - 1) + d - 1 < 366).
  { clear Hdate Hm. remember (m - 1) as mi eqn:Hmi.
    destruct (leap_day_cases y) as [L|L];
      month_cases Hc; compute in Hmi; subst mi;
      unfold month_start, days_in_month in *; try rewrite L in *;
      cbv beta iota in *; lia. }
  pose proof (DayFromYear_mono 100 y ltac:(lia)) as Hlo.
  pose proof (DayFromYear_mono y 275759 ltac:(lia)) as Hhi.
  change (DayFromYear 100) with (-683003) in Hlo.
  change (DayFromYear 275759) with 99999379 in Hhi.
  destruct (Z.leb_spec (Z.abs (MakeDay y (m - 1) d)) 100000000); [reflexivity|].
  lia.
Qed.

Theorem date_round_trips_iff_valid y m d :
  0 <= y <= 275759 -> 0 <= m -> 0 <= d ->
  date_round_trips (Some y) (Some m) (Some d) = valid_calendar_date y m d.
Proof.
  intros Hy Hm Hd.
  unfold date_round_trips, new_Date, getFullYear, getMonth, getDate,
    valid_calendar_date.
  destruct ((0 <=? y) && (y <=? 99)) eqn:Hshort.
  - rewrite andb_false_r.
    pose proof (short_year_not_read_back (1900 + y) m d ltac:(lia) Hm Hd) as H.
    apply andb_true_iff in Hshort as [_ H99]. apply Z.leb_le in H99.
    destruct (TimeClip (MakeDay (1900 + y) (m - 1) d)) as [date|] eqn:Hclip;
      [|reflexivity].
    assert (date = MakeDay (1900 + y) (m - 1) d) as ->.
    { unfold TimeClip in Hclip.
      destruct (Z.abs _ <=? _); [now injection Hclip|discriminate]. }
    replace (YearFromDay (MakeDay (1900 + y) (m - 1) d) =? y) with false
      by (symmetry; apply Z.eqb_neq; lia).
    reflexivity.
  - rewrite andb_true_r.
    assert (Hlong : 100 <= y).
    { apply andb_false_iff in Hshort as [H|H];
        [apply Z.leb_gt in H|apply Z.leb_gt in H]; lia. }
    destruct ((1 <=? m) && (m <=? 12) && (1 <=? d) && (d <=? days_in_month y m))
      eqn:Hvalid.
    + repeat (apply andb_true_iff in Hvalid as [Hvalid ?]).
      rewrite valid_date_in_range by lia.
      destruct (valid_date_round_trips y m d ltac:(lia) ltac:(lia)) as (E1 & E2 & E3).
      rewrite E1, E2, E3, !Z.eqb_refl. reflexivity.
    + destruct (TimeClip (MakeDay y (m - 1) d)) as [date|] eqn:Hclip;
        [|reflexivity].
      destruct ((YearFromDay date =? y) && (MonthFromDay date =? m - 1)
                && (DateFromDay date =? d)) eqn:Hrt; [|reflexivity].
      repeat (apply andb_true_iff in Hrt as [Hrt ?]).
      pose proof (MonthFromDay_range date). pose proof (DateFromDay_range date) as HD.
      replace (YearFromDay date) with y in HD by lia.
      replace (MonthFromDay date + 1) with m in HD by lia.
      assert (Hv : (1 <=? m) && (m <=? 12) && (1 <=? d) && (d <=? days_in_month y m) = true).
      { repeat (apply andb_true_iff; split); lia. }
      congruence.
Qed.

Local Close Scope Z_scope.

(** ** Claims on the ledger *)

(** C1, witness: an insert, an update of the quantity and a delete on the
    store of the product form. *)
Lemma ledger_offset_preserved_witness :
  exists c',
    stock_of 0 (run_ledger_ops sample_ledger_ops store_with_initial_stock)
    = Some c'
    /\ (c' - ledger_sum 0%nat
               (stock_movements
                  (run_ledger_ops sample_ledger_ops store_with_initial_stock))
        == 5 - ledger_sum 0%nat (stock_movements store_with_initial_stock))%Q
    /\ ((5 == ledger_sum 0%nat (stock_movements store_with_initial_stock))%Q ->
        (c' == ledger_sum 0%nat
                 (stock_movements
                    (run_ledger_ops sample_ledger_ops store_with_initial_stock)))%Q).
Proof.
  apply (ledger_offset_preserved sample_ledger_ops store_with_initial_stock
           0 5%Q); reflexivity.
Defined.

(** C1, counterexample.  A product entered in the product form with an
    initial stock of 5 has that stock and no movement; after one movement of
    2 its stock is 7 and the sum of its movements is 2. *)
Lemma initial_stock_breaks_ledger_invariant :
  stock_of 0 (run_ledger_ops [op_insert manual_adjustment] store_with_initial_stock)
  = Some 7%Q
  /\ ledger_sum 0%nat
       (stock_movements
          (run_ledger_ops [op_insert manual_adjustment] store_with_initial_stock))
     = 2%Q
  /\ ~ ledger_invariant
         (run_ledger_ops [op_insert manual_adjustment] store_with_initial_stock).
Proof.
  split; [reflexivity|]. split; [reflexivity|].
  intros H. specialize (H 0 7%Q eq_refl). vm_compute in H. discriminate.
Qed.

(** An update that moves a movement to another product adjusts the stock of
    the new product only: the old product keeps the quantity in its stock. *)
Lemma reassigned_movement_breaks_ledger_invariant :
  ledger_invariant store_with_two_products
  /\ stock_of 0 (run_ledger_ops [op_update 2 (Some 1) None] store_with_two_products)
     = Some 3%Q
  /\ ledger_sum 0%nat
       (stock_movements
          (run_ledger_ops [op_update 2 (Some 1) None] store_with_two_products))
     = 0%Q
  /\ ~ ledger_invariant
         (run_ledger_ops [op_update 2 (Some 1) None] store_with_two_products).
Proof.
  split.
  - intros pid c.
    destruct pid as [|[|pid]]; vm_compute; intros H; try discriminate;
      injection H as <-; reflexivity.
  - split; [reflexivity|]. split; [reflexivity|].
    intros H. specialize (H 0 3%Q eq_refl). vm_compute in H. discriminate.
Qed.

(** ** Claims on the inventory *)


(** C6, counterexample.  The handlers reject nothing: on a draft inventory a
    count is recorded and a completion goes through, and a start on the
    completed inventory takes it back to in progress. *)
Lemma handlers_accept_any_status :
  status_of 1 store_with_draft_inventory = Some draft
  /\ fst (handleUpdateCount 2 7%Q store_with_draft_inventory) = Ok tt
  /\ map InventoryItem.counted_quantity
       (inventory_items (snd (handleUpdateCount 2 7%Q store_with_draft_inventory)))
     = [Some 7%Q]
  /\ fst (handleCompleteInventory "2024-03-31" 1 store_with_draft_inventory)
     = Ok tt
  /\ status_of 1
       (snd (handleCompleteInventory "2024-03-31" 1 store_with_draft_inventory))
     = Some completed
  /\ status_of 1
       (run_all [handleCompleteInventory "2024-03-31" 1; handleStartInventory 1]
          store_with_draft_inventory)
     = Some in_progress.
Proof. repeat split; reflexivity. Qed.

(** C6, witness: the complete control of the inventory in progress. *)
Lemma rendered_controls_witness :
  ui_click "2024-03-31" (click_complete 1) store_with_counted_inventory
  = Some (handleCompleteInventory "2024-03-31" 1)
  /\ status_of 1 store_with_counted_inventory = Some in_progress
  /\ status_of 1
       (snd (handleCompleteInventory "2024-03-31" 1 store_with_counted_inventory))
     = Some completed.
Proof.
  split; [reflexivity|].
  exact (proj2 (rendered_controls_move_forward "2024-03-31" (click_complete 1)
                  store_with_counted_inventory
                  (handleCompleteInventory "2024-03-31" 1) eq_refl)).
Defined.

(** ** Claims on invoices and sales *)


(** C5, counterexample.  The product has a stock of 0; confirming the
    invoice raises it to 1; deleting the invoice removes the invoice and its
    item, and the stock is still 1. *)
Lemma invoice_deletion_keeps_stock :
  stock_of 0 store_before_confirmation = Some 0%Q
  /\ stock_of 0
       (run_all [handleConfirmInvoice laptop_invoice] store_before_confirmation)
     = Some 1%Q
  /\ invoices
       (run_all
          [handleConfirmInvoice laptop_invoice;
           confirmDeleteInvoice (confirmed_invoice laptop_invoice 1)]
          store_before_confirmation) = []
  /\ invoice_items
       (run_all
          [handleConfirmInvoice laptop_invoice;
           confirmDeleteInvoice (confirmed_invoice laptop_invoice 1)]
          store_before_confirmation) = []
  /\ stock_of 0
       (run_all
          [handleConfirmInvoice laptop_invoice;
           confirmDeleteInvoice (confirmed_invoice laptop_invoice 1)]
          store_before_confirmation) = Some 1%Q
  /\ ~ (1 == 0)%Q.
Proof. repeat split; try reflexivity. intros H. discriminate H. Qed.

(** The reference of a purchase movement is the id of the invoice, which is
    the id of no invoice item: the subquery of the price trigger selects no
    row. *)
Lemma invoice_id_selects_no_item iid iis :
  existsb (fun ii => Nat.eqb (InvoiceItemRow.id ii) iid) iis = false ->
  select_net_price (Some iid) iis = None.
Proof.
  intros H. unfold select_net_price.
  now rewrite (filter_existsb_false _ _ H).
Qed.

(** For any store whose invoice items have ids other than the next one, the
    confirmation of a one-line invoice for an unseen product leaves the
    product with a null last purchase price. *)
Lemma confirm_new_product_price_null parsedData item s :
  items parsedData = [item] ->
  existsb (fun i => String.eqb (Invoice.invoice_number i) (invoiceNumber parsedData))
    (invoices s) = false ->
  existsb (fun p => String.eqb (Product.name p) (InvoiceItem.name item))
    (products s) = false ->
  existsb (fun ii => Nat.eqb (InvoiceItemRow.id ii) (next_uuid s))
    (invoice_items s) = false ->
  exists s' p,
    handleConfirmInvoice parsedData s = (Ok tt, s')
    /\ find (fun p => String.eqb (Product.name p) (InvoiceItem.name item))
         (products s') = Some p
    /\ Product.last_purchase_price p = None.
Proof.
  intros Hitems Hnum Hname Hfresh.
  destruct s as [ps ms invs iis ivs ivis sls slis n]. store_simpl.
  eexists _, _.
  split; [apply confirm_single_new_item; eassumption|].
  store_simpl.
  split; [apply triggers_on_created; exact Hname|].
  cbn [Product.last_purchase_price confirmed_invoice Invoice.id].
  apply invoice_id_selects_no_item.
  rewrite existsb_app_last, Hfresh. cbn [InvoiceItemRow.id orb].
  apply Nat.eqb_neq. lia.
Qed.

(** C4.  The purchase movement of a confirmation refers to the invoice, not
    to the invoice item, so the price trigger finds no item and sets the
    last purchase price of the product to null: after the first invoice
    (net price 2500, product created) and after a second one for the same
    product (net price 2600) the last purchase price is null. *)
Theorem purchase_sets_price_to_null :
  fst (handleConfirmInvoice laptop_invoice empty_store) = Ok tt
  /\ map (fun p => (Product.name p, Product.last_purchase_price p))
       (products (run_all [handleConfirmInvoice laptop_invoice] empty_store))
     = [("Laptop Dell Inspiron 15", None)]
  /\ fst (handleConfirmInvoice second_laptop_invoice
            (run_all [handleConfirmInvoice laptop_invoice] empty_store)) = Ok tt
  /\ map (fun p => (Product.name p, Product.last_purchase_price p))
       (products
          (run_all
             [handleConfirmInvoice laptop_invoice;
              handleConfirmInvoice second_laptop_invoice] empty_store))
     = [("Laptop Dell Inspiron 15", None)]
  /\ map InvoiceItemRow.net_price
       (invoice_items
          (run_all
             [handleConfirmInvoice laptop_invoice;
              handleConfirmInvoice second_laptop_invoice] empty_store))
     = [2500%Q; 2600%Q]
  /\ map (fun m => (StockMovement.reference_id m, StockMovement.reference_type m))
       (stock_movements
          (run_all
             [handleConfirmInvoice laptop_invoice;
              handleConfirmInvoice second_laptop_invoice] empty_store))
     = [(Some 0, Some ref_invoice_item); (Some 4, Some ref_invoice_item)]
  /\ map (fun i => (InvoiceItemRow.id i, InvoiceItemRow.invoice_id i))
       (invoice_items
          (run_all
             [handleConfirmInvoice laptop_invoice;
              handleConfirmInvoice second_laptop_invoice] empty_store))
     = [(1, 0); (5, 4)].
Proof. repeat split; reflexivity. Qed.

(** ** Claims on the parsers *)

(** The heuristic result of [parsePDF] sums its items: its totals are
    consistent. *)
Lemma heuristic_totals_consistent today text :
  totals_consistent (InvoicePDFParser.heuristic today text).
Proof.
  unfold totals_consistent, InvoicePDFParser.heuristic. cbn [items totalNet totalGross].
  split.
  - setoid_replace
      (InvoicePDFParser.sum_total_net (InvoicePDFParser.extractItems text)
       - InvoicePDFParser.sum_total_net (InvoicePDFParser.extractItems text))%Q
      with 0%Q by ring.
    discriminate.
  - setoid_replace
      (InvoicePDFParser.sum_total_gross (InvoicePDFParser.extractItems text)
       - InvoicePDFParser.sum_total_gross (InvoicePDFParser.extractItems text))%Q
      with 0%Q by ring.
    discriminate.
Qed.

(** What the completion service answers is returned as it is decoded: its
    totals are not compared with its items. *)
Lemma parsePDF_returns_ai_result today Date_parse ai_parse parsed :
  ai_parse InvoicePDFParser.simulatePDFText = Ok parsed ->
  InvoicePDFParser.parsePDF today Date_parse ai_parse = parsed.
Proof.
  intros H. unfold InvoicePDFParser.parsePDF, AIInvoiceParser.parseInvoiceWithAI.
  now rewrite H.
Qed.

(** C2.  When the completion service fails, [parsePDF] returns the fallback
    of [AIInvoiceParser]: the placeholder item, whose totals are 100 and
    123, under invoice totals of 0.  The sums of the items differ from the
    totals by more than 0.01. *)
Theorem fallback_totals_disagree_with_items today Date_parse e :
  let d := InvoicePDFParser.parsePDF today Date_parse (fun _ => Err e) in
  items d = [placeholder_item]
  /\ totalNet d = 0%Q
  /\ totalGross d = 0%Q
  /\ InvoicePDFParser.sum_total_net (items d) = 100%Q
  /\ InvoicePDFParser.sum_total_gross (items d) = 123%Q
  /\ ~ totals_consistent d.
Proof.
  cbn zeta. repeat split; try reflexivity.
  intros [Hnet _]. vm_compute in Hnet. now apply Hnet.
Qed.

(** [parseFloat] yields a number on every string that starts with a digit,
    as the groups of the item patterns do. *)
Lemma parseFloat_digit_first c s :
  is_digit c = true -> parseFloat (String c s) <> None.
Proof.
  intros Hc. unfold parseFloat.
  change (chars (String c s)) with (c :: chars s).
  cbn [drop_spaces]. rewrite (digit_not_space c Hc), (split_sign_digit c _ Hc).
  cbn [take_digits]. rewrite Hc.
  destruct (take_digits (chars s)) as [ds rest].
  destruct (match rest with
            | "."%char :: after => take_digits after
            | _ => ([], rest)
            end) as [fs rest'].
  cbn [app]. discriminate.
Qed.

(** Every item the heuristic extractor returns has its quantity times its
    prices as totals. *)
Lemma extractItems_item_totals text item :
  In item (InvoicePDFParser.extractItems text) -> item_totals item.
Proof.
  unfold InvoicePDFParser.extractItems.
  set (found := flat_map _ _).
  assert (Hfound : forall it, In it found -> item_totals it).
  { intros it Hit. unfold found in Hit.
    apply in_flat_map in Hit as (line & _ & Hit).
    unfold InvoicePDFParser.line_items in Hit.
    apply in_flat_map in Hit as (pattern & _ & Hit).
    destruct (js_match false pattern (trim line)) as [m|]; [|contradiction].
    destruct Hit as [<-|[]].
    unfold item_totals, InvoicePDFParser.item_of_match.
    cbn [InvoiceItem.total_net InvoiceItem.total_gross InvoiceItem.quantity
         InvoiceItem.net_price InvoiceItem.gross_price].
    split; reflexivity. }
  destruct found as [|it its] eqn:Hf.
  - intros [<-|[]]. split; reflexivity.
  - intros Hin. now apply Hfound.
Qed.

(** A line yields an item for each of the two patterns that matches it: two
    at most. *)
Lemma line_items_at_most_two line :
  List.length (InvoicePDFParser.line_items line) <= 2.
Proof.
  unfold InvoicePDFParser.line_items, item_patterns. cbn [flat_map].
  repeat match goal with
         | |- context [js_match ?i ?p ?l] => destruct (js_match i p l)
         end; cbn; lia.
Qed.





(** The loop over the two patterns does not stop at the first match: on a
    line that both patterns match, the extractor returns two items, one for
    each.  No such line is in the sample text, the only text the extractor
    is called with. *)
Lemma line_matching_both_patterns_yields_two_items :
  map (fun item => (InvoiceItem.name item, InvoiceItem.quantity item,
                    InvoiceItem.unit item))
    (InvoicePDFParser.line_items paper_line)
  = [("Papier A4 80 500", 10%Q, "szt"); ("Papier A4", 80%Q, "500")]
  /\ List.length (InvoicePDFParser.extractItems paper_line) = 2
  /\ List.length (split (ascii_of_nat 10) paper_line) = 1.
Proof. repeat split; vm_compute; reflexivity. Qed.

Local Open Scope Z_scope.

Lemma digits_value_nonneg ds : 0 <= digits_value ds.
Proof.
  unfold digits_value.
  assert (H : forall acc, 0 <= acc ->
            0 <= fold_left (fun a d => 10 * a + digit_value d) ds acc).
  { induction ds as [|d ds IH]; intros acc Hacc; cbn [fold_left]; [exact Hacc|].
    apply IH. unfold digit_value. lia. }
  apply H. lia.
Qed.

Local Close Scope Z_scope.

Lemma is_digit_value c :
  is_digit c = true ->
  (0 <= digit_value c <= 9)%Z /\ digit_char (digit_value c) = c.
Proof.
  unfold is_digit, in_range, digit_value, digit_char, code. intros H.
  apply andb_true_iff in H as [H1 H2]. apply Nat.leb_le in H1, H2.
  cbn in H1, H2. split; [lia|].
  rewrite Nat2Z.id.
  replace (48 + (nat_of_ascii c - 48)) with (nat_of_ascii c) by lia.
  apply ascii_nat_embedding.
Qed.

Lemma digit_char_is_digit k : (0 <= k <= 9)%Z -> is_digit (digit_char k) = true.
Proof.
  intros H.
  assert (Hk : (k = 0 \/ k = 1 \/ k = 2 \/ k = 3 \/ k = 4 \/ k = 5 \/ k = 6
                \/ k = 7 \/ k = 8 \/ k = 9)%Z) by lia.
  repeat (destruct Hk as [->|Hk]; [reflexivity|]). now subst k.
Qed.

(** On a group of one or two digits [padStart(2, '0')] gives the two digits
    of its number. *)
Lemma padStart0_two_digits s :
  digit_string s = true -> String.length s <= 2 ->
  padStart0 2 s = two_digits (digits_value (chars s))
  /\ (0 <= digits_value (chars s) <= 99)%Z.
Proof.
  unfold digit_string. intros H Hlen.
  apply andb_true_iff in H as [Hne Hd].
  destruct s as [|c1 [|c2 [|c3 s]]]; cbn in Hne, Hlen; try discriminate; try lia.
  - cbn in Hd. rewrite andb_true_r in Hd.
    destruct (is_digit_value c1 Hd) as [Hv Hc].
    unfold two_digits, digits_value. cbn [chars list_ascii_of_string fold_left].
    replace ((10 * 0 + digit_value c1) / 10)%Z with 0%Z
      by (symmetry; apply Z.div_small; lia).
    replace ((10 * 0 + digit_value c1) mod 10)%Z with (digit_value c1)
      by (symmetry; apply Z.mod_small; lia).
    rewrite Hc. split; [reflexivity|lia].
  - cbn in Hd. apply andb_true_iff in Hd as [Hd1 Hd2].
    rewrite andb_true_r in Hd2.
    destruct (is_digit_value c1 Hd1) as [Hv1 Hc1].
    destruct (is_digit_value c2 Hd2) as [Hv2 Hc2].
    unfold two_digits, digits_value. cbn [chars list_ascii_of_string fold_left].
    replace ((10 * (10 * 0 + digit_value c1) + digit_value c2) / 10)%Z
      with (digit_value c1)
      by (apply Z.div_unique with (r := digit_value c2); lia).
    replace ((10 * (10 * 0 + digit_value c1) + digit_value c2) mod 10)%Z
      with (digit_value c2)
      by (apply Z.mod_unique with (q := digit_value c1); lia).
    rewrite Hc1, Hc2. split; [reflexivity|lia].
Qed.

Lemma four_digits_value s :
  digit_string s = true -> String.length s = 4 ->
  (0 <= digits_value (chars s) <= 9999)%Z
  /\ exists c1 c2 c3 c4,
       s = str [c1; c2; c3; c4] /\ forallb is_digit [c1; c2; c3; c4] = true.
Proof.
  unfold digit_string. intros H Hlen.
  apply andb_true_iff in H as [_ Hd].
  destruct s as [|c1 [|c2 [|c3 [|c4 [|c5 s]]]]]; cbn in Hlen; try lia.
  split; [|exists c1, c2, c3, c4; split; [reflexivity|exact Hd]].
  cbn in Hd. rewrite andb_true_r in Hd.
  apply andb_true_iff in Hd as [H1 Hd]. apply andb_true_iff in Hd as [H2 Hd].
  apply andb_true_iff in Hd as [H3 H4].
  apply is_digit_value in H1 as [H1 _], H2 as [H2 _], H3 as [H3 _], H4 as [H4 _].
  unfold digits_value. cbn [chars list_ascii_of_string fold_left]. lia.
Qed.

Lemma two_digits_shape n :
  (0 <= n <= 99)%Z ->
  exists c1 c2, two_digits n = str [c1; c2] /\ forallb is_digit [c1; c2] = true.
Proof.
  intros H. exists (digit_char (n / 10)), (digit_char (n mod 10)).
  split; [reflexivity|]. cbn [forallb].
  rewrite !digit_char_is_digit; [reflexivity| |].
  - pose proof (Z.mod_pos_bound n 10 ltac:(lia)). lia.
  - split; [apply Z.div_pos; lia|].
    apply Z.lt_succ_r. apply Z.div_lt_upper_bound; lia.
Qed.

(** C8.  A date token as the date patterns match it (a day and a month of
    one or two digits and a year of four, day first or year first) is taken
    year first when its first group has four digits and day first otherwise.
    It is normalised to the ISO form, the year, the two digits of the month
    and the two digits of the day with hyphens between them, when the date
    built from its year, month and day reads back as that year, month and day,
    and replaced by the current date when it does not.  The date reads back
    so exactly when it is a day of the calendar (with a year that is not taken
    for one of 1900 to 1999).  So ["15.01.2024"] gives ["2024-01-15"],
    ["5.3.2024"] gives ["2024-03-05"] and ["31.02.2024"] gives the current
    date. *)
Theorem date_token_normalisation today d m y s1 s2 :
  digit_string d = true -> digit_string m = true -> digit_string y = true ->
  String.length d <= 2 -> String.length m <= 2 -> String.length y = 4 ->
  is_date_separator s1 = true -> is_date_separator s2 = true ->
  let year := digits_value (chars y) in
  let month := digits_value (chars m) in
  let day := digits_value (chars d) in
  let normalised :=
    if valid_calendar_date year month day then iso_date y month day
    else today in
  InvoicePDFParser.formatDateToISO today
    (d ++ String s1 (m ++ String s2 y))%string = normalised
  /\ InvoicePDFParser.formatDateToISO today
       (y ++ String s1 (m ++ String s2 d))%string = normalised
  /\ date_round_trips (Some year) (Some month) (Some day)
     = valid_calendar_date year month day
  /\ (exists y1 y2 y3 y4 m1 m2 d1 d2,
         iso_date y month day
         = str [y1; y2; y3; y4; "-"%char; m1; m2; "-"%char; d1; d2]
         /\ forallb is_digit [y1; y2; y3; y4; m1; m2; d1; d2] = true)
  /\ InvoicePDFParser.formatDateToISO today "15.01.2024" = "2024-01-15"
  /\ InvoicePDFParser.formatDateToISO today "5.3.2024" = "2024-03-05"
  /\ InvoicePDFParser.formatDateToISO today "31.02.2024" = today.
Proof.
  intros Hd Hm Hy Ld Lm Ly H1 H2. cbn zeta.
  destruct (padStart0_two_digits d Hd Ld) as [Pd Vd].
  destruct (padStart0_two_digits m Hm Lm) as [Pm Vm].
  destruct (four_digits_value y Hy Ly) as [Vy (y1 & y2 & y3 & y4 & Ey & Dy)].
  assert (Hrt : date_round_trips (Some (digits_value (chars y)))
                  (Some (digits_value (chars m))) (Some (digits_value (chars d)))
                = valid_calendar_date (digits_value (chars y))
                    (digits_value (chars m)) (digits_value (chars d)))
    by (apply date_round_trips_iff_valid; lia).
  assert (Hiso : iso_or_today today y m d
                 = if valid_calendar_date (digits_value (chars y))
                        (digits_value (chars m)) (digits_value (chars d))
                   then iso_date y (digits_value (chars m)) (digits_value (chars d))
                   else today).
  { unfold iso_or_today, iso_date. now rewrite Hrt, Pm, Pd. }
  split; [|split; [|split; [exact Hrt|split; [|repeat split; reflexivity]]]].
  - rewrite formatDateToISO_token by assumption.
    replace (Nat.eqb (String.length d) 4) with false
      by (symmetry; apply Nat.eqb_neq; lia).
    exact Hiso.
  - rewrite formatDateToISO_token by assumption.
    rewrite Ly. cbn [Nat.eqb]. exact Hiso.
  - destruct (two_digits_shape _ Vm) as (m1 & m2 & Em & Dm).
    destruct (two_digits_shape _ Vd) as (d1 & d2 & Ed & Dd).
    exists y1, y2, y3, y4, m1, m2, d1, d2. split.
    + unfold iso_date. rewrite Ey, Em, Ed. reflexivity.
    + cbn [forallb] in *.
      repeat match goal with
             | H : _ && _ = true |- _ => apply andb_true_iff in H as [? ?]
             end.
      repeat match goal with
             | H : is_digit _ = true |- _ => rewrite H; clear H
             end.
      reflexivity.
Qed.

(** C8, witness: the token ["5.3.2024"], whose day and month are padded. *)
Lemma date_token_normalisation_witness :
  InvoicePDFParser.formatDateToISO "2025-07-15" "5.3.2024" = "2024-03-05".
Proof.
  exact (proj1 (date_token_normalisation "2025-07-15" "5" "3" "2024" "." "."
                  eq_refl eq_refl eq_refl (le_S _ _ (le_n 1)) (le_S _ _ (le_n 1))
                  eq_refl eq_refl eq_refl)).
Defined.

(** The heuristic extraction of the sample text: its three lines of items,
    and the date of the sample. *)
Example sample_text_items :
  map (fun item => (InvoiceItem.name item, InvoiceItem.quantity item,
                    InvoiceItem.net_price item))
    (InvoicePDFParser.extractItems InvoicePDFParser.simulatePDFText)
  = [("Laptop Dell Inspiron 15", 1%Q, 2500%Q);
     ("Mysz optyczna Logitech", 2%Q, 45%Q);
     ("Klawiatura mechaniczna", 1%Q, 200%Q)]
  /\ InvoicePDFParser.extractDate "2025-07-15" InvoicePDFParser.simulatePDFText
     = "2024-01-15".
Proof. split; vm_compute; reflexivity. Qed.
(** * The application as a whole *)

(** ** Computations that keep a property of the store *)

Lemma preserves_ret {A : Type} (I : store -> Prop) (a : A) : preserves I (ret a).
Proof. intros s H. exact H. Qed.

Lemma preserves_throw {A : Type} (I : store -> Prop) e :
  preserves I (@throw A e).
Proof. intros s H. exact H. Qed.

Lemma preserves_bind {A B : Type} (I : store -> Prop) (m : db A)
  (f : A -> db B) :
  preserves I m -> (forall a, preserves I (f a)) -> preserves I (bind m f).
Proof.
  intros Hm Hf s Hs. unfold bind.
  specialize (Hm s Hs).
  destruct (m s) as [[a|e] s1]; cbn [snd] in *.
  - now apply Hf.
  - exact Hm.
Qed.

Lemma preserves_for_each {A : Type} (I : store -> Prop) (xs : list A) body :
  (forall x, preserves I (body x)) -> preserves I (for_each xs body).
Proof.
  intros Hb. induction xs as [|x xs IH]; cbn [for_each].
  - apply preserves_ret.
  - apply preserves_bind; [apply Hb|intros _; exact IH].
Qed.

Lemma preserves_statement {A : Type} (I : store -> Prop)
  (f : store -> result (A * store)) :
  (forall s a s', f s = Ok (a, s') -> I s -> I s') -> preserves I (statement f).
Proof.
  intros Hf s Hs. unfold statement.
  destruct (f s) as [[a s']|e] eqn:E; cbn [snd]; [|exact Hs].
  eapply Hf; eassumption.
Qed.

Lemma preserves_select {A : Type} (I : store -> Prop) (q : store -> A) :
  preserves I (fun s => (Ok (q s), s)).
Proof. intros s H. exact H. Qed.

(** ** Well-formed stores *)

Lemma distinct_ids_NoDup l : distinct_ids l = true <-> NoDup l.
Proof.
  induction l as [|x l IH]; cbn [distinct_ids].
  - split; [constructor|reflexivity].
  - rewrite andb_true_iff, negb_true_iff, IH. split.
    + intros [Hx Hl]. constructor; [|exact Hl].
      intros Hin.
      assert (H : existsb (Nat.eqb x) l = true).
      { apply existsb_exists. exists x. split; [exact Hin|apply Nat.eqb_refl]. }
      congruence.
    + intros H. inversion H as [|? ? Hx Hl]; subst. split; [|exact Hl].
      destruct (existsb (Nat.eqb x) l) eqn:E; [|reflexivity].
      apply existsb_exists in E as (y & Hy & Hxy).
      apply Nat.eqb_eq in Hxy. subst y. contradiction.
Qed.

Lemma distinct_names_NoDup l : distinct_names l = true <-> NoDup l.
Proof.
  induction l as [|x l IH]; cbn [distinct_names].
  - split; [constructor|reflexivity].
  - rewrite andb_true_iff, negb_true_iff, IH. split.
    + intros [Hx Hl]. constructor; [|exact Hl].
      intros Hin.
      assert (H : existsb (String.eqb x) l = true).
      { apply existsb_exists. exists x. split; [exact Hin|apply String.eqb_refl]. }
      congruence.
    + intros H. inversion H as [|? ? Hx Hl]; subst. split; [|exact Hl].
      destruct (existsb (String.eqb x) l) eqn:E; [|reflexivity].
      apply existsb_exists in E as (y & Hy & Hxy).
      apply String.eqb_eq in Hxy. subst y. contradiction.
Qed.

Lemma well_formed_WF s : well_formed s = true <-> WF s.
Proof.
  unfold well_formed, fresh_ids, references_hold, product_keys_hold.
  rewrite !andb_true_iff, !forallb_forall, distinct_ids_NoDup,
    distinct_names_NoDup.
  split.
  - intros [[[[[H1 H2] H3] H4] [[[H5 H6] H7] H8]] [H9 H10]].
    constructor; try assumption.
    + intros p Hp. now apply Nat.ltb_lt, H1.
    + intros p Hp. now apply Nat.ltb_lt, H2.
    + intros p Hp. now apply Nat.ltb_lt, H3.
    + intros p Hp. now apply Nat.ltb_lt, H4.
    + intros i Hi. now apply andb_true_iff, H6.
    + intros i Hi. now apply andb_true_iff, H7.
  - intros [H1 H2 H3 H4 H5 H6 H7 H8 H9 H10].
    repeat split; try assumption.
    + intros p Hp. now apply Nat.ltb_lt, H1.
    + intros p Hp. now apply Nat.ltb_lt, H2.
    + intros p Hp. now apply Nat.ltb_lt, H3.
    + intros p Hp. now apply Nat.ltb_lt, H4.
    + intros i Hi. now apply andb_true_iff, H6.
    + intros i Hi. now apply andb_true_iff, H7.
Qed.
Lemma has_product_In pid s :
  has_product pid s = true <-> exists p, In p (products s) /\ Product.id p = pid.
Proof.
  unfold has_product. rewrite existsb_exists.
  split; intros (p & Hp & E); exists p; (split; [exact Hp|]);
    now apply Nat.eqb_eq.
Qed.

Lemma has_invoice_In iid s :
  has_invoice iid s = true <-> exists i, In i (invoices s) /\ Invoice.id i = iid.
Proof.
  unfold has_invoice. rewrite existsb_exists.
  split; intros (p & Hp & E); exists p; (split; [exact Hp|]);
    now apply Nat.eqb_eq.
Qed.

Lemma has_inventory_In iid s :
  has_inventory iid s = true
  <-> exists i, In i (inventories s) /\ Inventory.id i = iid.
Proof.
  unfold has_inventory. rewrite existsb_exists.
  split; intros (p & Hp & E); exists p; (split; [exact Hp|]);
    now apply Nat.eqb_eq.
Qed.

Lemma has_sale_In sid s :
  has_sale sid s = true <-> exists x, In x (sales s) /\ Sale.id x = sid.
Proof.
  unfold has_sale. rewrite existsb_exists.
  split; intros (p & Hp & E); exists p; (split; [exact Hp|]);
    now apply Nat.eqb_eq.
Qed.

Lemma NoDup_app_last {A : Type} (l : list A) x :
  NoDup l -> ~ In x l -> NoDup (l ++ [x]).
Proof.
  intros Hl Hx. apply NoDup_app; [exact Hl|repeat constructor; intros []|].
  intros y Hy [<-|[]]. contradiction.
Qed.

Ltac wf_has :=
  unfold has_product, has_invoice, has_inventory, has_sale in *;
  cbn [products invoices inventories sales] in *;
  rewrite ?existsb_app, ?orb_true_iff in *.

Lemma insert_product_WF name unit c m l :
  preserves WF (insert_product name unit c m l).
Proof.
  apply preserves_statement. intros s a s'.
  destruct (existsb _ _) eqn:Hname; [discriminate|].
  intros [= <- <-] [H1 H2 H3 H4 H5 H6 H7 H8 H9 H10].
  destruct s as [ps ms invs iis ivs ivis sls slis n]. store_simpl.
  constructor; store_simpl.
  - intros p Hp. apply in_app_iff in Hp as [Hp|[<-|[]]]; [|cbn; lia].
    apply H1 in Hp. lia.
  - intros p Hp. apply H2 in Hp. lia.
  - intros p Hp. apply H3 in Hp. lia.
  - intros p Hp. apply H4 in Hp. lia.
  - intros x Hx. apply H5 in Hx. wf_has. tauto.
  - intros x Hx. apply H6 in Hx. wf_has. tauto.
  - intros x Hx. apply H7 in Hx. wf_has. tauto.
  - intros x Hx. apply H8 in Hx. wf_has. tauto.
  - rewrite map_app. apply NoDup_app_last; [exact H9|].
    cbn. intros Hin. apply in_map_iff in Hin as (p & E & Hp).
    apply H1 in Hp. lia.
  - rewrite map_app. apply NoDup_app_last; [exact H10|].
    cbn. intros Hin. apply in_map_iff in Hin as (p & E & Hp).
    assert (existsb (fun p => String.eqb (Product.name p) name) ps = true).
    { apply existsb_exists. exists p. split; [exact Hp|]. now apply String.eqb_eq. }
    congruence.
Qed.
Ltac wf_field :=
  match goal with
  | H : forall p, In p ?l -> _ |- forall q, In q ?l -> _ =>
      let x := fresh "x" in
      let Hx := fresh "Hx" in
      intros x Hx; apply H in Hx; wf_has; solve [lia | tauto]
  end.

Ltac wf_open :=
  let s := fresh "s" in
  let a := fresh "a" in
  let s' := fresh "s'" in
  apply preserves_statement; intros s a s';
  destruct s as [ps ms invs iis ivs ivis sls slis n]; store_simpl.

Lemma insert_invoice_WF f num d v tn tg :
  preserves WF (insert_invoice f num d v tn tg).
Proof.
  wf_open. destruct (existsb _ _); [discriminate|].
  intros [= <- <-] [H1 H2 H3 H4 H5 H6 H7 H8 H9 H10]. store_simpl.
  constructor; store_simpl; try wf_field; try assumption.
  intros p Hp. apply in_app_iff in Hp as [Hp|[<-|[]]]; [|cbn; lia].
  apply H2 in Hp. lia.
Qed.

Lemma insert_sale_WF num d c t : preserves WF (insert_sale num d c t).
Proof.
  wf_open. destruct (existsb _ _); [discriminate|].
  intros [= <- <-] [H1 H2 H3 H4 H5 H6 H7 H8 H9 H10]. store_simpl.
  constructor; store_simpl; try wf_field; try assumption.
  intros p Hp. apply in_app_iff in Hp as [Hp|[<-|[]]]; [|cbn; lia].
  apply H4 in Hp. lia.
Qed.

Lemma insert_inventory_WF name st : preserves WF (insert_inventory name st).
Proof.
  wf_open.
  intros [= <- <-] [H1 H2 H3 H4 H5 H6 H7 H8 H9 H10]. store_simpl.
  constructor; store_simpl; try wf_field; try assumption.
  intros p Hp. apply in_app_iff in Hp as [Hp|[<-|[]]]; [|cbn; lia].
  apply H3 in Hp. lia.
Qed.
Lemma insert_invoice_item_rows_WF rows :
  forall s s', insert_invoice_item_rows rows s = Ok s' -> WF s -> WF s'.
Proof.
  induction rows as [|[iid it] rows IH]; intros s s'; cbn [insert_invoice_item_rows].
  - now intros [= <-].
  - destruct (has_invoice iid s) eqn:Hinv; [|discriminate].
    intros Hrun Hs. apply (IH _ _ Hrun). clear IH Hrun.
    destruct Hs as [H1 H2 H3 H4 H5 H6 H7 H8 H9 H10].
    destruct s as [ps ms invs iis ivs ivis sls slis n]. store_simpl.
    constructor; store_simpl; try wf_field; try assumption.
    intros x Hx. apply in_app_iff in Hx as [Hx|[<-|[]]]; [now apply H8|].
    exact Hinv.
Qed.

Lemma insert_invoice_items_WF rows : preserves WF (insert_invoice_items rows).
Proof.
  apply preserves_statement. intros s a s'.
  destruct (insert_invoice_item_rows rows s) as [s1|e] eqn:E; [|discriminate].
  intros [= <- <-]. now apply insert_invoice_item_rows_WF with (rows := rows).
Qed.

Lemma insert_sale_item_rows_WF ns :
  forall s s', insert_sale_item_rows ns s = Ok s' -> WF s -> WF s'.
Proof.
  induction ns as [|x ns IH]; intros s s'; cbn [insert_sale_item_rows].
  - now intros [= <-].
  - destruct (has_sale _ s) eqn:Hsale; [|discriminate].
    destruct (has_product _ s) eqn:Hprod; [|discriminate]. cbn [negb].
    intros Hrun Hs. apply (IH _ _ Hrun). clear IH Hrun.
    destruct Hs as [H1 H2 H3 H4 H5 H6 H7 H8 H9 H10].
    destruct s as [ps ms invs iis ivs ivis sls slis n]. store_simpl.
    constructor; store_simpl; try wf_field; try assumption.
    intros y Hy. apply in_app_iff in Hy as [Hy|[<-|[]]]; [now apply H7|].
    split; assumption.
Qed.

Lemma insert_sale_items_WF ns : preserves WF (insert_sale_items ns).
Proof.
  apply preserves_statement. intros s a s'.
  destruct (insert_sale_item_rows ns s) as [s1|e] eqn:E; [|discriminate].
  intros [= <- <-]. now apply insert_sale_item_rows_WF with (ns := ns).
Qed.

Lemma insert_inventory_item_rows_WF ns :
  forall s s', insert_inventory_item_rows ns s = Ok s' -> WF s -> WF s'.
Proof.
  induction ns as [|x ns IH]; intros s s'; cbn [insert_inventory_item_rows].
  - now intros [= <-].
  - destruct (has_inventory _ s) eqn:Hinv; [|discriminate].
    destruct (has_product _ s) eqn:Hprod; [|discriminate]. cbn [negb].
    destruct (existsb _ _); [discriminate|].
    intros Hrun Hs. apply (IH _ _ Hrun). clear IH Hrun.
    destruct Hs as [H1 H2 H3 H4 H5 H6 H7 H8 H9 H10].
    destruct s as [ps ms invs iis ivs ivis sls slis n]. store_simpl.
    constructor; store_simpl; try wf_field; try assumption.
    intros y Hy. apply in_app_iff in Hy as [Hy|[<-|[]]]; [now apply H6|].
    split; assumption.
Qed.

Lemma insert_inventory_items_WF ns : preserves WF (insert_inventory_items ns).
Proof.
  apply preserves_statement. intros s a s'.
  destruct (insert_inventory_item_rows ns s) as [s1|e] eqn:E; [|discriminate].
  intros [= <- <-]. now apply insert_inventory_item_rows_WF with (ns := ns).
Qed.

(** The triggers keep the ids and the names of the products. *)
Lemma update_product_stock_ids op ps :
  map Product.id (update_product_stock op ps) = map Product.id ps.
Proof.
  destruct op; cbn [update_product_stock]; rewrite map_map; apply map_ext;
    intros p; destruct (Nat.eqb _ _); reflexivity.
Qed.

Lemma update_product_stock_names op ps :
  map Product.name (update_product_stock op ps) = map Product.name ps.
Proof.
  destruct op; cbn [update_product_stock]; rewrite map_map; apply map_ext;
    intros p; destruct (Nat.eqb _ _); reflexivity.
Qed.

Lemma update_product_price_ids NEW iis ps :
  map Product.id (update_product_price_from_purchase NEW iis ps)
  = map Product.id ps.
Proof.
  unfold update_product_price_from_purchase.
  destruct (_ && _); [|reflexivity].
  rewrite map_map; apply map_ext; intros p; destruct (Nat.eqb _ _); reflexivity.
Qed.

Lemma update_product_price_names NEW iis ps :
  map Product.name (update_product_price_from_purchase NEW iis ps)
  = map Product.name ps.
Proof.
  unfold update_product_price_from_purchase.
  destruct (_ && _); [|reflexivity].
  rewrite map_map; apply map_ext; intros p; destruct (Nat.eqb _ _); reflexivity.
Qed.

Lemma insert_stock_movement_row_products n s s' :
  insert_stock_movement_row n s = Ok s' ->
  has_product (NewStockMovement.product_id n) s = true
  /\ map Product.id (products s') = map Product.id (products s)
  /\ map Product.name (products s') = map Product.name (products s)
  /\ stock_movements s'
     = stock_movements s ++ [NewStockMovement.row (next_uuid s) n]
  /\ next_uuid s' = S (next_uuid s)
  /\ frame s s'.
Proof.
  intros Hrun.
  destruct (has_product (NewStockMovement.product_id n) s) eqn:Hp.
  - split; [reflexivity|].
    destruct (insert_row_spec n s Hp) as (s1 & Hrow & Hms & Hn & Hf).
    rewrite Hrun in Hrow. injection Hrow as <-.
    split; [|split; [|split; [exact Hms|split; [exact Hn|exact Hf]]]].
    + unfold insert_stock_movement_row in Hrun. rewrite Hp in Hrun.
      assert (E : products s'
                  = update_product_stock
                      (INSERT (NewStockMovement.row (next_uuid s) n))
                      (update_product_price_from_purchase
                         (NewStockMovement.row (next_uuid s) n)
                         (invoice_items s) (products s)))
        by (injection Hrun as <-; reflexivity).
      now rewrite E, update_product_stock_ids, update_product_price_ids.
    + unfold insert_stock_movement_row in Hrun. rewrite Hp in Hrun.
      assert (E : products s'
                  = update_product_stock
                      (INSERT (NewStockMovement.row (next_uuid s) n))
                      (update_product_price_from_purchase
                         (NewStockMovement.row (next_uuid s) n)
                         (invoice_items s) (products s)))
        by (injection Hrun as <-; reflexivity).
      now rewrite E, update_product_stock_names, update_product_price_names.
  - unfold insert_stock_movement_row in Hrun. rewrite Hp in Hrun. discriminate.
Qed.

Lemma In_map_eq {A B : Type} (f : A -> B) l l' x :
  map f l' = map f l -> In x l' -> exists y, In y l /\ f y = f x.
Proof.
  intros E Hx. apply (in_map f) in Hx. rewrite E in Hx.
  apply in_map_iff in Hx as (y & Hy & Hin). now exists y.
Qed.

Lemma insert_stock_movement_row_WF n s s' :
  insert_stock_movement_row n s = Ok s' -> WF s -> WF s'.
Proof.
  intros Hrun [H1 H2 H3 H4 H5 H6 H7 H8 H9 H10].
  destruct (insert_stock_movement_row_products n s s' Hrun)
    as (Hp & Hids & Hnames & Hms & Hn & Hf).
  destruct Hf as [F1 F2 F3 F4 F5 F6 F7].
  assert (Finv : forall i, has_invoice i s' = has_invoice i s)
    by (intros i; unfold has_invoice; now rewrite F1).
  assert (Fivs : forall i, has_inventory i s' = has_inventory i s)
    by (intros i; unfold has_inventory; now rewrite F3).
  assert (Fsl : forall i, has_sale i s' = has_sale i s)
    by (intros i; unfold has_sale; now rewrite F5).
  constructor.
  - intros p Hp'. destruct (In_map_eq _ _ _ _ Hids Hp') as (q & Hq & E).
    rewrite <- E, Hn. apply H1 in Hq. lia.
  - rewrite F1, Hn. intros x Hx. apply H2 in Hx. lia.
  - rewrite F3, Hn. intros x Hx. apply H3 in Hx. lia.
  - rewrite F5, Hn. intros x Hx. apply H4 in Hx. lia.
  - rewrite Hms. intros m Hm. rewrite F7.
    apply in_app_iff in Hm as [Hm|[<-|[]]]; [now apply H5|].
    destruct n; exact Hp.
  - rewrite F4. intros x Hx. rewrite Fivs, F7. now apply H6.
  - rewrite F6. intros x Hx. rewrite Fsl, F7. now apply H7.
  - rewrite F2. intros x Hx. rewrite Finv. now apply H8.
  - now rewrite Hids.
  - now rewrite Hnames.
Qed.

Lemma insert_stock_movement_rows_WF ns :
  forall s s', insert_stock_movement_rows ns s = Ok s' -> WF s -> WF s'.
Proof.
  induction ns as [|n ns IH]; intros s s'; cbn [insert_stock_movement_rows].
  - now intros [= <-].
  - destruct (insert_stock_movement_row n s) as [s1|e] eqn:E; [|discriminate].
    intros Hrun Hs. apply (IH _ _ Hrun).
    now apply insert_stock_movement_row_WF with (n := n) (s := s).
Qed.

Lemma insert_stock_movements_WF ns : preserves WF (insert_stock_movements ns).
Proof.
  apply preserves_statement. intros s a s'.
  destruct (insert_stock_movement_rows ns s) as [s1|e] eqn:E; [|discriminate].
  intros [= <- <-]. now apply insert_stock_movement_rows_WF with (ns := ns).
Qed.
Lemma NoDup_map_filter {A B : Type} (f : A -> B) (g : A -> bool) l :
  NoDup (map f l) -> NoDup (map f (filter g l)).
Proof.
  induction l as [|x l IH]; cbn [map filter]; [constructor|].
  intros H. inversion H as [|? ? Hx Hl]; subst.
  destruct (g x); [|now apply IH].
  cbn [map]. constructor; [|now apply IH].
  intros Hin. apply Hx. apply in_map_iff in Hin as (y & E & Hy).
  apply filter_In in Hy as [Hy _]. apply in_map_iff. now exists y.
Qed.

Lemma existsb_map_key {A : Type} (key : A -> nat) (f : A -> A) k l :
  (forall x, key (f x) = key x) ->
  existsb (fun x => Nat.eqb (key x) k) (map f l)
  = existsb (fun x => Nat.eqb (key x) k) l.
Proof.
  intros Hf. induction l as [|x l IH]; cbn [map existsb]; [reflexivity|].
  now rewrite Hf, IH.
Qed.

Lemma update_inventory_WF iid st t : preserves WF (update_inventory iid st t).
Proof.
  wf_open.
  intros [= <- <-] [H1 H2 H3 H4 H5 H6 H7 H8 H9 H10]. store_simpl.
  constructor; store_simpl; try wf_field; try assumption.
  - intros x Hx. apply in_map_iff in Hx as (j & <- & Hj).
    apply H3 in Hj. destruct (Nat.eqb _ _); exact Hj.
  - intros x Hx. apply H6 in Hx. unfold has_inventory, has_product in *.
    store_simpl. rewrite (existsb_map_key Inventory.id); [exact Hx|].
    intros j. destruct (Nat.eqb _ _); reflexivity.
Qed.

Lemma update_counted_quantity_WF item_id counted :
  preserves WF (update_counted_quantity item_id counted).
Proof.
  wf_open.
  intros [= <- <-] [H1 H2 H3 H4 H5 H6 H7 H8 H9 H10]. store_simpl.
  constructor; store_simpl; try wf_field; try assumption.
  intros x Hx. apply in_map_iff in Hx as (j & <- & Hj).
  apply H6 in Hj. destruct (Nat.eqb _ _); exact Hj.
Qed.

(** Renaming the product of one id keeps the names apart when no other
    product has the new name. *)
Lemma rename_NoDup pid name unit c m ps :
  NoDup (map Product.id ps) ->
  NoDup (map Product.name ps) ->
  existsb (fun p => negb (Nat.eqb (Product.id p) pid)
                    && String.eqb (Product.name p) name) ps = false ->
  NoDup (map Product.name
           (map (fun p =>
                   if Nat.eqb (Product.id p) pid
                   then Product.mk (Product.id p) name unit c m
                          (Product.last_purchase_price p)
                   else p) ps)).
Proof.
  set (f := fun p : Product.t => if Nat.eqb (Product.id p) pid then _ else p).
  induction ps as [|p ps IH]; cbn [map existsb]; [constructor|].
  intros Hid Hnm Hchk.
  inversion Hid as [|? ? Hp Hid']; subst.
  inversion Hnm as [|? ? Hq Hnm']; subst.
  apply orb_false_iff in Hchk as [Hp0 Hchk].
  constructor; [|now apply IH].
  intros Hin. apply in_map_iff in Hin as (q' & E & Hq').
  apply in_map_iff in Hq' as (q & <- & Hq0).
  assert (Hqchk : negb (Nat.eqb (Product.id q) pid)
                  && String.eqb (Product.name q) name = false).
  { destruct (negb (Nat.eqb (Product.id q) pid)
              && String.eqb (Product.name q) name) eqn:E0; [|reflexivity].
    rewrite <- Hchk. symmetry. apply existsb_exists. now exists q. }
  unfold f in E. 
  destruct (Nat.eqb (Product.id p) pid) eqn:Ep;
    destruct (Nat.eqb (Product.id q) pid) eqn:Eq; cbn [Product.name negb andb] in *.
  - apply Nat.eqb_eq in Ep, Eq. apply Hp. apply in_map_iff. exists q.
    split; [congruence|exact Hq0].
  - apply String.eqb_neq in Hqchk. congruence.
  - apply String.eqb_neq in Hp0. congruence.
  - apply Hq. apply in_map_iff. now exists q.
Qed.

Lemma update_product_WF pid name unit m c :
  preserves WF (update_product pid name unit m c).
Proof.
  wf_open.
  destruct (existsb _ _ && existsb _ _) eqn:Hchk; [discriminate|].
  intros [= <- <-] [H1 H2 H3 H4 H5 H6 H7 H8 H9 H10]. store_simpl.
  set (f := fun p : Product.t => if Nat.eqb (Product.id p) pid then _ else p).
  assert (Hid : forall p, Product.id (f p) = Product.id p)
    by (intros p; unfold f; destruct (Nat.eqb _ _); reflexivity).
  assert (Hhas : forall k,
             existsb (fun p => Nat.eqb (Product.id p) k) (map f ps)
             = existsb (fun p => Nat.eqb (Product.id p) k) ps)
    by (intros k; now apply (existsb_map_key Product.id)).
  constructor; store_simpl; unfold has_product in *; store_simpl;
    try assumption.
  - intros x Hx. apply in_map_iff in Hx as (j & <- & Hj).
    rewrite Hid. now apply H1.
  - intros x Hx. rewrite Hhas. now apply H5.
  - intros x Hx. rewrite Hhas. now apply H6.
  - intros x Hx. rewrite Hhas. now apply H7.
  - rewrite map_map. erewrite map_ext; [exact H9|]. exact Hid.
  - apply andb_false_iff in Hchk as [Hno|Hchk].
    + replace (map f ps) with ps; [exact H10|].
      rewrite <- (map_id ps) at 1. apply map_ext_in. intros p Hp.
      unfold f. destruct (Nat.eqb (Product.id p) pid) eqn:E; [|reflexivity].
      assert (existsb (fun p => Nat.eqb (Product.id p) pid) ps = true)
        by (apply existsb_exists; now exists p).
      congruence.
    + now apply rename_NoDup.
Qed.

Lemma delete_invoice_items_of_WF iid : preserves WF (delete_invoice_items_of iid).
Proof.
  wf_open.
  intros [= <- <-] [H1 H2 H3 H4 H5 H6 H7 H8 H9 H10]. store_simpl.
  constructor; store_simpl; try wf_field; try assumption.
  intros x Hx. apply filter_In in Hx as [Hx _]. now apply H8.
Qed.

Lemma delete_invoice_WF iid : preserves WF (delete_invoice iid).
Proof.
  wf_open.
  intros [= <- <-] [H1 H2 H3 H4 H5 H6 H7 H8 H9 H10]. store_simpl.
  constructor; store_simpl; try wf_field; try assumption.
  - intros x Hx. apply filter_In in Hx as [Hx _]. now apply H2.
  - intros x Hx. apply filter_In in Hx as [Hx Hne].
    apply H8 in Hx. apply has_invoice_In in Hx as (i & Hi & E).
    apply has_invoice_In. exists i. split; [|exact E].
    cbn [invoices] in *. apply filter_In. split; [exact Hi|].
    now rewrite E.
Qed.

Lemma update_product_stock_absent m ps :
  existsb (fun p => Nat.eqb (Product.id p) (StockMovement.product_id m)) ps
  = false ->
  update_product_stock (DELETE m) ps = ps.
Proof.
  intros H. cbn [update_product_stock].
  rewrite <- (map_id ps) at 2. apply map_ext_in. intros p Hp.
  destruct (Nat.eqb (Product.id p) (StockMovement.product_id m)) eqn:E;
    [|reflexivity].
  assert (existsb (fun p => Nat.eqb (Product.id p) (StockMovement.product_id m))
            ps = true) by (apply existsb_exists; now exists p).
  congruence.
Qed.

(** The trigger finds no row to update when the movements of a deleted
    product go. *)
Lemma cascade_movement_rows_absent pid ms ps :
  existsb (fun p => Nat.eqb (Product.id p) pid) ps = false ->
  cascade_movement_rows pid ms ps
  = (filter (fun m => negb (Nat.eqb (StockMovement.product_id m) pid)) ms, ps).
Proof.
  intros Hps. induction ms as [|m ms IH]; cbn [cascade_movement_rows filter];
    [reflexivity|].
  destruct (Nat.eqb (StockMovement.product_id m) pid) eqn:E; cbn [negb].
  - apply Nat.eqb_eq in E. rewrite update_product_stock_absent; [exact IH|].
    now rewrite E.
  - now rewrite IH.
Qed.

Lemma existsb_filter_out pid ps :
  existsb (fun p => Nat.eqb (Product.id p) pid)
    (filter (fun p => negb (Nat.eqb (Product.id p) pid)) ps) = false.
Proof.
  induction ps as [|p ps IH]; cbn [filter existsb]; [reflexivity|].
  destruct (Nat.eqb (Product.id p) pid) eqn:E; cbn [negb existsb]; [exact IH|].
  now rewrite E.
Qed.

Lemma delete_product_run pid ps ms invs iis ivs ivis sls slis n :
  delete_product pid (mkStore ps ms invs iis ivs ivis sls slis n)
  = (Ok tt,
     mkStore (filter (fun p => negb (Nat.eqb (Product.id p) pid)) ps)
       (filter (fun m => negb (Nat.eqb (StockMovement.product_id m) pid)) ms)
       invs iis ivs
       (filter (fun i => negb (Nat.eqb (InventoryItem.product_id i) pid)) ivis)
       sls
       (filter (fun x => negb (Nat.eqb (SaleItem.product_id x) pid)) slis) n).
Proof.
  unfold delete_product, statement. store_simpl.
  rewrite cascade_movement_rows_absent by apply existsb_filter_out.
  reflexivity.
Qed.

Lemma has_product_filter pid k ps :
  Nat.eqb k pid = false ->
  existsb (fun p => Nat.eqb (Product.id p) k) ps = true ->
  existsb (fun p => Nat.eqb (Product.id p) k)
    (filter (fun p => negb (Nat.eqb (Product.id p) pid)) ps) = true.
Proof.
  intros Hk H. apply existsb_exists in H as (p & Hp & E).
  apply existsb_exists. exists p. split; [|exact E].
  apply filter_In. split; [exact Hp|].
  apply Nat.eqb_eq in E. now rewrite E, Hk.
Qed.

Lemma delete_product_WF pid : preserves WF (delete_product pid).
Proof.
  intros s Hs. destruct s as [ps ms invs iis ivs ivis sls slis n].
  rewrite delete_product_run. cbn [snd].
  destruct Hs as [H1 H2 H3 H4 H5 H6 H7 H8 H9 H10]. store_simpl.
  constructor; store_simpl; try wf_field; try assumption;
    unfold has_product in *; store_simpl.
  - intros x Hx. apply filter_In in Hx as [Hx _]. now apply H1.
  - intros x Hx. apply filter_In in Hx as [Hx Hne].
    apply negb_true_iff in Hne.
    apply (has_product_filter pid _ ps Hne). now apply H5.
  - intros x Hx. apply filter_In in Hx as [Hx Hne].
    apply negb_true_iff in Hne. apply H6 in Hx as [Ha Hb].
    split; [exact Ha|]. now apply (has_product_filter pid _ ps Hne).
  - intros x Hx. apply filter_In in Hx as [Hx Hne].
    apply negb_true_iff in Hne. apply H7 in Hx as [Ha Hb].
    split; [exact Ha|]. now apply (has_product_filter pid _ ps Hne).
  - now apply NoDup_map_filter.
  - now apply NoDup_map_filter.
Qed.
Lemma handleConfirmInvoice_WF parsedData :
  preserves WF (handleConfirmInvoice parsedData).
Proof.
  unfold handleConfirmInvoice, save_invoice.
  apply preserves_bind.
  - apply preserves_bind; [apply insert_invoice_WF|]. intros invoice.
    apply preserves_bind; [apply insert_invoice_items_WF|]. intros _.
    apply preserves_ret.
  - intros invoice. apply preserves_for_each. intros item.
    unfold confirm_item. apply preserves_bind.
    + unfold lookup_or_create_product. apply preserves_bind.
      * unfold select_product_by_name. apply preserves_select.
      * intros [existing|[]]; try apply preserves_throw; [apply preserves_ret|].
        apply preserves_bind; [apply insert_product_WF|].
        intros newProduct. apply preserves_ret.
    + intros productId. apply insert_stock_movements_WF.
Qed.

Lemma confirmDeleteInvoice_WF invoiceToDelete :
  preserves WF (confirmDeleteInvoice invoiceToDelete).
Proof.
  unfold confirmDeleteInvoice.
  apply preserves_bind; [apply delete_invoice_items_of_WF|].
  intros _. apply delete_invoice_WF.
Qed.

Lemma handleCreateSale_WF saleData : preserves WF (handleCreateSale saleData).
Proof.
  unfold handleCreateSale.
  apply preserves_bind; [apply insert_sale_WF|]. intros sale_row.
  apply preserves_bind; [apply insert_sale_items_WF|]. intros _.
  apply insert_stock_movements_WF.
Qed.

Lemma handleSaveProduct_WF editingProduct productData :
  preserves WF (handleSaveProduct editingProduct productData).
Proof.
  destruct editingProduct as [editing|]; cbn [handleSaveProduct].
  - apply update_product_WF.
  - apply preserves_bind; [apply insert_product_WF|].
    intros _. apply preserves_ret.
Qed.

Lemma handleDeleteProduct_WF confirmed id :
  preserves WF (handleDeleteProduct confirmed id).
Proof.
  destruct confirmed; cbn [handleDeleteProduct];
    [apply delete_product_WF|apply preserves_ret].
Qed.

Lemma handleCreateInventory_WF loaded inventoryData :
  preserves WF (handleCreateInventory loaded inventoryData).
Proof.
  unfold handleCreateInventory.
  apply preserves_bind; [apply insert_inventory_WF|]. intros inventory_row.
  apply insert_inventory_items_WF.
Qed.

Lemma handleCompleteInventory_WF now inventoryId :
  preserves WF (handleCompleteInventory now inventoryId).
Proof.
  unfold handleCompleteInventory.
  apply preserves_bind; [apply update_inventory_WF|]. intros _.
  apply preserves_bind.
  - unfold select_items_with_difference. apply preserves_select.
  - intros its. destruct (Nat.ltb _ _);
      [apply insert_stock_movements_WF|apply preserves_ret].
Qed.

Lemma run_action_WF a : preserves WF (run_action a).
Proof.
  destruct a; cbn [run_action].
  - apply handleConfirmInvoice_WF.
  - apply confirmDeleteInvoice_WF.
  - apply handleCreateSale_WF.
  - apply handleSaveProduct_WF.
  - apply handleDeleteProduct_WF.
  - apply handleCreateInventory_WF.
  - apply update_inventory_WF.
  - apply handleCompleteInventory_WF.
  - apply update_counted_quantity_WF.
Qed.

Lemma run_actions_cons a acts s :
  run_actions (a :: acts) s = run_actions acts (snd (run_action a s)).
Proof. reflexivity. Qed.

Lemma run_actions_WF acts : forall s, WF s -> WF (run_actions acts s).
Proof.
  induction acts as [|a acts IH]; intros s Hs; [exact Hs|].
  rewrite run_actions_cons. apply IH. now apply run_action_WF.
Qed.

(** X1.  Every store the application reaches from a well-formed one (the
    empty store is one) is well formed, whatever the handlers are called with
    and whether they succeed or fail on the way: the ids of products,
    invoices, inventories and sales come from the counter, every stock
    movement, inventory item and sale item refers to a product that exists,
    every inventory item to its inventory, every sale item to its sale, every
    invoice item to its invoice, and no two products share an id or a
    name. *)
Theorem reachable_stores_are_well_formed acts s :
  well_formed s = true ->
  well_formed (run_actions acts s) = true.
Proof.
  rewrite !well_formed_WF. apply run_actions_WF.
Qed.
(** ** The ledger under the handlers *)

Lemma ledger_invariant_untouched s s' :
  products s' = products s -> stock_movements s' = stock_movements s ->
  ledger_invariant s -> ledger_invariant s'.
Proof.
  intros Hp Hm H pid c. unfold stock_of. rewrite Hp, Hm. apply H.
Qed.

Lemma preserves_untouched {A : Type} (m : db A) :
  preserves WF m ->
  (forall s, products (snd (m s)) = products s
             /\ stock_movements (snd (m s)) = stock_movements s) ->
  preserves (fun s => WF s /\ ledger_invariant s) m.
Proof.
  intros Hwf Hun s [Hs Hl]. split; [now apply Hwf|].
  destruct (Hun s) as [Hp Hm]. now apply (ledger_invariant_untouched s).
Qed.

Lemma statement_untouched {A : Type} (f : store -> result (A * store)) :
  (forall s a s', f s = Ok (a, s') ->
     products s' = products s /\ stock_movements s' = stock_movements s) ->
  forall s, products (snd (statement f s)) = products s
            /\ stock_movements (snd (statement f s)) = stock_movements s.
Proof.
  intros Hf s. unfold statement.
  destruct (f s) as [[a s']|e] eqn:E; cbn [snd]; [|split; reflexivity].
  now apply (Hf s a).
Qed.

Lemma insert_invoice_item_rows_untouched rows :
  forall s s', insert_invoice_item_rows rows s = Ok s' ->
    products s' = products s /\ stock_movements s' = stock_movements s.
Proof.
  induction rows as [|[iid it] rows IH]; intros s s'; cbn [insert_invoice_item_rows].
  - intros [= <-]. split; reflexivity.
  - destruct (has_invoice iid s); [|discriminate].
    intros Hrun. apply IH in Hrun. store_simpl. exact Hrun.
Qed.

Lemma insert_sale_item_rows_untouched ns :
  forall s s', insert_sale_item_rows ns s = Ok s' ->
    products s' = products s /\ stock_movements s' = stock_movements s.
Proof.
  induction ns as [|x ns IH]; intros s s'; cbn [insert_sale_item_rows].
  - intros [= <-]. split; reflexivity.
  - destruct (negb _); [discriminate|]. destruct (negb _); [discriminate|].
    intros Hrun. apply IH in Hrun. store_simpl. exact Hrun.
Qed.

Lemma insert_inventory_item_rows_untouched ns :
  forall s s', insert_inventory_item_rows ns s = Ok s' ->
    products s' = products s /\ stock_movements s' = stock_movements s.
Proof.
  induction ns as [|x ns IH]; intros s s'; cbn [insert_inventory_item_rows].
  - intros [= <-]. split; reflexivity.
  - destruct (negb _); [discriminate|]. destruct (negb _); [discriminate|].
    destruct (existsb _ _); [discriminate|].
    intros Hrun. apply IH in Hrun. store_simpl. exact Hrun.
Qed.

Ltac untouched :=
  apply statement_untouched;
  let s := fresh "s" in
  let a := fresh "a" in
  let s' := fresh "s'" in
  intros s a s';
  repeat match goal with
         | |- context [if ?b then _ else _] => destruct b
         end;
  try discriminate;
  intros [= <- <-]; split; reflexivity.

Lemma insert_invoice_ledger f num d v tn tg :
  preserves (fun s => WF s /\ ledger_invariant s)
    (insert_invoice f num d v tn tg).
Proof. apply preserves_untouched; [apply insert_invoice_WF|]. untouched. Qed.

Lemma insert_sale_ledger num d c t :
  preserves (fun s => WF s /\ ledger_invariant s) (insert_sale num d c t).
Proof. apply preserves_untouched; [apply insert_sale_WF|]. untouched. Qed.

Lemma insert_inventory_ledger name st :
  preserves (fun s => WF s /\ ledger_invariant s) (insert_inventory name st).
Proof. apply preserves_untouched; [apply insert_inventory_WF|]. untouched. Qed.

Lemma update_inventory_ledger iid st t :
  preserves (fun s => WF s /\ ledger_invariant s) (update_inventory iid st t).
Proof. apply preserves_untouched; [apply update_inventory_WF|]. untouched. Qed.

Lemma update_counted_quantity_ledger item_id counted :
  preserves (fun s => WF s /\ ledger_invariant s)
    (update_counted_quantity item_id counted).
Proof.
  apply preserves_untouched; [apply update_counted_quantity_WF|]. untouched.
Qed.

Lemma delete_invoice_items_of_ledger iid :
  preserves (fun s => WF s /\ ledger_invariant s) (delete_invoice_items_of iid).
Proof.
  apply preserves_untouched; [apply delete_invoice_items_of_WF|]. untouched.
Qed.

Lemma delete_invoice_ledger iid :
  preserves (fun s => WF s /\ ledger_invariant s) (delete_invoice iid).
Proof. apply preserves_untouched; [apply delete_invoice_WF|]. untouched. Qed.

Lemma insert_invoice_items_ledger rows :
  preserves (fun s => WF s /\ ledger_invariant s) (insert_invoice_items rows).
Proof.
  apply preserves_untouched; [apply insert_invoice_items_WF|].
  apply statement_untouched. intros s a s'.
  destruct (insert_invoice_item_rows rows s) eqn:E; [|discriminate].
  intros [= <- <-]. now apply insert_invoice_item_rows_untouched with (rows := rows).
Qed.

Lemma insert_sale_items_ledger ns :
  preserves (fun s => WF s /\ ledger_invariant s) (insert_sale_items ns).
Proof.
  apply preserves_untouched; [apply insert_sale_items_WF|].
  apply statement_untouched. intros s a s'.
  destruct (insert_sale_item_rows ns s) eqn:E; [|discriminate].
  intros [= <- <-]. now apply insert_sale_item_rows_untouched with (ns := ns).
Qed.

Lemma insert_inventory_items_ledger ns :
  preserves (fun s => WF s /\ ledger_invariant s) (insert_inventory_items ns).
Proof.
  apply preserves_untouched; [apply insert_inventory_items_WF|].
  apply statement_untouched. intros s a s'.
  destruct (insert_inventory_item_rows ns s) eqn:E; [|discriminate].
  intros [= <- <-].
  now apply insert_inventory_item_rows_untouched with (ns := ns).
Qed.
Lemma ledger_sum_absent pid ms :
  (forall m, In m ms -> StockMovement.product_id m <> pid) ->
  ledger_sum pid ms = 0%Q.
Proof.
  induction ms as [|m ms IH]; intros H; cbn [ledger_sum]; [reflexivity|].
  destruct (Nat.eqb (StockMovement.product_id m) pid) eqn:E.
  - apply Nat.eqb_eq in E. exfalso. apply (H m); [now left|exact E].
  - apply IH. intros x Hx. apply H. now right.
Qed.

Lemma find_product_app pid ps qs :
  find_product pid (ps ++ qs)
  = match find_product pid ps with
    | Some p => Some p
    | None => find_product pid qs
    end.
Proof.
  unfold find_product. induction ps as [|p ps IH]; cbn [app find]; [reflexivity|].
  destruct (Nat.eqb (Product.id p) pid); [reflexivity|exact IH].
Qed.

Lemma insert_product_ledger name unit c m l :
  (c == 0)%Q ->
  preserves (fun s => WF s /\ ledger_invariant s) (insert_product name unit c m l).
Proof.
  intros Hc s [Hs Hl]. split; [now apply insert_product_WF|].
  unfold insert_product, statement.
  destruct (existsb _ _); cbn [snd]; [exact Hl|]. store_simpl.
  intros pid c'. unfold stock_of. store_simpl.
  rewrite find_product_app.
  destruct (find_product pid (products s)) as [p|] eqn:Hf.
  - intros H. apply Hl. unfold stock_of. now rewrite Hf.
  - unfold find_product. cbn [find Product.id].
    destruct (Nat.eqb (next_uuid s) pid) eqn:E; [|discriminate].
    cbn [option_map Product.current_stock]. intros [= <-].
    apply Nat.eqb_eq in E. subst pid.
    rewrite ledger_sum_absent; [exact Hc|].
    intros x Hx Hid. apply (wf_movements s Hs) in Hx.
    apply has_product_In in Hx as (p & Hp & Ep).
    apply (wf_products s Hs) in Hp. lia.
Qed.

Lemma stock_of_none_iff pid s :
  stock_of pid s = None <-> has_product pid s = false.
Proof.
  unfold stock_of, has_product, find_product.
  induction (products s) as [|p ps IH]; cbn [find existsb option_map].
  - tauto.
  - destruct (Nat.eqb (Product.id p) pid); cbn [orb option_map].
    + split; discriminate.
    + exact IH.
Qed.

Lemma insert_stock_movement_row_ledger n s s' :
  insert_stock_movement_row n s = Ok s' ->
  ledger_invariant s -> ledger_invariant s'.
Proof.
  intros Hrun Hl pid c' Hc'.
  destruct (insert_stock_movement_row_products n s s' Hrun)
    as (_ & _ & _ & _ & _ & Hf).
  destruct (stock_of pid s) as [c|] eqn:Hc.
  - destruct (insert_row_offset n s s' pid c Hrun Hc) as (c2 & Hc2 & He).
    rewrite Hc' in Hc2. injection Hc2 as <-.
    rewrite (Hl pid c Hc) in He.
    setoid_replace c' with
      (c' - ledger_sum pid (stock_movements s') + ledger_sum pid (stock_movements s'))%Q
      by ring.
    rewrite He. ring.
  - apply stock_of_none_iff in Hc.
    rewrite <- (frame_has_product _ _ Hf) in Hc.
    apply stock_of_none_iff in Hc. congruence.
Qed.

Lemma insert_stock_movement_rows_ledger ns :
  forall s s', insert_stock_movement_rows ns s = Ok s' ->
    ledger_invariant s -> ledger_invariant s'.
Proof.
  induction ns as [|n ns IH]; intros s s'; cbn [insert_stock_movement_rows].
  - now intros [= <-].
  - destruct (insert_stock_movement_row n s) as [s1|e] eqn:E; [|discriminate].
    intros Hrun Hs. apply (IH _ _ Hrun).
    now apply insert_stock_movement_row_ledger with (n := n) (s := s).
Qed.

Lemma insert_stock_movements_ledger ns :
  preserves (fun s => WF s /\ ledger_invariant s) (insert_stock_movements ns).
Proof.
  intros s [Hs Hl]. split; [now apply insert_stock_movements_WF|].
  rewrite insert_stock_movements_run.
  destruct (insert_stock_movement_rows ns s) as [s'|e] eqn:E; cbn [snd];
    [|exact Hl].
  now apply insert_stock_movement_rows_ledger with (ns := ns) (s := s).
Qed.

Lemma find_product_filter pid k ps :
  find_product k (filter (fun p => negb (Nat.eqb (Product.id p) pid)) ps)
  = if Nat.eqb k pid then None else find_product k ps.
Proof.
  unfold find_product. induction ps as [|p ps IH]; cbn [filter find].
  - now destruct (Nat.eqb k pid).
  - destruct (Nat.eqb (Product.id p) pid) eqn:E; cbn [negb find].
    + rewrite IH. destruct (Nat.eqb k pid) eqn:Ek; [reflexivity|].
      destruct (Nat.eqb (Product.id p) k) eqn:Ep; [|reflexivity].
      apply Nat.eqb_eq in E, Ep. apply Nat.eqb_neq in Ek. congruence.
    + destruct (Nat.eqb (Product.id p) k) eqn:Ep.
      * apply Nat.eqb_eq in Ep. subst k. now rewrite E.
      * exact IH.
Qed.

Lemma ledger_sum_filter pid k ms :
  Nat.eqb k pid = false ->
  ledger_sum k
    (filter (fun m => negb (Nat.eqb (StockMovement.product_id m) pid)) ms)
  = ledger_sum k ms.
Proof.
  intros Hk. induction ms as [|m ms IH]; cbn [filter ledger_sum]; [reflexivity|].
  destruct (Nat.eqb (StockMovement.product_id m) pid) eqn:E; cbn [negb ledger_sum].
  - rewrite IH. destruct (Nat.eqb (StockMovement.product_id m) k) eqn:Em;
      [|reflexivity].
    apply Nat.eqb_eq in E, Em. apply Nat.eqb_neq in Hk. congruence.
  - now rewrite IH.
Qed.

Lemma delete_product_ledger pid :
  preserves (fun s => WF s /\ ledger_invariant s) (delete_product pid).
Proof.
  intros s [Hs Hl]. split; [now apply delete_product_WF|].
  destruct s as [ps ms invs iis ivs ivis sls slis n].
  rewrite delete_product_run. cbn [snd].
  intros k c. unfold stock_of. store_simpl.
  rewrite find_product_filter.
  destruct (Nat.eqb k pid) eqn:Ek; [discriminate|].
  rewrite (ledger_sum_filter _ _ _ Ek). apply Hl.
Qed.
Lemma run_action_ledger a :
  keeps_ledger a = true ->
  preserves (fun s => WF s /\ ledger_invariant s) (run_action a).
Proof.
  destruct a as [parsedData|inv|saleData|editing productData|confirmed id
                |loaded inventoryData|iid|now iid|item_id counted];
    cbn [run_action keeps_ledger]; intros Hk.
  - unfold handleConfirmInvoice, save_invoice.
    apply preserves_bind.
    + apply preserves_bind; [apply insert_invoice_ledger|]. intros invoice.
      apply preserves_bind; [apply insert_invoice_items_ledger|]. intros _.
      apply preserves_ret.
    + intros invoice. apply preserves_for_each. intros item.
      unfold confirm_item. apply preserves_bind.
      * unfold lookup_or_create_product. apply preserves_bind.
        -- unfold select_product_by_name. apply preserves_select.
        -- intros [existing|[]]; try apply preserves_throw;
             [apply preserves_ret|].
           apply preserves_bind; [now apply insert_product_ledger|].
           intros newProduct. apply preserves_ret.
      * intros productId. apply insert_stock_movements_ledger.
  - unfold confirmDeleteInvoice.
    apply preserves_bind; [apply delete_invoice_items_of_ledger|].
    intros _. apply delete_invoice_ledger.
  - unfold handleCreateSale.
    apply preserves_bind; [apply insert_sale_ledger|]. intros sale_row.
    apply preserves_bind; [apply insert_sale_items_ledger|]. intros _.
    apply insert_stock_movements_ledger.
  - destruct editing as [editing|]; [discriminate|]. cbn [handleSaveProduct].
    apply preserves_bind; [|intros _; apply preserves_ret].
    apply insert_product_ledger. now apply Qeq_bool_iff.
  - destruct confirmed; cbn [handleDeleteProduct];
      [apply delete_product_ledger|apply preserves_ret].
  - unfold handleCreateInventory.
    apply preserves_bind; [apply insert_inventory_ledger|]. intros inventory_row.
    apply insert_inventory_items_ledger.
  - apply update_inventory_ledger.
  - unfold handleCompleteInventory.
    apply preserves_bind; [apply update_inventory_ledger|]. intros _.
    apply preserves_bind.
    + unfold select_items_with_difference. apply preserves_select.
    + intros its. destruct (Nat.ltb _ _);
        [apply insert_stock_movements_ledger|apply preserves_ret].
  - apply update_counted_quantity_ledger.
Qed.

(** X2.  The handlers keep the stock equal to the ledger: on a well-formed
    store in which the stock of every product is the sum of its movements,
    any sequence of actions of the application in which the product form is
    used only to create products without initial stock (invoice
    confirmations, invoice deletions, sales, product deletions, inventories
    created, started, counted and completed, whether they succeed or fail)
    leaves a store in which the stock of every product is again the sum of
    its movements. *)
Theorem handlers_keep_stock_equal_to_ledger acts :
  forall s,
    well_formed s = true ->
    ledger_invariant s ->
    forallb keeps_ledger acts = true ->
    ledger_invariant (run_actions acts s).
Proof.
  intros s Hwf Hl Hacts. apply well_formed_WF in Hwf.
  assert (H : WF (run_actions acts s) /\ ledger_invariant (run_actions acts s));
    [|exact (proj2 H)].
  revert s Hwf Hl Hacts.
  induction acts as [|a acts IH]; intros s Hwf Hl Hacts; [now split|].
  cbn [forallb] in Hacts. apply andb_true_iff in Hacts as [Ha Hacts].
  rewrite run_actions_cons.
  destruct (run_action_ledger a Ha s (conj Hwf Hl)) as [Hwf1 Hl1].
  now apply IH.
Qed.
(** ** Invoices of several lines *)













(** ** Confirming an invoice twice *)

Lemma insert_stock_movement_rows_frame ns :
  forall s s', insert_stock_movement_rows ns s = Ok s' -> frame s s'.
Proof.
  induction ns as [|n ns IH]; intros s s'; cbn [insert_stock_movement_rows].
  - intros [= <-]. apply frame_refl.
  - destruct (insert_stock_movement_row n s) as [s1|e] eqn:E; [|discriminate].
    intros Hrun. apply IH in Hrun.
    destruct (insert_stock_movement_row_products n s s1 E)
      as (_ & _ & _ & _ & _ & Hf).
    eapply frame_trans; eassumption.
Qed.

Lemma insert_invoice_item_rows_invoices rows :
  forall s s', insert_invoice_item_rows rows s = Ok s' -> invoices s' = invoices s.
Proof.
  induction rows as [|[iid it] rows IH]; intros s s'; cbn [insert_invoice_item_rows].
  - now intros [= <-].
  - destruct (has_invoice iid s); [|discriminate].
    intros H. apply IH in H. exact H.
Qed.

Lemma confirm_item_invoices invoice parsedData item num :
  preserves
    (fun s => existsb (fun i => String.eqb (Invoice.invoice_number i) num)
                (invoices s) = true)
    (confirm_item invoice parsedData item).
Proof.
  unfold confirm_item. apply preserves_bind.
  - unfold lookup_or_create_product. apply preserves_bind.
    + unfold select_product_by_name. apply preserves_select.
    + intros [existing|[]]; try apply preserves_throw; [apply preserves_ret|].
      apply preserves_bind; [|intros newProduct; apply preserves_ret].
      apply preserves_statement. intros s a s'.
      destruct (existsb _ (products s)); [discriminate|]. now intros [= <- <-].
  - intros productId. apply preserves_statement. intros s a s'.
    destruct (insert_stock_movement_rows _ s) as [s1|e] eqn:E; [|discriminate].
    intros [= <- <-] H.
    now rewrite (frame_invoices _ _ (insert_stock_movement_rows_frame _ _ _ E)).
Qed.

Lemma confirm_refused other s :
  existsb (fun i => String.eqb (Invoice.invoice_number i) (invoiceNumber other))
    (invoices s) = true ->
  handleConfirmInvoice other s
  = (Err (unique_violation "invoices_invoice_number_key"), s).
Proof.
  intros H.
  unfold handleConfirmInvoice, save_invoice, bind, insert_invoice, statement.
  now rewrite H.
Qed.

Lemma confirm_stores_invoice_number parsedData s s' :
  handleConfirmInvoice parsedData s = (Ok tt, s') ->
  existsb (fun i => String.eqb (Invoice.invoice_number i)
                      (invoiceNumber parsedData)) (invoices s') = true.
Proof.
  intros Hrun.
  unfold handleConfirmInvoice, bind in Hrun.
  destruct (save_invoice parsedData s) as [[invoice|e] s0] eqn:Hsave;
    [|discriminate].
  assert (H0 : existsb (fun i => String.eqb (Invoice.invoice_number i)
                                   (invoiceNumber parsedData)) (invoices s0)
               = true).
  { unfold save_invoice, bind, insert_invoice, statement in Hsave.
    destruct (existsb _ (invoices s)); [discriminate|].
    unfold insert_invoice_items, statement in Hsave.
    match type of Hsave with
    | context [insert_invoice_item_rows ?rows ?st] =>
        destruct (insert_invoice_item_rows rows st) as [s1|e] eqn:E
    end; [|discriminate].
    injection Hsave as _ <-.
    rewrite (insert_invoice_item_rows_invoices _ _ _ E). store_simpl.
    rewrite existsb_app_last. cbn [Invoice.invoice_number].
    now rewrite String.eqb_refl, orb_true_r. }
  pose proof (preserves_for_each _ (items parsedData)
                (confirm_item invoice parsedData)
                (fun item => confirm_item_invoices invoice parsedData item
                               (invoiceNumber parsedData)) s0 H0) as H.
  rewrite Hrun in H. exact H.
Qed.

(** On stored values: after a confirmation that succeeded, the same data is
    refused by the unique invoice number, as is every invoice whose number is
    in [invoices]. *)
Lemma stored_invoice_is_not_confirmed_again parsedData s s' :
  handleConfirmInvoice parsedData s = (Ok tt, s') ->
  handleConfirmInvoice parsedData s'
  = (Err (unique_violation "invoices_invoice_number_key"), s')
  /\ forall other s2,
       existsb (fun i => String.eqb (Invoice.invoice_number i)
                           (invoiceNumber other)) (invoices s2) = true ->
       handleConfirmInvoice other s2
       = (Err (unique_violation "invoices_invoice_number_key"), s2).
Proof.
  intros Hrun. split.
  - apply confirm_refused. now apply confirm_stores_invoice_number with (s := s).
  - intros other s2. apply confirm_refused.
Qed.
(** ** Sales *)


(** ** Creating an inventory *)

Lemma insert_inventory_item_rows_run iid (e : uuid -> Q) ids :
  forall ps ms invs iis ivs ivis sls slis n,
    let s := mkStore ps ms invs iis ivs ivis sls slis n in
    has_inventory iid s = true ->
    forallb (fun pid => has_product pid s) ids = true ->
    NoDup ids ->
    (forall i, In i ivis -> InventoryItem.inventory_id i = iid ->
       ~ In (InventoryItem.product_id i) ids) ->
    insert_inventory_item_rows
      (map (fun pid => NewInventoryItem.mk iid pid (e pid)) ids) s
    = Ok (mkStore ps ms invs iis ivs
            (ivis
             ++ number_inventory_items n
                  (map (fun pid => NewInventoryItem.mk iid pid (e pid)) ids))
            sls slis (List.length ids + n)).
Proof.
  induction ids as [|pid ids IH];
    intros ps ms invs iis ivs ivis sls slis n s Hinv Hps Hnd Hnew.
  - cbn. now rewrite app_nil_r.
  - cbn [forallb] in Hps. apply andb_true_iff in Hps as [Hp Hps].
    inversion Hnd as [|? ? Hpid Hnd']; subst.
    cbn [map insert_inventory_item_rows NewInventoryItem.inventory_id
         NewInventoryItem.product_id].
    rewrite Hinv, Hp. cbn [negb].
    assert (Huniq : existsb
                      (fun i => Nat.eqb (InventoryItem.inventory_id i) iid
                                && Nat.eqb (InventoryItem.product_id i) pid)
                      (inventory_items s) = false).
    { destruct (existsb _ _) eqn:E; [|reflexivity].
      apply existsb_exists in E as (i & Hi & Ei).
      apply andb_true_iff in Ei as [E1 E2].
      apply Nat.eqb_eq in E1, E2. exfalso.
      apply (Hnew i Hi E1). left. now symmetry. }
    rewrite Huniq. subst s. store_simpl.
    rewrite IH; try assumption.
    + cbn [number_inventory_items List.length]. rewrite <- app_assoc.
      cbn [app]. now rewrite Nat.add_succ_r.
    + intros i Hi Ei Hin. apply in_app_iff in Hi as [Hi|[<-|[]]].
      * apply (Hnew i Hi Ei). now right.
      * cbn in Hin. contradiction.
Qed.

Lemma inventory_items_written loaded iid ids :
  forall i,
    Forall2 (inventory_item_written loaded iid) ids
      (number_inventory_items i
         (map (fun pid => NewInventoryItem.mk iid pid (loaded_stock loaded pid))
            ids)).
Proof.
  induction ids as [|pid ids IH]; intros i; cbn; constructor.
  - repeat split.
  - apply IH.
Qed.

(** X7.  Creating an inventory on a well-formed store, for a selection
    without duplicates of products that exist, succeeds: it stores the
    inventory as a draft and, for every selected product in the order of the
    selection, an item that is not counted yet and expects the stock the
    product has in the list the component loaded (0 when that list does not
    have the product).  No movement is written and no stock changes. *)
Theorem create_inventory_records_loaded_stock loaded inventoryData s :
  well_formed s = true ->
  distinct_ids (ci_product_ids inventoryData) = true ->
  forallb (fun pid => has_product pid s) (ci_product_ids inventoryData) = true ->
  exists s' rows,
    handleCreateInventory loaded inventoryData s = (Ok tt, s')
    /\ inventories s'
       = inventories s
         ++ [Inventory.mk (next_uuid s) (ci_name inventoryData) draft None]
    /\ inventory_items s' = inventory_items s ++ rows
    /\ Forall2 (inventory_item_written loaded (next_uuid s))
         (ci_product_ids inventoryData) rows
    /\ products s' = products s
    /\ stock_movements s' = stock_movements s.
Proof.
  intros Hwf Hnd Hps. apply well_formed_WF in Hwf.
  apply distinct_ids_NoDup in Hnd.
  destruct s as [ps ms invs iis ivs ivis sls slis n].
  unfold handleCreateInventory, bind, insert_inventory, statement. store_simpl.
  cbn [Inventory.id]. fold (loaded_stock loaded).
  unfold insert_inventory_items, statement.
  change (map _ (ci_product_ids inventoryData))
    with (map (fun pid => NewInventoryItem.mk n pid (loaded_stock loaded pid))
            (ci_product_ids inventoryData)).
  rewrite (insert_inventory_item_rows_run n (loaded_stock loaded)).
  - eexists _, _. split; [reflexivity|]. store_simpl.
    split; [reflexivity|]. split; [reflexivity|].
    split; [apply inventory_items_written|]. split; reflexivity.
  - unfold has_inventory. store_simpl. rewrite existsb_app_last.
    cbn [Inventory.id]. now rewrite Nat.eqb_refl, orb_true_r.
  - exact Hps.
  - exact Hnd.
  - intros i Hi Ei _. apply (wf_inventory_items _ Hwf) in Hi as [Hi _].
    apply has_inventory_In in Hi as (j & Hj & Ej).
    apply (wf_inventories _ Hwf) in Hj. store_simpl. lia.
Qed.

Lemma insert_inventory_item_rows_unknown_product ns :
  forall s,
    forallb (fun x => has_product (NewInventoryItem.product_id x) s) ns = false ->
    exists e, insert_inventory_item_rows ns s = Err e.
Proof.
  induction ns as [|x ns IH]; intros s Hp; [discriminate|].
  cbn [forallb] in Hp. cbn [insert_inventory_item_rows].
  destruct (has_inventory _ s); cbn [negb]; [|eexists; reflexivity].
  destruct (has_product (NewInventoryItem.product_id x) s) eqn:E; cbn [negb];
    [|eexists; reflexivity].
  destruct (existsb _ _); [eexists; reflexivity|].
  cbn [andb] in Hp. apply IH. exact Hp.
Qed.

(** X8.  The statements of [handleCreateInventory] are not one transaction:
    when a selected product does not exist any more, the insertion of the
    items is refused as a whole, and the draft inventory that was stored
    first stays, without any item. *)
Theorem create_inventory_of_unknown_product_leaves_draft loaded inventoryData s :
  forallb (fun pid => has_product pid s) (ci_product_ids inventoryData) = false ->
  exists e s',
    handleCreateInventory loaded inventoryData s = (Err e, s')
    /\ inventories s'
       = inventories s
         ++ [Inventory.mk (next_uuid s) (ci_name inventoryData) draft None]
    /\ inventory_items s' = inventory_items s
    /\ products s' = products s
    /\ stock_movements s' = stock_movements s.
Proof.
  intros Hps.
  destruct s as [ps ms invs iis ivs ivis sls slis n].
  unfold handleCreateInventory, bind, insert_inventory, statement. store_simpl.
  unfold insert_inventory_items, statement.
  match goal with
  | |- context [insert_inventory_item_rows ?ns ?st] =>
      destruct (insert_inventory_item_rows_unknown_product ns st) as (e & He)
  end.
  - rewrite <- Hps. unfold has_product. store_simpl.
    generalize (ci_product_ids inventoryData). intros ids.
    induction ids as [|pid ids IH]; cbn [map forallb]; [reflexivity|].
    now rewrite IH.
  - rewrite He. exists e. eexists. split; [reflexivity|]. store_simpl.
    repeat split.
Qed.

(** ** The selection of the inventory form *)

Lemma toggle_NoDup productId formData :
  NoDup (ci_product_ids formData) ->
  NoDup (ci_product_ids (InventoryForm.handleProductToggle productId formData)).
Proof.
  intros H. unfold InventoryForm.handleProductToggle. cbn [ci_product_ids].
  destruct (existsb _ _) eqn:E.
  - apply NoDup_filter. exact H.
  - apply NoDup_app_last; [exact H|].
    intros Hin.
    assert (existsb (fun id => Nat.eqb id productId) (ci_product_ids formData)
            = true)
      by (apply existsb_exists; exists productId; split;
          [exact Hin|apply Nat.eqb_refl]).
    congruence.
Qed.

Lemma toggle_In productId formData q :
  In q (ci_product_ids (InventoryForm.handleProductToggle productId formData))
  <-> (q = productId /\ ~ In productId (ci_product_ids formData))
      \/ (q <> productId /\ In q (ci_product_ids formData)).
Proof.
  unfold InventoryForm.handleProductToggle. cbn [ci_product_ids].
  destruct (existsb _ _) eqn:E.
  - apply existsb_exists in E as (x & Hx & Ex). apply Nat.eqb_eq in Ex. subst x.
    rewrite filter_In, negb_true_iff, Nat.eqb_neq. tauto.
  - rewrite in_app_iff. cbn [In].
    assert (Hno : ~ In productId (ci_product_ids formData)).
    { intros Hin.
      assert (existsb (fun id => Nat.eqb id productId) (ci_product_ids formData)
              = true)
        by (apply existsb_exists; exists productId; split;
            [exact Hin|apply Nat.eqb_refl]).
      congruence. }
    destruct (Nat.eq_dec q productId) as [->|Hne]; [tauto|].
    split; [intros [H|[H|[]]]; [tauto|congruence]|tauto].
Qed.
Lemma run_click_selection products c formData :
  NoDup (map Product.id products) ->
  InventoryForm.rendered products c = true ->
  NoDup (ci_product_ids formData)
  /\ (forall pid, In pid (ci_product_ids formData) ->
        In pid (map Product.id products)) ->
  NoDup (ci_product_ids (InventoryForm.run_click products c formData))
  /\ (forall pid,
        In pid (ci_product_ids (InventoryForm.run_click products c formData)) ->
        In pid (map Product.id products)).
Proof.
  intros Hps Hc [Hnd Hin].
  destruct c as [value|productId|]; cbn [InventoryForm.run_click].
  - now split.
  - split; [now apply toggle_NoDup|].
    intros pid Hpid. apply toggle_In in Hpid as [[-> _]|[_ Hpid]];
      [|now apply Hin].
    cbn [InventoryForm.rendered] in Hc.
    apply existsb_exists in Hc as (p & Hp & E). apply Nat.eqb_eq in E.
    apply in_map_iff. now exists p.
  - unfold InventoryForm.handleSelectAll. cbn [ci_product_ids].
    destruct (Nat.eqb _ _).
    + split; [constructor|intros pid []].
    + split; [exact Hps|tauto].
Qed.

(** X9.  The selection of the inventory form: whatever is typed as the name,
    whatever check boxes of listed products are clicked and however often
    all are selected, starting from the empty selection the form opens with,
    no product is selected twice and only products of the list are selected;
    the form is sent exactly when the selection is not empty.  (These are
    the conditions under which the creation of the inventory succeeds.) *)
Theorem inventory_form_selects_listed_products_once products name cs :
  distinct_ids (map Product.id products) = true ->
  forallb (InventoryForm.rendered products) cs = true ->
  let formData :=
    InventoryForm.run_clicks products cs (mkCreateInventory name []) in
  distinct_ids (ci_product_ids formData) = true
  /\ forallb (fun pid => existsb (fun p => Nat.eqb (Product.id p) pid) products)
       (ci_product_ids formData) = true
  /\ InventoryForm.handleSubmit formData
     = match ci_product_ids formData with
       | [] => None
       | _ :: _ => Some formData
       end.
Proof.
  intros Hps Hcs. apply distinct_ids_NoDup in Hps. cbn zeta.
  assert (H : forall d,
             NoDup (ci_product_ids d)
             /\ (forall pid, In pid (ci_product_ids d) ->
                   In pid (map Product.id products)) ->
             let d' := InventoryForm.run_clicks products cs d in
             NoDup (ci_product_ids d')
             /\ (forall pid, In pid (ci_product_ids d') ->
                   In pid (map Product.id products))).
  { unfold InventoryForm.run_clicks.
    induction cs as [|c cs IH]; intros d Hd; cbn [fold_left]; [exact Hd|].
    cbn [forallb] in Hcs. apply andb_true_iff in Hcs as [Hc Hcs].
    apply (IH Hcs). now apply run_click_selection. }
  destruct (H (mkCreateInventory name [])) as [Hnd Hin].
  { split; [constructor|intros pid []]. }
  cbn zeta in *. split; [now apply distinct_ids_NoDup|].
  split.
  { apply forallb_forall. intros pid Hpid. apply Hin in Hpid.
    apply in_map_iff in Hpid as (p & E & Hp).
    apply existsb_exists. exists p. split; [exact Hp|]. now apply Nat.eqb_eq. }
  unfold InventoryForm.handleSubmit.
  now destruct (ci_product_ids _).
Qed.
(** ** Counting, the report and the completion *)

Lemma fold_left_sum {A : Type} (f : A -> Q) l :
  forall acc,
    (fold_left (fun sum x => sum + f x) l acc
     == acc + fold_right (fun x sum => f x + sum) 0 l)%Q.
Proof.
  induction l as [|x l IH]; intros acc; cbn [fold_left fold_right].
  - ring.
  - rewrite IH. ring.
Qed.

Lemma sum_Permutation {A : Type} (f : A -> Q) l l' :
  Permutation l l' ->
  (fold_right (fun x sum => f x + sum) 0 l
   == fold_right (fun x sum => f x + sum) 0 l')%Q.
Proof.
  induction 1 as [|x l l' _ IH|x y l|l l' l'' _ IH1 _ IH2]; cbn [fold_right].
  - reflexivity.
  - now rewrite IH.
  - ring.
  - now rewrite IH1.
Qed.

Lemma filter_length_Permutation {A : Type} (f : A -> bool) l l' :
  Permutation l l' -> List.length (filter f l) = List.length (filter f l').
Proof.
  induction 1 as [|x l l' _ IH|x y l|l l' l'' _ IH1 _ IH2]; cbn [filter].
  - reflexivity.
  - destruct (f x); cbn [List.length]; now rewrite IH.
  - destruct (f x), (f y); reflexivity.
  - now rewrite IH1.
Qed.

Lemma difference_or_0_eq it :
  (InventoryReport.difference_or_0 it
   == match InventoryItem.difference it with
      | Some d => d
      | None => 0
      end)%Q.
Proof.
  unfold InventoryReport.difference_or_0.
  destruct (InventoryItem.difference it) as [d|]; [|reflexivity].
  destruct (Qeq_bool d 0) eqn:E; [|reflexivity].
  apply Qeq_bool_iff in E. now rewrite E.
Qed.

Lemma completion_total iid its :
  (total_quantity (completion_movements iid its)
   == fold_right (fun it sum => InventoryReport.difference_or_0 it + sum) 0
        (filter (fun it => Nat.eqb (InventoryItem.inventory_id it) iid) its))%Q.
Proof.
  unfold completion_movements.
  induction its as [|it its IH]; cbn [with_difference filter map total_quantity
                                      fold_right]; [reflexivity|].
  destruct (Nat.eqb (InventoryItem.inventory_id it) iid); [|exact IH].
  cbn [fold_right]. rewrite difference_or_0_eq.
  destruct (InventoryItem.difference it) as [d|].
  - cbn [filter snd]. destruct (Qeq_bool d 0) eqn:E; cbn [negb map total_quantity].
    + apply Qeq_bool_iff in E. rewrite IH, E. ring.
    + cbn [inventory_movement NewStockMovement.quantity snd]. now rewrite IH.
  - rewrite IH. ring.
Qed.

Lemma status_cases it :
  match InventoryItem.difference it with
  | None => InventoryReport.status it = "Nie policzono"
  | Some d =>
      if Qeq_bool d 0 then InventoryReport.status it = "OK"
      else if Qle_bool d 0 then InventoryReport.status it = "Niedobór"
      else InventoryReport.status it = "Nadwyżka"
  end.
Proof.
  unfold InventoryReport.status, InventoryReport.difference_or_0,
    InventoryItem.difference.
  destruct (InventoryItem.counted_quantity it) as [c|]; [|reflexivity].
  destruct (Qeq_bool (c - InventoryItem.expected_quantity it) 0) eqn:E.
  - reflexivity.
  - rewrite E. now destruct (Qle_bool _ 0).
Qed.

(** X10.  The inventory report and the completion agree.  For the items of
    an inventory as the modal loads them, in any order: an item is reported
    as not counted exactly when it has no count, so a count of 0 is a count;
    an item is reported as a surplus or as a shortage exactly when the
    completion writes a correction for it, and the wording of the note of that
    correction is the one of the report; the total difference of the report
    is the sum of the quantities of the corrections; and the number of
    counted items is the number of items the completion selects. *)
Theorem report_agrees_with_completion iid s items :
  Permutation items (items_of_inventory iid s) ->
  (forall it, In it items ->
     (InventoryReport.status it = "Nie policzono"
      <-> InventoryItem.counted_quantity it = None)
     /\ (InventoryReport.status it = "Nadwyżka"
         \/ InventoryReport.status it = "Niedobór"
         <-> counted_with_difference iid it = true)
     /\ (forall d, InventoryItem.difference it = Some d ->
           (InventoryReport.status it = "Nadwyżka" ->
            NewStockMovement.notes (inventory_movement iid (it, d))
            = "Korekta inwentaryzacyjna: nadwyżka")
           /\ (InventoryReport.status it = "Niedobór" ->
               NewStockMovement.notes (inventory_movement iid (it, d))
               = "Korekta inwentaryzacyjna: niedobór")))
  /\ (InventoryReport.totalDifference items
      == total_quantity (completion_movements iid (inventory_items s)))%Q
  /\ InventoryReport.countedItems items
     = List.length (with_difference iid (inventory_items s)).
Proof.
  intros Hperm. split; [|split].
  - intros it Hit.
    assert (Hiid : Nat.eqb (InventoryItem.inventory_id it) iid = true).
    { apply (Permutation_in _ Hperm) in Hit.
      unfold items_of_inventory in Hit. now apply filter_In in Hit. }
    pose proof (status_cases it) as Hst.
    unfold counted_with_difference. rewrite Hiid. cbn [andb].
    unfold InventoryItem.difference in *.
    destruct (InventoryItem.counted_quantity it) as [c|].
    + set (d := (c - InventoryItem.expected_quantity it)%Q) in *.
      split; [|split].
      * destruct (Qeq_bool d 0); [|destruct (Qle_bool d 0)]; rewrite Hst;
          split; discriminate.
      * destruct (Qeq_bool d 0); [|destruct (Qle_bool d 0)]; rewrite Hst;
          cbn [negb]; split; try tauto; try discriminate;
          intros [H|H]; discriminate.
      * intros d' [= <-]. unfold inventory_movement.
        cbn [NewStockMovement.notes snd].
        destruct (Qeq_bool d 0); [|destruct (Qle_bool d 0)]; rewrite Hst;
          cbn [negb]; split; intros H; try discriminate H; reflexivity.
    + split; [tauto|]. split.
      * rewrite Hst. split; [intros [H|H]; discriminate|discriminate].
      * discriminate.
  - unfold InventoryReport.totalDifference.
    rewrite fold_left_sum, completion_total.
    rewrite (sum_Permutation _ _ _ Hperm). unfold items_of_inventory. ring.
  - unfold InventoryReport.countedItems.
    rewrite (filter_length_Permutation _ _ _ Hperm).
    unfold items_of_inventory.
    induction (inventory_items s) as [|it its IH]; cbn [filter with_difference];
      [reflexivity|].
    destruct (Nat.eqb (InventoryItem.inventory_id it) iid); [|exact IH].
    cbn [filter]. unfold InventoryItem.difference.
    destruct (InventoryItem.counted_quantity it); cbn [List.length];
      now rewrite IH.
Qed.
(** ** Products *)

(** X11.  Deleting a product removes the product and, with it, every stock
    movement, inventory item and sale item that refers to it, and nothing
    else: the other products keep their rows and so their stock, the sales
    keep their total amounts, and the invoices and their items stay.  When
    the dialog is answered with no, nothing changes. *)
Theorem delete_product_removes_its_rows_only id s :
  exists s',
    handleDeleteProduct true id s = (Ok tt, s')
    /\ has_product id s' = false
    /\ products s'
       = filter (fun p => negb (Nat.eqb (Product.id p) id)) (products s)
    /\ (forall pid, pid <> id -> stock_of pid s' = stock_of pid s)
    /\ (forall m, In m (stock_movements s')
          <-> In m (stock_movements s) /\ StockMovement.product_id m <> id)
    /\ (forall i, In i (inventory_items s')
          <-> In i (inventory_items s) /\ InventoryItem.product_id i <> id)
    /\ (forall x, In x (sale_items s')
          <-> In x (sale_items s) /\ SaleItem.product_id x <> id)
    /\ sales s' = sales s
    /\ inventories s' = inventories s
    /\ invoices s' = invoices s
    /\ invoice_items s' = invoice_items s
    /\ handleDeleteProduct false id s = (Ok tt, s).
Proof.
  destruct s as [ps ms invs iis ivs ivis sls slis n].
  cbn [handleDeleteProduct]. rewrite delete_product_run.
  eexists. split; [reflexivity|]. store_simpl.
  split; [apply existsb_filter_out|]. split; [reflexivity|].
  split.
  { intros pid Hne. unfold stock_of. store_simpl.
    rewrite find_product_filter.
    apply Nat.eqb_neq in Hne. now rewrite Hne. }
  split; [intros m; rewrite filter_In, negb_true_iff, Nat.eqb_neq; tauto|].
  split; [intros m; rewrite filter_In, negb_true_iff, Nat.eqb_neq; tauto|].
  split; [intros m; rewrite filter_In, negb_true_iff, Nat.eqb_neq; tauto|].
  repeat split.
Qed.

Lemma or_0_eq x : (ProductForm.or_0 x == x)%Q.
Proof.
  unfold ProductForm.or_0. destruct (Qeq_bool x 0) eqn:E; [|reflexivity].
  apply Qeq_bool_iff in E. now rewrite E.
Qed.

Lemma edit_form_keeps_stock p cs :
  forallb (ProductForm.rendered (Some p)) cs = true ->
  forall d,
    pf_current_stock (ProductForm.run_changes cs d) = pf_current_stock d.
Proof.
  unfold ProductForm.run_changes.
  induction cs as [|c cs IH]; intros Hcs d; cbn [fold_left]; [reflexivity|].
  cbn [forallb] in Hcs. apply andb_true_iff in Hcs as [Hc Hcs].
  rewrite IH by exact Hcs. destruct c; try reflexivity. discriminate.
Qed.

Lemma update_product_stock_of pid name unit m c s k :
  stock_of k (snd (update_product pid name unit m c s))
  = if Nat.eqb k pid
       && negb (existsb (fun p => negb (Nat.eqb (Product.id p) pid)
                                  && String.eqb (Product.name p) name)
                  (products s))
    then option_map (fun _ => c) (stock_of k s)
    else stock_of k s.
Proof.
  unfold update_product, statement.
  set (taken := existsb (fun p => negb (Nat.eqb (Product.id p) pid)
                                  && String.eqb (Product.name p) name)
                  (products s)).
  destruct (existsb (fun p => Nat.eqb (Product.id p) pid) (products s)) eqn:Hhas.
  - destruct taken; cbn [andb negb snd].
    + now rewrite andb_false_r.
    + rewrite andb_true_r. unfold stock_of. store_simpl.
      rewrite find_product_map
        by (intros p; destruct (Nat.eqb _ _); reflexivity).
      destruct (find_product k (products s)) as [p|] eqn:Hf;
        [|now destruct (Nat.eqb k pid)].
      cbn [option_map].
      assert (Hp : Product.id p = k).
      { unfold find_product in Hf. apply find_some in Hf as [_ Hf].
        now apply Nat.eqb_eq. }
      rewrite Hp. now destruct (Nat.eqb k pid).
  - cbn [andb snd]. unfold stock_of. store_simpl.
    rewrite find_product_map
      by (intros p; destruct (Nat.eqb _ _); reflexivity).
    destruct (find_product k (products s)) as [p|] eqn:Hf;
      [|now destruct (_ && _)].
    cbn [option_map].
    assert (Hp : Product.id p = k).
    { unfold find_product in Hf. apply find_some in Hf as [_ Hf].
      now apply Nat.eqb_eq. }
    assert (Hk : Nat.eqb k pid = false).
    { destruct (Nat.eqb k pid) eqn:E; [|reflexivity].
      apply Nat.eqb_eq in E. subst k pid.
      assert (existsb (fun q => Nat.eqb (Product.id q) (Product.id p)) (products s)
              = true).
      { apply existsb_exists. exists p. split; [|apply Nat.eqb_refl].
        unfold find_product in Hf. now apply find_some in Hf. }
      congruence. }
    rewrite Hk, Hp, Hk. reflexivity.
Qed.

(** X12.  Editing a product writes back the stock the form was opened with.
    In the form of an existing product the input of the stock is not
    rendered, so whatever is edited, the stock the form sends is the stock of
    the row it was opened with; saving writes no movement, leaves every other
    product as it is, and sets the stock of the edited product to that value
    (or changes nothing, when the name is taken by another product).  So
    the stock stays what it is when the form was opened with the stored row,
    and a change of the stock made in between is undone. *)
Theorem edit_writes_back_the_stock_of_the_form editing cs s :
  forallb (ProductForm.rendered (Some editing)) cs = true ->
  let productData :=
    ProductForm.run_changes cs (ProductForm.initial (Some editing)) in
  let s' := snd (handleSaveProduct (Some editing) productData s) in
  (pf_current_stock productData == Product.current_stock editing)%Q
  /\ stock_movements s' = stock_movements s
  /\ (forall pid, pid <> Product.id editing -> stock_of pid s' = stock_of pid s)
  /\ (forall c, stock_of (Product.id editing) s = Some c ->
        exists c', stock_of (Product.id editing) s' = Some c'
                   /\ ((c' == Product.current_stock editing)%Q \/ c' = c))
  /\ (find_product (Product.id editing) (products s) = Some editing ->
      forall pid c, stock_of pid s = Some c ->
        exists c', stock_of pid s' = Some c' /\ (c' == c)%Q).
Proof.
  intros Hcs. cbn zeta.
  set (productData := ProductForm.run_changes cs (ProductForm.initial (Some editing))).
  assert (Hstock : (pf_current_stock productData == Product.current_stock editing)%Q).
  { unfold productData. rewrite (edit_form_keeps_stock editing cs Hcs).
    cbn [ProductForm.initial pf_current_stock]. apply or_0_eq. }
  cbn [handleSaveProduct].
  split; [exact Hstock|].
  split.
  { unfold update_product, statement.
    destruct (_ && _); reflexivity. }
  split.
  { intros pid Hne. rewrite update_product_stock_of.
    apply Nat.eqb_neq in Hne. now rewrite Hne. }
  split.
  { intros c Hc. rewrite update_product_stock_of, Hc, Nat.eqb_refl.
    cbn [andb option_map].
    destruct (negb _); eexists; (split; [reflexivity|]);
      [left; exact Hstock|now right]. }
  intros Hrow pid c Hc. rewrite update_product_stock_of, Hc.
  destruct (Nat.eqb pid (Product.id editing)) eqn:E; cbn [andb];
    [|exists c; split; reflexivity].
  cbn [option_map].
  destruct (negb _); eexists; (split; [reflexivity|]); [|reflexivity].
  rewrite Hstock. apply Nat.eqb_eq in E. subst pid.
  unfold stock_of in Hc. rewrite Hrow in Hc. cbn [option_map] in Hc.
  injection Hc as <-. reflexivity.
Qed.
(** ** An inventory from its creation to its completion *)

Lemma with_difference_app iid l1 l2 :
  with_difference iid (l1 ++ l2)
  = with_difference iid l1 ++ with_difference iid l2.
Proof.
  induction l1 as [|it l1 IH]; cbn [app with_difference]; [reflexivity|].
  destruct (Nat.eqb _ _); [|exact IH].
  destruct (InventoryItem.difference it); [|exact IH].
  cbn [app]. now rewrite IH.
Qed.

Lemma with_difference_other iid l :
  (forall it, In it l -> InventoryItem.inventory_id it <> iid) ->
  with_difference iid l = [].
Proof.
  induction l as [|it l IH]; intros H; cbn [with_difference]; [reflexivity|].
  destruct (Nat.eqb (InventoryItem.inventory_id it) iid) eqn:E.
  - apply Nat.eqb_eq in E. exfalso. apply (H it); [now left|exact E].
  - apply IH. intros x Hx. apply H. now right.
Qed.

(** ** The invoice editor *)

Lemma nth_error_replace_at index item items :
  index < List.length items ->
  nth_error (InvoiceEditor.replace_at index item items) index = Some item
  /\ (forall i, i <> index ->
        nth_error (InvoiceEditor.replace_at index item items) i
        = nth_error items i)
  /\ List.length (InvoiceEditor.replace_at index item items)
     = List.length items.
Proof.
  revert index. induction items as [|x items IH]; intros index Hlt;
    cbn [List.length] in Hlt; [lia|].
  destruct index as [|index]; cbn [InvoiceEditor.replace_at nth_error List.length].
  - split; [reflexivity|]. split; [|reflexivity].
    intros [|i] Hi; [contradiction|reflexivity].
  - destruct (IH index) as (H1 & H2 & H3); [lia|].
    split; [exact H1|]. split; [|now rewrite H3].
    intros [|i] Hi; [reflexivity|]. cbn [nth_error]. apply H2. lia.
Qed.

Lemma exact_totals_consistent d :
  (totalNet d == InvoicePDFParser.sum_total_net (items d))%Q ->
  (totalGross d == InvoicePDFParser.sum_total_gross (items d))%Q ->
  totals_consistent d.
Proof.
  intros Hn Hg. unfold totals_consistent. rewrite Hn, Hg. split.
  - setoid_replace
      (InvoicePDFParser.sum_total_net (items d)
       - InvoicePDFParser.sum_total_net (items d))%Q with 0%Q by ring.
    discriminate.
  - setoid_replace
      (InvoicePDFParser.sum_total_gross (items d)
       - InvoicePDFParser.sum_total_gross (items d))%Q with 0%Q by ring.
    discriminate.
Qed.

Lemma filter_index_all {A : Type} (keep : nat -> bool) (xs : list A) :
  forall i, (forall j, i <= j -> keep j = true) ->
            InvoiceEditor.filter_index keep i xs = xs.
Proof.
  induction xs as [|x xs IH]; intros i H; cbn [InvoiceEditor.filter_index];
    [reflexivity|].
  rewrite (H i) by lia. f_equal. apply IH. intros j Hj. apply H. lia.
Qed.

(** The filter of [removeItem] takes the element at the index out of the
    list, and nothing when the index is outside. *)
Lemma filter_index_removes {A : Type} (xs : list A) :
  forall keep start k,
    (forall i, keep i = negb (Nat.eqb i (start + k))) ->
    InvoiceEditor.filter_index keep start xs = firstn k xs ++ skipn (S k) xs.
Proof.
  induction xs as [|x xs IH]; intros keep start k Hkeep.
  - now destruct k.
  - cbn [InvoiceEditor.filter_index]. destruct k as [|k].
    + rewrite Hkeep, Nat.add_0_r, Nat.eqb_refl. cbn [negb firstn skipn app].
      apply filter_index_all. intros j Hj. rewrite Hkeep.
      apply negb_true_iff, Nat.eqb_neq. lia.
    + replace (keep start) with true
        by (rewrite Hkeep; symmetry; apply negb_true_iff, Nat.eqb_neq; lia).
      cbn [firstn skipn app]. f_equal. apply IH.
      intros i. rewrite Hkeep. do 2 f_equal. lia.
Qed.

(** X14.  An edit of an item in the invoice editor recalculates what depends
    on it.  For a row of the list and any of its fields, the row gets the
    assigned value, keeps its other fields and gets its quantity times its
    net price and times its gross price as totals; the other rows, their
    number and the header stay as they are; and the totals of the invoice
    become the sums of the totals of the rows, whatever they were before.
    Removing a row takes that row out of the list, leaves the others in
    their order, and makes the totals of the invoice the sums over the rows
    that are left. *)
Theorem item_edit_recalculates_totals index c editedData old :
  nth_error (items editedData) index = Some old ->
  exists d new,
    InvoiceEditor.handleItemChange index c editedData = Some d
    /\ nth_error (items d) index = Some new
    /\ InvoiceItem.name new
       = match c with
         | InvoiceEditor.set_name value => value
         | _ => InvoiceItem.name old
         end
    /\ InvoiceItem.quantity new
       = match c with
         | InvoiceEditor.set_quantity value => value
         | _ => InvoiceItem.quantity old
         end
    /\ InvoiceItem.unit new
       = match c with
         | InvoiceEditor.set_unit value => value
         | _ => InvoiceItem.unit old
         end
    /\ InvoiceItem.percentage new
       = match c with
         | InvoiceEditor.set_percentage value => value
         | _ => InvoiceItem.percentage old
         end
    /\ InvoiceItem.net_price new
       = match c with
         | InvoiceEditor.set_net_price value => value
         | _ => InvoiceItem.net_price old
         end
    /\ InvoiceItem.gross_price new
       = match c with
         | InvoiceEditor.set_gross_price value => value
         | _ => InvoiceItem.gross_price old
         end
    /\ InvoiceItem.total_net new
       = (InvoiceItem.quantity new * InvoiceItem.net_price new)%Q
    /\ InvoiceItem.total_gross new
       = (InvoiceItem.quantity new * InvoiceItem.gross_price new)%Q
    /\ (forall i, i <> index ->
          nth_error (items d) i = nth_error (items editedData) i)
    /\ List.length (items d) = List.length (items editedData)
    /\ (invoiceNumber d, date d, vendor d)
       = (invoiceNumber editedData, date editedData, vendor editedData)
    /\ totalNet d = InvoicePDFParser.sum_total_net (items d)
    /\ totalGross d = InvoicePDFParser.sum_total_gross (items d)
    /\ totals_consistent d
    /\ forall k,
         let d' := InvoiceEditor.removeItem k editedData in
         items d'
         = firstn k (items editedData) ++ skipn (S k) (items editedData)
         /\ totalNet d' = InvoicePDFParser.sum_total_net (items d')
         /\ totalGross d' = InvoicePDFParser.sum_total_gross (items d')
         /\ totals_consistent d'.
Proof.
  intros Hold.
  assert (Hlt : index < List.length (items editedData))
    by (apply nth_error_Some; congruence).
  eexists. exists (InvoiceEditor.with_totals (InvoiceEditor.assign c old)).
  unfold InvoiceEditor.handleItemChange. rewrite Hold.
  split; [reflexivity|].
  cbn [InvoiceEditor.recalculateTotals items totalNet totalGross invoiceNumber
       date vendor InvoiceEditor.with_items].
  destruct (nth_error_replace_at index
              (InvoiceEditor.with_totals (InvoiceEditor.assign c old))
              (items editedData) Hlt) as (H1 & H2 & H3).
  split; [exact H1|].
  do 6 (split; [destruct c; reflexivity|]).
  split; [reflexivity|]. split; [reflexivity|].
  split; [exact H2|]. split; [exact H3|]. split; [reflexivity|].
  split; [reflexivity|]. split; [reflexivity|].
  split; [apply exact_totals_consistent; reflexivity|].
  intros k. cbn zeta. unfold InvoiceEditor.removeItem.
  cbn [InvoiceEditor.recalculateTotals items totalNet totalGross
       InvoiceEditor.with_items].
  split; [apply (filter_index_removes _ _ 0 k); reflexivity|].
  split; [reflexivity|]. split; [reflexivity|].
  apply exact_totals_consistent; reflexivity.
Qed.

Lemma sum_total_net_app l x :
  (InvoicePDFParser.sum_total_net (l ++ [x])
   == InvoicePDFParser.sum_total_net l + InvoiceItem.total_net x)%Q.
Proof.
  unfold InvoicePDFParser.sum_total_net. rewrite fold_left_app. reflexivity.
Qed.

Lemma sum_total_gross_app l x :
  (InvoicePDFParser.sum_total_gross (l ++ [x])
   == InvoicePDFParser.sum_total_gross l + InvoiceItem.total_gross x)%Q.
Proof.
  unfold InvoicePDFParser.sum_total_gross. rewrite fold_left_app. reflexivity.
Qed.

Lemma Forall_replace_at (P : InvoiceItem.t -> Prop) index item items :
  P item -> Forall P items ->
  Forall P (InvoiceEditor.replace_at index item items).
Proof.
  intros Hitem. revert index.
  induction items as [|x items IH]; intros index H;
    cbn [InvoiceEditor.replace_at]; [destruct index; constructor|].
  inversion H as [|? ? Hx Hitems]; subst.
  destruct index as [|index]; constructor; auto.
Qed.

Lemma Forall_filter_index (P : InvoiceItem.t -> Prop) keep items :
  forall i, Forall P items -> Forall P (InvoiceEditor.filter_index keep i items).
Proof.
  induction items as [|x items IH]; intros i H; cbn [InvoiceEditor.filter_index];
    [constructor|].
  inversion H as [|? ? Hx Hitems]; subst.
  destruct (keep i); [constructor|]; auto.
Qed.

Lemma run_step_keeps_totals st d d' :
  InvoiceEditor.run_step st d = Some d' ->
  ((totalNet d == InvoicePDFParser.sum_total_net (items d))%Q
   /\ (totalGross d == InvoicePDFParser.sum_total_gross (items d))%Q
   /\ Forall item_totals (items d)) ->
  (totalNet d' == InvoicePDFParser.sum_total_net (items d'))%Q
  /\ (totalGross d' == InvoicePDFParser.sum_total_gross (items d'))%Q
  /\ Forall item_totals (items d').
Proof.
  intros Hrun (Hn & Hg & Hitems).
  destruct st as [c|index c| |index]; cbn [InvoiceEditor.run_step] in Hrun.
  - injection Hrun as <-. destruct c; cbn; repeat split; assumption.
  - unfold InvoiceEditor.handleItemChange in Hrun.
    destruct (nth_error (items d) index) as [old|]; [|discriminate].
    injection Hrun as <-.
    cbn [InvoiceEditor.recalculateTotals items totalNet totalGross].
    split; [reflexivity|]. split; [reflexivity|].
    apply Forall_replace_at; [split; reflexivity|exact Hitems].
  - injection Hrun as <-. unfold InvoiceEditor.addItem.
    cbn [InvoiceEditor.with_items items totalNet totalGross].
    rewrite sum_total_net_app, sum_total_gross_app, <- Hn, <- Hg.
    cbn [InvoiceEditor.newItem InvoiceItem.total_net InvoiceItem.total_gross].
    split; [ring|]. split; [ring|].
    apply Forall_app. split; [exact Hitems|].
    constructor; [|constructor]. split; reflexivity.
  - injection Hrun as <-. unfold InvoiceEditor.removeItem.
    cbn [InvoiceEditor.recalculateTotals items totalNet totalGross].
    split; [reflexivity|]. split; [reflexivity|].
    now apply Forall_filter_index.
Qed.

(** X15.  The invoice editor keeps an invoice consistent.  From an invoice
    whose totals are the sums of the totals of its items and whose items
    have their quantity times their prices as totals (as the empty invoice
    that is entered by hand), every sequence of changes of the header,
    changes of items, added items and removed items leads to an invoice of
    which the same holds: adding an item does not recalculate the totals,
    but the item it adds has totals of 0. *)
Theorem editor_keeps_invoice_consistent sts editedData d :
  (totalNet editedData
   == InvoicePDFParser.sum_total_net (items editedData))%Q ->
  (totalGross editedData
   == InvoicePDFParser.sum_total_gross (items editedData))%Q ->
  Forall item_totals (items editedData) ->
  InvoiceEditor.run_steps sts editedData = Some d ->
  (totalNet d == InvoicePDFParser.sum_total_net (items d))%Q
  /\ (totalGross d == InvoicePDFParser.sum_total_gross (items d))%Q
  /\ totals_consistent d
  /\ Forall item_totals (items d).
Proof.
  intros Hn Hg Hitems Hrun.
  assert (H : (totalNet d == InvoicePDFParser.sum_total_net (items d))%Q
              /\ (totalGross d == InvoicePDFParser.sum_total_gross (items d))%Q
              /\ Forall item_totals (items d)).
  { revert editedData Hn Hg Hitems Hrun.
    induction sts as [|st sts IH]; intros d0 Hn Hg Hitems Hrun;
      cbn [InvoiceEditor.run_steps] in Hrun.
    - injection Hrun as <-. repeat split; assumption.
    - destruct (InvoiceEditor.run_step st d0) as [d1|] eqn:Hst; [|discriminate].
      destruct (run_step_keeps_totals st d0 d1 Hst) as (H1 & H2 & H3);
        [repeat split; assumption|].
      now apply (IH d1). }
  destruct H as (H1 & H2 & H3).
  split; [exact H1|]. split; [exact H2|].
  split; [now apply exact_totals_consistent|exact H3].
Qed.
(** ** The parsers *)

Lemma length_str cs : String.length (str cs) = List.length cs.
Proof. rewrite <- length_chars. now rewrite chars_str. Qed.

Lemma length_append a b :
  String.length (a ++ b)%string = String.length a + String.length b.
Proof.
  rewrite <- !length_chars, chars_append. apply length_app.
Qed.

Lemma padStart0_idempotent n s : padStart0 n (padStart0 n s) = padStart0 n s.
Proof.
  unfold padStart0 at 1.
  replace (n - String.length (padStart0 n s)) with 0; [reflexivity|].
  unfold padStart0. rewrite length_append, length_str, repeat_length. lia.
Qed.

(** X16.  The normalisation of dates is stable.  For a token of three groups
    of digits whose year has four digits (as the patterns of the extractor
    require), the result of [formatDateToISO] is the current date when the
    token is rejected, and otherwise a date that [formatDateToISO] returns
    unchanged, whatever the current date is then: a date in the ISO format
    is left as it is. *)
Theorem normalised_date_is_stable today today' a b c s1 s2 :
  digit_string a = true -> digit_string b = true -> digit_string c = true ->
  is_date_separator s1 = true -> is_date_separator s2 = true ->
  String.length (if Nat.eqb (String.length a) 4 then a else c) = 4 ->
  let normalised :=
    InvoicePDFParser.formatDateToISO today
      (a ++ String s1 (b ++ String s2 c))%string in
  normalised = today
  \/ InvoicePDFParser.formatDateToISO today' normalised = normalised.
Proof.
  intros Ha Hb Hc H1 H2 Hlen. cbn zeta.
  rewrite formatDateToISO_token by assumption.
  assert (Hstable : forall year month day,
             digit_string year = true -> digit_string month = true ->
             digit_string day = true -> String.length year = 4 ->
             iso_or_today today year month day = today
             \/ InvoicePDFParser.formatDateToISO today'
                  (iso_or_today today year month day)
                = iso_or_today today year month day).
  { intros year month day Hy Hm Hd Hl. unfold iso_or_today.
    destruct (date_round_trips _ _ _) eqn:Hrt; [right|now left].
    change (year ++ "-" ++ padStart0 2 month ++ "-" ++ padStart0 2 day)%string
      with (year ++ String "-" (padStart0 2 month
                                ++ String "-" (padStart0 2 day)))%string.
    rewrite formatDateToISO_token;
      try reflexivity; try assumption; try now apply padStart0_digit_string.
    rewrite Hl. cbn [Nat.eqb]. unfold iso_or_today.
    rewrite !padStart0_value, Hrt, !padStart0_idempotent. reflexivity. }
  destruct (Nat.eqb (String.length a) 4); now apply Hstable.
Qed.
(** X17.  [validateDate] of [AIInvoiceParser] takes every string of the form
    of four digits, a hyphen, two digits, a hyphen and two digits as it is,
    without asking whether it is a day of the calendar, and takes the current
    date for the empty string.  So ["2024-02-31"] passes here, while
    [formatDateToISO] of the other parser replaces the same date by the
    current date. *)
Theorem validateDate_takes_iso_form_as_it_is today Date_parse
  y1 y2 y3 y4 m1 m2 d1 d2 :
  forallb is_digit [y1; y2; y3; y4; m1; m2; d1; d2] = true ->
  let dateStr := str [y1; y2; y3; y4; "-"%char; m1; m2; "-"%char; d1; d2] in
  AIInvoiceParser.validateDate today Date_parse dateStr = dateStr
  /\ AIInvoiceParser.validateDate today Date_parse "" = today
  /\ AIInvoiceParser.validateDate today Date_parse "2024-02-31" = "2024-02-31"
  /\ InvoicePDFParser.formatDateToISO today "2024-02-31" = today.
Proof.
  intros H. cbn [forallb] in H.
  repeat (apply andb_true_iff in H as [?H H]). clear H.
  unfold is_digit in *. cbn zeta.
  split; [|repeat split].
  unfold AIInvoiceParser.validateDate.
  cbv - [in_range].
  repeat match goal with
         | Hd : in_range _ _ ?c = true |- _ => rewrite Hd; clear Hd
         end.
  reflexivity.
Qed.
Lemma replace_first_chars_digits ds rest :
  forallb is_digit ds = true ->
  replace_first_chars "," "." (ds ++ ","%char :: rest) = ds ++ "."%char :: rest.
Proof.
  induction ds as [|d ds IH]; cbn [forallb app replace_first_chars]; intros H.
  - reflexivity.
  - apply andb_true_iff in H as [Hd H].
    destruct (Ascii.eqb d ",") eqn:E.
    + apply Ascii.eqb_eq in E. subst d. discriminate.
    + now rewrite IH.
Qed.

Lemma take_digits_app ds x rest :
  forallb is_digit ds = true -> is_digit x = false ->
  take_digits (ds ++ x :: rest) = (ds, x :: rest).
Proof.
  intros H Hx. induction ds as [|d ds IH]; cbn [app take_digits].
  - now rewrite Hx.
  - cbn [forallb] in H. apply andb_true_iff in H as [Hd H].
    now rewrite Hd, IH.
Qed.

Local Open Scope Z_scope.

Lemma digits_value_app xs ys :
  digits_value (xs ++ ys)
  = digits_value xs * 10 ^ Z.of_nat (List.length ys) + digits_value ys.
Proof.
  unfold digits_value. rewrite fold_left_app.
  generalize (fold_left (fun acc d => 10 * acc + digit_value d) xs 0).
  induction ys as [|y ys IH]; intros acc; cbn [fold_left List.length].
  - cbn. lia.
  - rewrite (IH (10 * acc + digit_value y)), (IH (10 * 0 + digit_value y)).
    rewrite Nat2Z.inj_succ, Z.pow_succ_r by lia. ring.
Qed.

Lemma pow10_pos n : Z.pos (pow10 n) = 10 ^ Z.of_nat n.
Proof.
  unfold pow10. apply Z2Pos.id. apply Z.pow_pos_nonneg; lia.
Qed.

Local Close Scope Z_scope.

Lemma parseFloat_decimal a b :
  digit_string a = true -> forallb is_digit (chars b) = true ->
  parseFloat (a ++ String "." b)
  = Some (Qred (Qmake (digits_value (chars a ++ chars b))
                  (pow10 (String.length b)) * 1)).
Proof.
  unfold digit_string. intros Ha Hb. apply andb_true_iff in Ha as [Hne Ha].
  unfold parseFloat. rewrite chars_append.
  change (chars (String "." b)) with ("."%char :: chars b).
  destruct (chars a) as [|c cs] eqn:Hs.
  - apply chars_nil in Hs. subst a. discriminate.
  - cbn [forallb] in Ha. apply andb_true_iff in Ha as [Hc Hcs].
    cbn [app drop_spaces]. rewrite (digit_not_space c Hc).
    rewrite (split_sign_digit c _ Hc).
    change (c :: cs ++ "."%char :: chars b)
      with ((c :: cs) ++ "."%char :: chars b).
    rewrite take_digits_app; [|cbn [forallb]; now rewrite Hc, Hcs|reflexivity].
    rewrite (take_digits_all _ Hb). cbn [app exponent_part].
    now rewrite length_chars.
Qed.

(** The number read from two groups of digits with a comma between them
    ([replace] of the comma by a point, then [parseFloat]) is the number read
    from them with a point: the first group as the integer part and the
    second as the decimal places. *)
Lemma comma_read_as_point a b :
  digit_string a = true -> digit_string b = true ->
  exists q,
    parseFloat (replace_first "," "." (a ++ String "," b)) = Some q
    /\ parseFloat (a ++ String "." b) = Some q
    /\ (q * inject_Z (10 ^ Z.of_nat (String.length b))
        == inject_Z (digits_value (chars a) * 10 ^ Z.of_nat (String.length b)
                     + digits_value (chars b)))%Q.
Proof.
  intros Ha Hb.
  assert (Hbd : forallb is_digit (chars b) = true).
  { unfold digit_string in Hb. now apply andb_true_iff in Hb as [_ Hb]. }
  assert (Had : forallb is_digit (chars a) = true).
  { unfold digit_string in Ha. now apply andb_true_iff in Ha as [_ Ha]. }
  eexists. split; [|split; [now apply parseFloat_decimal|]].
  - unfold replace_first. rewrite chars_append.
    change (chars (String "," b)) with (","%char :: chars b).
    rewrite replace_first_chars_digits by exact Had.
    change ("."%char :: chars b) with (chars (String "." b)).
    rewrite <- chars_append, str_chars. now apply parseFloat_decimal.
  - rewrite Qred_correct, digits_value_app, length_chars.
    unfold Qeq, Qmult, inject_Z. cbn [Qnum Qden].
    rewrite !Pos2Z.inj_mul, pow10_pos. ring.
Qed.

(** X18.  The item extractor reads a decimal comma as a decimal point.  For
    a match of an item pattern whose quantity is written as two groups of
    digits with a comma between them, and whose net price is written so, the
    item that [extractItems] pushes has as quantity and as net price the
    numbers with the first group as integer part and the second as decimal
    places, the same as if they were written with a point, and as net total
    their product. *)
Theorem decimal_comma_is_read_as_point m qa qb na nb :
  digit_string qa = true -> digit_string qb = true ->
  digit_string na = true -> digit_string nb = true ->
  group 2 m = Some (qa ++ String "," qb)%string ->
  group 4 m = Some (na ++ String "," nb)%string ->
  let item := InvoicePDFParser.item_of_match m in
  (InvoiceItem.quantity item * inject_Z (10 ^ Z.of_nat (String.length qb))
   == inject_Z (digits_value (chars qa) * 10 ^ Z.of_nat (String.length qb)
                + digits_value (chars qb)))%Q
  /\ (InvoiceItem.net_price item * inject_Z (10 ^ Z.of_nat (String.length nb))
      == inject_Z (digits_value (chars na) * 10 ^ Z.of_nat (String.length nb)
                   + digits_value (chars nb)))%Q
  /\ parseFloat (qa ++ String "." qb) = Some (InvoiceItem.quantity item)
  /\ parseFloat (na ++ String "." nb) = Some (InvoiceItem.net_price item)
  /\ InvoiceItem.total_net item
     = (InvoiceItem.quantity item * InvoiceItem.net_price item)%Q.
Proof.
  intros Hqa Hqb Hna Hnb Hq Hn. cbn zeta.
  destruct (comma_read_as_point qa qb Hqa Hqb) as (q & Hq1 & Hq2 & Hq3).
  destruct (comma_read_as_point na nb Hna Hnb) as (n & Hn1 & Hn2 & Hn3).
  unfold InvoicePDFParser.item_of_match, group_text. rewrite Hq, Hn.
  cbn [InvoiceItem.quantity InvoiceItem.net_price InvoiceItem.total_net].
  rewrite Hq1, Hn1. cbn [InvoicePDFParser.number_of].
  repeat split; assumption || reflexivity.
Qed.

(** X19.  The heuristic result of [InvoicePDFParser] is consistent, whatever
    the text: it has at least one item and at most two for each line of the
    text (one when no line matches), every item has its quantity times its
    prices as totals, and the totals of the invoice are the sums of the
    totals of the items. *)
Theorem heuristic_result_is_consistent today text :
  let d := InvoicePDFParser.heuristic today text in
  items d <> []
  /\ List.length (items d)
     <= Nat.max 1 (2 * List.length (split (ascii_of_nat 10) text))
  /\ Forall item_totals (items d)
  /\ totalNet d = InvoicePDFParser.sum_total_net (items d)
  /\ totalGross d = InvoicePDFParser.sum_total_gross (items d)
  /\ totals_consistent d.
Proof.
  cbn zeta. unfold InvoicePDFParser.heuristic. cbn [items totalNet totalGross].
  split; [|split; [|split; [|split; [reflexivity|split; [reflexivity|]]]]].
  - unfold InvoicePDFParser.extractItems.
    destruct (flat_map _ _); discriminate.
  - unfold InvoicePDFParser.extractItems.
    assert (H : List.length
                  (flat_map (fun line => InvoicePDFParser.line_items (trim line))
                     (split (ascii_of_nat 10) text))
                <= 2 * List.length (split (ascii_of_nat 10) text)).
    { induction (split (ascii_of_nat 10) text) as [|line lines IH];
        cbn [flat_map List.length]; [lia|].
      rewrite length_app.
      pose proof (line_items_at_most_two (trim line)). lia. }
    destruct (flat_map _ _); cbn [List.length] in *; lia.
  - apply Forall_forall. intros item. apply extractItems_item_totals.
  - apply (heuristic_totals_consistent today text).
Qed.
(** X20.  Without the completion service every upload is the same invoice.
    When the service fails, [parsePDF] returns, for every file, the result
    of the fallback on the fixed sample text: the invoice number ["VAT"]
    (the word that follows FAKTURA in the sample, which the first pattern
    takes for the number), the vendor of the sample, the date of the sample
    (the current date when it is not read) and the placeholder item.  So
    once such an invoice is confirmed, the next one is refused for its
    number, unless it is edited first. *)
Theorem fallback_invoices_share_their_number today Date_parse e s s' :
  let parsed := InvoicePDFParser.parsePDF today Date_parse (fun _ => Err e) in
  invoiceNumber parsed = "VAT"
  /\ vendor parsed = "ABC Company Sp. z o.o."
  /\ date parsed = match Date_parse "15.01.2024" with
                   | Some iso => iso
                   | None => today
                   end
  /\ items parsed = [placeholder_item]
  /\ (handleConfirmInvoice parsed s = (Ok tt, s') ->
      forall today' Date_parse' e',
        handleConfirmInvoice
          (InvoicePDFParser.parsePDF today' Date_parse' (fun _ => Err e')) s'
        = (Err (unique_violation "invoices_invoice_number_key"), s')).
Proof.
  cbn zeta.
  assert (Hnum : forall t dp e0,
             invoiceNumber (InvoicePDFParser.parsePDF t dp (fun _ => Err e0))
             = "VAT").
  { intros t dp e0. vm_compute. reflexivity. }
  split; [apply Hnum|].
  split; [vm_compute; reflexivity|].
  split.
  { unfold InvoicePDFParser.parsePDF, AIInvoiceParser.parseInvoiceWithAI,
      AIInvoiceParser.fallbackParsing. cbn [date].
    unfold AIInvoiceParser.extractDate.
    assert (Hm : option_map whole
                   (first_match false date_patterns
                      InvoicePDFParser.simulatePDFText)
                 = Some "15.01.2024") by (vm_compute; reflexivity).
    destruct (first_match false date_patterns InvoicePDFParser.simulatePDFText)
      as [m|]; [|discriminate].
    cbn [option_map] in Hm. injection Hm as ->.
    unfold AIInvoiceParser.validateDate.
    replace (js_match false iso_date_pattern "15.01.2024") with (@None regex_match)
      by (vm_compute; reflexivity).
    reflexivity. }
  split; [reflexivity|].
  intros Hrun today' Date_parse' e'.
  apply confirm_refused. rewrite Hnum, <- (Hnum today Date_parse e).
  now apply confirm_stores_invoice_number with (s := s).
Qed.
(** ** Witnesses *)

(** X1, witness: the sample session from the empty store. *)
Lemma reachable_stores_witness :
  well_formed (run_actions sample_session empty_store) = true.
Proof.
  apply (reachable_stores_are_well_formed sample_session empty_store).
  reflexivity.
Defined.

(** X2, witness: the sample session from the empty store; the product that
    is left has the sum of its two movements, 1 and -1, as its stock. *)
Lemma handlers_keep_ledger_witness :
  exists c,
    stock_of 3 (run_actions sample_session empty_store) = Some c
    /\ (c == ledger_sum 3%nat
               (stock_movements (run_actions sample_session empty_store)))%Q
    /\ map StockMovement.quantity
         (stock_movements (run_actions sample_session empty_store))
       = [1%Q; (-1)%Q].
Proof.
  assert (H0 : ledger_invariant empty_store)
    by (intros pid c H; discriminate H).
  exists 0%Q. split; [reflexivity|]. split; [|reflexivity].
  exact (handlers_keep_stock_equal_to_ledger sample_session empty_store
           eq_refl H0 eq_refl 3 0%Q eq_refl).
Defined.


(** X7, witness: a second inventory of the product of the store. *)
Lemma create_inventory_witness :
  exists s' rows,
    handleCreateInventory [listed_product]
      (mkCreateInventory "Druga inwentaryzacja" [0]) store_with_draft_inventory
    = (Ok tt, s')
    /\ inventory_items s' = inventory_items store_with_draft_inventory ++ rows
    /\ Forall2 (inventory_item_written [listed_product] 3) [0] rows.
Proof.
  destruct (create_inventory_records_loaded_stock [listed_product]
              (mkCreateInventory "Druga inwentaryzacja" [0])
              store_with_draft_inventory eq_refl eq_refl eq_refl)
    as (s' & rows & Hrun & _ & Hi & Hw & _).
  exists s', rows. split; [exact Hrun|]. split; [exact Hi|exact Hw].
Defined.

(** X8, witness: an inventory of a product that is not in the store. *)
Lemma create_inventory_of_unknown_product_witness :
  exists e s',
    handleCreateInventory [listed_product]
      (mkCreateInventory "Inwentaryzacja" [0; 7]) store_with_draft_inventory
    = (Err e, s')
    /\ List.length (inventories s') = 2
    /\ inventory_items s' = inventory_items store_with_draft_inventory.
Proof.
  destruct (create_inventory_of_unknown_product_leaves_draft [listed_product]
              (mkCreateInventory "Inwentaryzacja" [0; 7])
              store_with_draft_inventory eq_refl)
    as (e & s' & Hrun & Hinv & Hi & _).
  exists e, s'. split; [exact Hrun|]. split; [now rewrite Hinv|exact Hi].
Defined.

(** X9, witness: a product checked, all selected (which deselects all, one
    of one being selected) and the product checked again. *)
Lemma inventory_form_witness :
  ci_product_ids
    (InventoryForm.run_clicks [listed_product]
       [InventoryForm.click_product 0; InventoryForm.click_select_all;
        InventoryForm.click_product 0]
       (mkCreateInventory "Inwentaryzacja" []))
  = [0]
  /\ distinct_ids
       (ci_product_ids
          (InventoryForm.run_clicks [listed_product]
             [InventoryForm.click_product 0; InventoryForm.click_select_all;
              InventoryForm.click_product 0]
             (mkCreateInventory "Inwentaryzacja" []))) = true.
Proof.
  split; [reflexivity|].
  apply (inventory_form_selects_listed_products_once [listed_product]
           "Inwentaryzacja"
           [InventoryForm.click_product 0; InventoryForm.click_select_all;
            InventoryForm.click_product 0]); reflexivity.
Defined.

(** X10, witness: the counted inventory, 7 counted where 10 were expected. *)
Lemma report_agrees_with_completion_witness :
  (InventoryReport.totalDifference
     (items_of_inventory 1%nat store_with_counted_inventory)
   == total_quantity
        (completion_movements 1%nat
           (inventory_items store_with_counted_inventory)))%Q
  /\ map InventoryReport.status
       (items_of_inventory 1 store_with_counted_inventory)
     = ["Niedobór"].
Proof.
  split; [|reflexivity].
  apply (report_agrees_with_completion 1 store_with_counted_inventory
           (items_of_inventory 1 store_with_counted_inventory)).
  apply Permutation_refl.
Defined.

(** X12, witness: the product of the store renamed in the form. *)
Lemma edit_writes_back_witness :
  (pf_current_stock
     (ProductForm.run_changes [ProductForm.set_name "B"]
        (ProductForm.initial (Some listed_product))) == 10)%Q
  /\ stock_of 0
       (snd (handleSaveProduct (Some listed_product)
               (ProductForm.run_changes [ProductForm.set_name "B"]
                  (ProductForm.initial (Some listed_product)))
               store_with_draft_inventory))
     = Some 10%Q.
Proof.
  split; [|reflexivity].
  apply (edit_writes_back_the_stock_of_the_form listed_product
           [ProductForm.set_name "B"] store_with_draft_inventory).
  reflexivity.
Defined.

(** X14, witness: the quantity of the item of the fallback invoice set to 3;
    its net total becomes 300 and so does the net total of the invoice,
    which was 0. *)
Lemma item_edit_witness :
  exists d new,
    InvoiceEditor.handleItemChange 0 (InvoiceEditor.set_quantity 3%Q)
      fallback_invoice = Some d
    /\ nth_error (items d) 0 = Some new
    /\ InvoiceItem.quantity new = 3%Q
    /\ (InvoiceItem.total_net new == 300)%Q
    /\ (totalNet d == 300)%Q.
Proof.
  destruct (item_edit_recalculates_totals 0 (InvoiceEditor.set_quantity 3%Q)
              fallback_invoice placeholder_item eq_refl)
    as (d & new & Hrun & Hnew & _ & Hq & _ & _ & Hnp & _ & Htn & _ & Hother
        & Hlen & _ & Hn & _).
  exists d, new. split; [exact Hrun|]. split; [exact Hnew|].
  split; [exact Hq|].
  split; [rewrite Htn, Hq, Hnp; reflexivity|].
  rewrite Hn. destruct d as [? ? ? its ? ?]. cbn [items] in *.
  destruct its as [|x [|y its]]; cbn in Hlen; try discriminate.
  cbn in Hnew. injection Hnew as ->.
  unfold InvoicePDFParser.sum_total_net. cbn [fold_left].
  rewrite Htn, Hq, Hnp. reflexivity.
Defined.

(** X15, witness: an invoice entered by hand. *)
Lemma editor_keeps_invoice_consistent_witness :
  exists d,
    InvoiceEditor.run_steps sample_editing InvoiceEditor.manual_invoice = Some d
    /\ totals_consistent d
    /\ Forall item_totals (items d).
Proof.
  eexists. split; [reflexivity|].
  apply (editor_keeps_invoice_consistent sample_editing
           InvoiceEditor.manual_invoice).
  - reflexivity.
  - reflexivity.
  - constructor.
  - reflexivity.
Defined.

(** X16, witness: the token ["5.3.2024"]. *)
Lemma normalised_date_is_stable_witness :
  InvoicePDFParser.formatDateToISO "2025-07-15" "5.3.2024" = "2025-07-15"
  \/ InvoicePDFParser.formatDateToISO "2026-01-01"
       (InvoicePDFParser.formatDateToISO "2025-07-15" "5.3.2024")
     = InvoicePDFParser.formatDateToISO "2025-07-15" "5.3.2024".
Proof.
  apply (normalised_date_is_stable "2025-07-15" "2026-01-01" "5" "3" "2024"
           "." "."); reflexivity.
Defined.

(** X17, witness: the 30th of February. *)
Lemma validateDate_witness :
  AIInvoiceParser.validateDate "2025-07-15" (fun _ => None) "2024-02-30"
  = "2024-02-30".
Proof.
  apply (validateDate_takes_iso_form_as_it_is "2025-07-15" (fun _ => None)
           "2" "0" "2" "4" "0" "2" "3" "0").
  reflexivity.
Defined.

(** X18, witness: the line ["Kabel 2,5 m 12,50 23% 15,38"] gives 2.5 m at
    12.50. *)
Lemma decimal_comma_witness :
  exists m,
    js_match false (nth 0 item_patterns Empty) "Kabel 2,5 m 12,50 23% 15,38"
    = Some m
    /\ (InvoiceItem.quantity (InvoicePDFParser.item_of_match m) * inject_Z 10
        == inject_Z 25)%Q
    /\ (InvoiceItem.net_price (InvoicePDFParser.item_of_match m) * inject_Z 100
        == inject_Z 1250)%Q.
Proof.
  eexists. split; [vm_compute; reflexivity|].
  match goal with
  | |- context [InvoicePDFParser.item_of_match ?m] =>
      destruct (decimal_comma_is_read_as_point m "2" "5" "12" "50"
                  eq_refl eq_refl eq_refl eq_refl eq_refl eq_refl)
        as (Hq & Hn & _)
  end.
  split; [exact Hq|exact Hn].
Defined.
(** ** Ids that no row has *)

Lemma map_unchanged {A : Type} (f : A -> A) l :
  (forall x, In x l -> f x = x) -> map f l = l.
Proof.
  intros H. rewrite <- (map_id l) at 2. now apply map_ext_in.
Qed.

Lemma filter_unchanged {A : Type} (g : A -> bool) l :
  (forall x, In x l -> g x = true) -> filter g l = l.
Proof.
  induction l as [|x l IH]; intros H; cbn [filter]; [reflexivity|].
  rewrite (H x) by now left. f_equal. apply IH. intros y Hy. apply H. now right.
Qed.

Lemma update_inventory_missing iid st t s :
  has_inventory iid s = false -> update_inventory iid st t s = (Ok tt, s).
Proof.
  intros Hno. destruct s as [ps ms invs iis ivs ivis sls slis n].
  unfold update_inventory, statement. store_simpl.
  rewrite map_unchanged; [reflexivity|].
  intros i Hi.
  destruct (Nat.eqb (Inventory.id i) iid) eqn:E; [|reflexivity].
  assert (has_inventory iid (mkStore ps ms invs iis ivs ivis sls slis n) = true).
  { apply has_inventory_In. exists i. split; [exact Hi|]. now apply Nat.eqb_eq. }
  congruence.
Qed.

(** X21.  The handlers do not notice an id that no row has.  On a well-formed
    store, starting or completing an inventory that does not exist, recording
    a count for an item that does not exist and deleting a product that does
    not exist all report success and leave the store exactly as it was: the
    statements select no row, and selecting no row is not an error. *)
Theorem handlers_succeed_on_missing_ids now inventoryId itemId countedQuantity
  productId s :
  well_formed s = true ->
  (has_inventory inventoryId s = false ->
   handleStartInventory inventoryId s = (Ok tt, s)
   /\ handleCompleteInventory now inventoryId s = (Ok tt, s))
  /\ (find_inventory_item itemId s = None ->
      handleUpdateCount itemId countedQuantity s = (Ok tt, s))
  /\ (has_product productId s = false ->
      handleDeleteProduct true productId s = (Ok tt, s)).
Proof.
  intros Hwf. apply well_formed_WF in Hwf.
  destruct s as [ps ms invs iis ivs ivis sls slis n].
  split; [|split].
  - intros Hno. split.
    + unfold handleStartInventory. now apply update_inventory_missing.
    + rewrite handleCompleteInventory_run. cbn zeta.
      rewrite update_inventory_missing by exact Hno. cbn [snd].
      unfold completion_movements. cbn [inventory_items].
      rewrite with_difference_other; [reflexivity|].
      intros it Hit E. apply (wf_inventory_items _ Hwf) in Hit as [Hit _].
      rewrite E in Hit. congruence.
  - intros Hno. unfold handleUpdateCount, update_counted_quantity, statement.
    store_simpl. rewrite map_unchanged; [reflexivity|].
    intros i Hi.
    destruct (Nat.eqb (InventoryItem.id i) itemId) eqn:E; [|reflexivity].
    unfold find_inventory_item in Hno. store_simpl.
    apply (find_none _ _ Hno) in Hi. congruence.
  - intros Hno. cbn [handleDeleteProduct]. rewrite delete_product_run.
    assert (Hne : forall k,
               has_product k (mkStore ps ms invs iis ivs ivis sls slis n) = true ->
               negb (Nat.eqb k productId) = true).
    { intros k Hk. apply negb_true_iff, Nat.eqb_neq. intros ->. congruence. }
    rewrite !filter_unchanged; [reflexivity| | | |].
    + intros x Hx. apply Hne. now apply (wf_sale_items _ Hwf).
    + intros x Hx. apply Hne. now apply (wf_inventory_items _ Hwf).
    + intros x Hx. apply Hne. now apply (wf_movements _ Hwf).
    + intros p Hp. apply Hne. apply has_product_In. now exists p.
Qed.

(** X21, witness: ids that the store of the draft inventory does not have. *)
Lemma handlers_succeed_on_missing_ids_witness :
  handleStartInventory 9 store_with_draft_inventory
  = (Ok tt, store_with_draft_inventory)
  /\ handleCompleteInventory "2024-03-31" 9 store_with_draft_inventory
     = (Ok tt, store_with_draft_inventory).
Proof.
  apply (handlers_succeed_on_missing_ids "2024-03-31" 9 9 0%Q 9
           store_with_draft_inventory eq_refl).
  reflexivity.
Defined.
(** * The values of a request *)

(** ** The types of the columns *)

Lemma sgn_of_equal (q q' : Q) : (q == q')%Q -> Z.sgn (Qnum q) = Z.sgn (Qnum q').
Proof.
  unfold Qeq. destruct q as [n d], q' as [n' d']. cbn [Qnum Qden]. intros H.
  destruct n, n'; cbn in *; try reflexivity; try discriminate; lia.
Qed.

Lemma abs_of_equal (q q' : Q) :
  (q == q')%Q ->
  (Z.abs (Qnum q) * Z.pos (Qden q') = Z.abs (Qnum q') * Z.pos (Qden q))%Z.
Proof.
  unfold Qeq. intros H.
  rewrite <- (Z.abs_eq (Z.pos (Qden q'))), <- (Z.abs_eq (Z.pos (Qden q))) by lia.
  rewrite <- !Z.abs_mul. now rewrite H.
Qed.

(** The rounding is a function of the number, whatever fraction stands for
    it. *)
Lemma round_compat scale (q q' : Q) :
  (q == q')%Q -> Column.round scale q = Column.round scale q'.
Proof.
  intros H. unfold Column.round. apply Qred_complete.
  rewrite (sgn_of_equal q q' H).
  pose proof (abs_of_equal q q' H) as Habs.
  set (u := (10 ^ Z.of_nat scale)%Z).
  set (d := Z.pos (Qden q)) in *. set (d' := Z.pos (Qden q')) in *.
  set (n := Z.abs (Qnum q)) in *. set (n' := Z.abs (Qnum q')) in *.
  assert (Hdiv : ((2 * (n * u) + d) / (2 * d) = (2 * (n' * u) + d') / (2 * d'))%Z).
  { rewrite <- (Z.div_mul_cancel_r (2 * (n * u) + d) (2 * d) d') by (unfold d, d'; lia).
    rewrite <- (Z.div_mul_cancel_r (2 * (n' * u) + d') (2 * d') d) by (unfold d, d'; lia).
    f_equal; nia. }
  now rewrite Hdiv.
Qed.

Lemma pow10_positive scale : (0 < 10 ^ Z.of_nat scale)%Z.
Proof. apply Z.pow_pos_nonneg; lia. Qed.

(** A number of [scale] decimals is stored as it is. *)
Lemma round_decimal scale (k : Z) :
  (Column.round scale (k # Z.to_pos (10 ^ Z.of_nat scale))
   == k # Z.to_pos (10 ^ Z.of_nat scale))%Q.
Proof.
  unfold Column.round. rewrite Qred_correct. cbn [Qnum Qden].
  pose proof (pow10_positive scale) as Hu.
  set (u := (10 ^ Z.of_nat scale)%Z) in *.
  rewrite Z2Pos.id by exact Hu.
  replace ((2 * (Z.abs k * u) + u) / (2 * u))%Z with (Z.abs k).
  - replace (Z.sgn k * Z.abs k)%Z with k by (destruct k; cbn; lia).
    reflexivity.
  - apply Z.div_unique with (r := u); nia.
Qed.

Lemma round_exact scale (q : Q) (k : Z) :
  (q == k # Z.to_pos (10 ^ Z.of_nat scale))%Q ->
  (Column.round scale q == q)%Q.
Proof.
  intros H. rewrite (round_compat scale _ _ H), round_decimal. now symmetry.
Qed.


(** The rounded value is the value within half a unit of the scale. *)
Lemma round_close scale (q : Q) :
  (Qabs (Column.round scale q - q)
   <= 1 # (2 * Z.to_pos (10 ^ Z.of_nat scale)))%Q.
Proof.
  unfold Column.round. rewrite Qred_correct.
  pose proof (pow10_positive scale) as Hu.
  destruct q as [n d]. cbn [Qnum Qden].
  set (u := (10 ^ Z.of_nat scale)%Z) in *.
  set (r := ((2 * (Z.abs n * u) + Z.pos d) / (2 * Z.pos d))%Z).
  assert (Hr : (2 * Z.pos d * r <= 2 * (Z.abs n * u) + Z.pos d
                < 2 * Z.pos d * r + 2 * Z.pos d)%Z).
  { unfold r. pose proof (Z.mul_div_le (2 * (Z.abs n * u) + Z.pos d) (2 * Z.pos d)
                            ltac:(lia)).
    pose proof (Z.mul_succ_div_gt (2 * (Z.abs n * u) + Z.pos d) (2 * Z.pos d)
                  ltac:(lia)).
    lia. }
  clearbody r.
  apply Qabs_Qle_condition. unfold Qle, Qminus, Qplus, Qopp. cbn [Qnum Qden].
  rewrite !Pos2Z.inj_mul, !Z2Pos.id by exact Hu.
  destruct (Z.sgn_spec n) as [[Hn ->]|[[Hn ->]|[Hn ->]]].
  - rewrite (Z.abs_eq n) in Hr by lia. split; nia.
  - subst n. cbn [Z.abs] in Hr. split; nia.
  - rewrite (Z.abs_neq n) in Hr by lia. split; nia.
Qed.

Lemma numeric_is_round precision scale q r :
  Column.numeric precision scale q = Ok r -> r = Column.round scale q.
Proof.
  unfold Column.numeric. destruct (Qle_bool _ _); [discriminate|].
  now intros [= <-].
Qed.

Lemma accepted_numeric precision scale q :
  Column.accepted (Column.numeric precision scale q) = true ->
  Column.numeric precision scale q = Ok (Column.round scale q).
Proof.
  unfold Column.numeric. destruct (Qle_bool _ _); [discriminate|reflexivity].
Qed.

Lemma numeric_compat precision scale (q q' : Q) :
  (q == q')%Q -> Column.numeric precision scale q = Column.numeric precision scale q'.
Proof.
  intros H. unfold Column.numeric. now rewrite (round_compat scale q q' H).
Qed.

Lemma for_all_Forall2 {A : Type} (convert : A -> result A) rows :
  forall stored,
    Column.for_all convert rows = Ok stored ->
    Forall2 (fun row r => convert row = Ok r) rows stored.
Proof.
  induction rows as [|row rows IH]; cbn [Column.for_all]; intros stored H.
  - injection H as <-. constructor.
  - unfold Column.and_then in H at 1.
    destruct (convert row) as [r|e] eqn:Hrow; [|discriminate].
    unfold Column.and_then in H.
    destruct (Column.for_all convert rows) as [rs|e]; [|discriminate].
    injection H as <-. constructor; [exact Hrow|now apply IH].
Qed.

Lemma Forall2_for_all {A : Type} (convert : A -> result A) rows stored :
  Forall2 (fun row r => convert row = Ok r) rows stored ->
  Column.for_all convert rows = Ok stored.
Proof.
  induction 1 as [|row r rows stored Hrow _ IH]; cbn [Column.for_all];
    [reflexivity|].
  rewrite Hrow, IH. reflexivity.
Qed.

(** What the conversion of an invoice line keeps and what it rounds. *)
Lemma invoice_item_stored item stored :
  Column.invoice_item item = Ok stored ->
  InvoiceItem.name stored = InvoiceItem.name item
  /\ InvoiceItem.unit stored = InvoiceItem.unit item
  /\ Column.numeric 10 3 (InvoiceItem.quantity item)
     = Ok (InvoiceItem.quantity stored)
  /\ Column.numeric 10 2 (InvoiceItem.net_price item)
     = Ok (InvoiceItem.net_price stored)
  /\ Column.integer (InvoiceItem.percentage item)
     = Ok (InvoiceItem.percentage stored).
Proof.
  unfold Column.invoice_item, Column.and_then.
  destruct (Column.numeric 10 3 _) as [q|]; [|discriminate].
  destruct (Column.integer _) as [p|]; [|discriminate].
  destruct (Column.numeric 10 2 (InvoiceItem.net_price item)) as [np|];
    [|discriminate].
  destruct (Column.numeric 10 2 (InvoiceItem.gross_price item)) as [gp|];
    [|discriminate].
  destruct (Column.numeric 10 2 (InvoiceItem.total_net item)) as [tn|];
    [|discriminate].
  destruct (Column.numeric 10 2 (InvoiceItem.total_gross item)) as [tg|];
    [|discriminate].
  intros [= <-]. repeat split; reflexivity.
Qed.

(** ** The confirmation of an invoice whose values are accepted *)

Lemma typed_lookup_or_create_product item stored s :
  Column.invoice_item item = Ok stored ->
  Typed.lookup_or_create_product item s = lookup_or_create_product stored s.
Proof.
  intros H. destruct (invoice_item_stored _ _ H) as (Hn & Hu & _ & Hp & _).
  unfold Typed.lookup_or_create_product, lookup_or_create_product, bind.
  rewrite Hn, Hu.
  destruct (select_product_by_name (InvoiceItem.name item) s) as [[lookup|e] s1];
    [|reflexivity].
  destruct lookup as [existing|[]]; try reflexivity.
  unfold Typed.insert_product, Typed.converted, Column.nullable, Column.and_then.
  rewrite Hp. reflexivity.
Qed.

Lemma typed_confirm_item invoice parsedData stored_data item stored s :
  invoiceNumber stored_data = invoiceNumber parsedData ->
  Column.invoice_item item = Ok stored ->
  Typed.confirm_item invoice parsedData item s
  = confirm_item invoice stored_data stored s.
Proof.
  intros Hnum H. destruct (invoice_item_stored _ _ H) as (_ & _ & Hq & _).
  unfold Typed.confirm_item, confirm_item, bind.
  rewrite (typed_lookup_or_create_product _ _ _ H).
  destruct (lookup_or_create_product stored s) as [[pid|e] s1]; [|reflexivity].
  unfold Typed.insert_stock_movements, Typed.converted.
  cbn [Column.for_all]. unfold Column.stock_movement, Column.and_then.
  cbn [purchase_movement NewStockMovement.quantity NewStockMovement.product_id
       NewStockMovement.movement_type NewStockMovement.reference_id
       NewStockMovement.reference_type NewStockMovement.notes].
  rewrite Hq. unfold purchase_movement. rewrite Hnum. reflexivity.
Qed.

Lemma typed_confirm_items invoice parsedData stored_data its :
  invoiceNumber stored_data = invoiceNumber parsedData ->
  forall stored s,
    Forall2 (fun item r => Column.invoice_item item = Ok r) its stored ->
    for_each its (Typed.confirm_item invoice parsedData) s
    = for_each stored (confirm_item invoice stored_data) s.
Proof.
  intros Hnum stored s H. revert s.
  induction H as [|item r its stored Hitem _ IH]; intros s; cbn [for_each];
    [reflexivity|].
  unfold bind. rewrite (typed_confirm_item _ _ stored_data _ _ _ Hnum Hitem).
  destruct (confirm_item invoice stored_data r s) as [[[]|e] s1];
    [apply IH|reflexivity].
Qed.

Lemma for_all_rows (iid : uuid) its :
  forall stored,
    Column.for_all Column.invoice_item its = Ok stored ->
    Column.for_all
      (fun row : uuid * InvoiceItem.t =>
         Column.and_then (Column.invoice_item (snd row))
           (fun item => Ok (fst row, item)))
      (map (fun item => (iid, item)) its)
    = Ok (map (fun item => (iid, item)) stored).
Proof.
  induction its as [|item its IH]; cbn [Column.for_all map]; intros stored H.
  - now injection H as <-.
  - cbn [snd fst]. unfold Column.and_then in H at 1.
    destruct (Column.invoice_item item) as [r|e]; [|discriminate].
    unfold Column.and_then in H.
    destruct (Column.for_all Column.invoice_item its) as [rs|e] eqn:Hrs;
      [|discriminate].
    injection H as <-. rewrite (IH rs eq_refl). reflexivity.
Qed.

Lemma stored_invoice_fields date_in parsedData stored :
  Typed.stored_invoice date_in parsedData = Ok stored ->
  invoiceNumber stored = invoiceNumber parsedData
  /\ vendor stored = vendor parsedData
  /\ date_in (date parsedData) = Ok (date stored)
  /\ Column.numeric 10 2 (totalNet parsedData) = Ok (totalNet stored)
  /\ Column.numeric 10 2 (totalGross parsedData) = Ok (totalGross stored)
  /\ Column.for_all Column.invoice_item (items parsedData) = Ok (items stored).
Proof.
  unfold Typed.stored_invoice, Column.and_then.
  destruct (date_in _) as [d|]; [|discriminate].
  destruct (Column.numeric 10 2 (totalNet parsedData)) as [n|]; [|discriminate].
  destruct (Column.numeric 10 2 (totalGross parsedData)) as [g|]; [|discriminate].
  destruct (Column.for_all _ _) as [its|]; [|discriminate].
  intros [= <-]. repeat split; reflexivity.
Qed.

Lemma typed_save_invoice date_in parsedData stored s :
  Typed.stored_invoice date_in parsedData = Ok stored ->
  Typed.save_invoice date_in parsedData s = save_invoice stored s.
Proof.
  intros H.
  destruct (stored_invoice_fields _ _ _ H) as (Hnum & Hv & Hd & Hn & Hg & Hits).
  unfold Typed.save_invoice, save_invoice, bind.
  unfold Typed.insert_invoice, Typed.converted, Column.and_then.
  rewrite Hd, Hn, Hg, Hnum, Hv.
  destruct (insert_invoice _ _ _ _ _ _ s) as [[invoice|e] s1]; [|reflexivity].
  unfold Typed.insert_invoice_items, Typed.converted.
  rewrite (for_all_rows _ _ _ Hits). reflexivity.
Qed.

(** On an invoice whose values are all accepted, the handler does what it
    does on the stored values. *)
Lemma typed_handleConfirmInvoice date_in parsedData stored s :
  Typed.stored_invoice date_in parsedData = Ok stored ->
  Typed.handleConfirmInvoice date_in parsedData s = handleConfirmInvoice stored s.
Proof.
  intros H.
  destruct (stored_invoice_fields _ _ _ H) as (Hnum & _ & _ & _ & _ & Hits).
  unfold Typed.handleConfirmInvoice, handleConfirmInvoice, bind.
  rewrite (typed_save_invoice _ _ _ _ H).
  destruct (save_invoice stored s) as [[invoice|e] s1]; [|reflexivity].
  apply typed_confirm_items; [exact Hnum|].
  now apply for_all_Forall2.
Qed.

Lemma for_all_rows_refused (iid : uuid) its e :
  Column.for_all Column.invoice_item its = Err e ->
  exists e',
    Column.for_all
      (fun row : uuid * InvoiceItem.t =>
         Column.and_then (Column.invoice_item (snd row))
           (fun item => Ok (fst row, item)))
      (map (fun item => (iid, item)) its)
    = Err e'.
Proof.
  revert e.
  induction its as [|item its IH]; cbn [Column.for_all map];
    intros e Hits; [discriminate|].
  unfold Column.and_then in *. cbn [snd fst].
  destruct (Column.invoice_item item) as [r|e1]; [|eexists; reflexivity].
  destruct (Column.for_all Column.invoice_item its) as [rs|e2];
    [discriminate|].
  destruct (IH e2 eq_refl) as [e' ->]. eexists. reflexivity.
Qed.

(** A confirmation that succeeds had all its values accepted. *)
Lemma typed_confirm_accepted date_in parsedData s s' :
  Typed.handleConfirmInvoice date_in parsedData s = (Ok tt, s') ->
  exists stored, Typed.stored_invoice date_in parsedData = Ok stored.
Proof.
  unfold Typed.handleConfirmInvoice, Typed.save_invoice, bind,
    Typed.insert_invoice, Typed.converted, Typed.stored_invoice, Column.and_then.
  destruct (date_in _) as [d|]; [|discriminate].
  destruct (Column.numeric 10 2 (totalNet parsedData)) as [n|]; [|discriminate].
  destruct (Column.numeric 10 2 (totalGross parsedData)) as [g|]; [|discriminate].
  destruct (insert_invoice _ _ _ _ _ _ s) as [[invoice|e] s1]; [|discriminate].
  unfold Typed.insert_invoice_items.
  destruct (Column.for_all Column.invoice_item (items parsedData)) as [its|e] eqn:Hits.
  - intros _. eexists. reflexivity.
  - destruct (for_all_rows_refused (Invoice.id invoice) _ _ Hits) as [e' ->].
    discriminate.
Qed.
(** ** A single line for a new product *)

Lemma typed_insert_purchase invoice parsedData stored_data productId item stored s :
  invoiceNumber stored_data = invoiceNumber parsedData ->
  Column.invoice_item item = Ok stored ->
  Typed.insert_stock_movements
    [purchase_movement invoice parsedData productId item] s
  = insert_stock_movements [purchase_movement invoice stored_data productId stored] s.
Proof.
  intros Hnum H. destruct (invoice_item_stored _ _ H) as (_ & _ & Hq & _).
  unfold Typed.insert_stock_movements, Typed.converted.
  cbn [Column.for_all]. unfold Column.stock_movement, Column.and_then.
  cbn [purchase_movement NewStockMovement.quantity NewStockMovement.product_id
       NewStockMovement.movement_type NewStockMovement.reference_id
       NewStockMovement.reference_type NewStockMovement.notes].
  rewrite Hq. unfold purchase_movement. rewrite Hnum. reflexivity.
Qed.

(** C10.  Confirming an invoice of a single line whose product name is not
    in [products] yet, whose number is not in [invoices] and whose values are
    all accepted by their columns.  After the invoice and its item are
    stored, the product is created with a stock of 0, a minimum level of 0,
    the unit of the line and, as its last purchase price, the net price of the
    line rounded to two decimals, and no movement is written yet; then the
    purchase movement is inserted, the confirmation succeeds, and the product
    of that name has as its stock the quantity of the line rounded to three
    decimals: within half a thousandth of the quantity, and the quantity
    itself when it has no more than three decimals. *)
Theorem confirm_creates_product_with_stored_quantity date_in parsedData item
  stored s :
  items parsedData = [item] ->
  existsb (fun i => String.eqb (Invoice.invoice_number i) (invoiceNumber parsedData))
    (invoices s) = false ->
  existsb (fun p => String.eqb (Product.name p) (InvoiceItem.name item))
    (products s) = false ->
  Typed.stored_invoice date_in parsedData = Ok stored ->
  exists invoice s1 pid s2 s',
    Typed.save_invoice date_in parsedData s = (Ok invoice, s1)
    /\ Typed.lookup_or_create_product item s1 = (Ok pid, s2)
    /\ products s2
       = products s
         ++ [Product.mk pid (InvoiceItem.name item) (InvoiceItem.unit item)
               0%Q 0%Q (Some (Column.round 2 (InvoiceItem.net_price item)))]
    /\ stock_movements s2 = stock_movements s
    /\ Typed.insert_stock_movements
         [purchase_movement invoice parsedData pid item] s2
       = (Ok tt, s')
    /\ Typed.handleConfirmInvoice date_in parsedData s = (Ok tt, s')
    /\ exists p,
         find (fun p => String.eqb (Product.name p) (InvoiceItem.name item))
           (products s') = Some p
         /\ Product.id p = pid
         /\ Product.unit p = InvoiceItem.unit item
         /\ Product.min_stock_level p = 0%Q
         /\ (Product.current_stock p
             == Column.round 3 (InvoiceItem.quantity item))%Q
         /\ (Qabs (Product.current_stock p - InvoiceItem.quantity item)
             <= 1 # 2000)%Q
         /\ (forall k : Z,
               (InvoiceItem.quantity item == k # 1000)%Q ->
               (Product.current_stock p == InvoiceItem.quantity item)%Q).
Proof.
  intros Hitems Hnum Hname Hstored.
  destruct (stored_invoice_fields _ _ _ Hstored) as (En & _ & _ & _ & _ & Hits).
  rewrite Hitems in Hits.
  apply for_all_Forall2 in Hits.
  inversion Hits as [|? stored_item ? rest Hitem Hrest E1 E2]; subst.
  inversion Hrest; subst. symmetry in E2.
  destruct (invoice_item_stored _ _ Hitem) as (Ename & Eunit & Hq & Hp & _).
  apply numeric_is_round in Hq, Hp.
  destruct (confirm_single_line_of_stored_values stored stored_item s E2)
    as (invoice & s1 & pid & s2 & s' & Hsave & Hlook & Hps & Hms & Hins & Hrun
        & p & Hfind & Hid & Hunit & Hmin & Hstock).
  { now rewrite En. }
  { now rewrite Ename. }
  exists invoice, s1, pid, s2, s'.
  split; [now rewrite (typed_save_invoice _ _ _ _ Hstored)|].
  split; [now rewrite (typed_lookup_or_create_product _ _ _ Hitem)|].
  split; [now rewrite Hps, Ename, Eunit, Hp|].
  split; [exact Hms|].
  split; [now rewrite (typed_insert_purchase _ _ stored _ _ _ _ En Hitem)|].
  split; [now rewrite (typed_handleConfirmInvoice _ _ _ _ Hstored)|].
  exists p. rewrite <- Ename, <- Eunit.
  split; [exact Hfind|]. split; [exact Hid|]. split; [exact Hunit|].
  split; [exact Hmin|].
  assert (Hround : (Product.current_stock p
                    == Column.round 3 (InvoiceItem.quantity item))%Q)
    by (now rewrite Hstock, Hq).
  split; [exact Hround|].
  split; [rewrite Hround; exact (round_close 3 _)|].
  intros k Hk. rewrite Hround. now apply (round_exact 3 _ k).
Qed.

(** C10, witness: the one-line invoice on the empty store, with a quantity
    of 1. *)
Lemma confirm_creates_product_witness :
  exists s' p,
    Typed.handleConfirmInvoice iso_date_in laptop_invoice empty_store
    = (Ok tt, s')
    /\ find (fun p => String.eqb (Product.name p) "Laptop Dell Inspiron 15")
         (products s') = Some p
    /\ (Product.current_stock p == 1)%Q.
Proof.
  destruct (confirm_creates_product_with_stored_quantity iso_date_in
              laptop_invoice laptop_line laptop_invoice empty_store
              eq_refl eq_refl eq_refl eq_refl)
    as (inv & s1 & pid & s2 & s' & _ & _ & _ & _ & _ & Hrun & p & Hp & _ & _
        & _ & _ & _ & Hq).
  exists s', p. split; [exact Hrun|]. split; [exact Hp|].
  exact (Hq 1000%Z ltac:(reflexivity)).
Defined.

(** C10, as the claim states it: a line of 1.2345 m for a new product leaves
    the product with a stock of 1.235, not of 1.2345. *)
Lemma line_quantity_is_rounded_by_its_column :
  exists s' p,
    Typed.handleConfirmInvoice iso_date_in cable_invoice empty_store
    = (Ok tt, s')
    /\ InvoiceItem.quantity cable_line = (2469 # 2000)%Q
    /\ find (fun p => String.eqb (Product.name p) (InvoiceItem.name cable_line))
         (products s') = Some p
    /\ Product.current_stock p = (247 # 200)%Q
    /\ ~ (Product.current_stock p == InvoiceItem.quantity cable_line)%Q.
Proof.
  eexists _, _. split; [vm_compute; reflexivity|].
  split; [reflexivity|]. split; [vm_compute; reflexivity|].
  split; [reflexivity|]. cbn. discriminate.
Qed.
(** ** Invoices of several lines, as they are requested *)







(** ** Confirming an invoice twice, as it is requested *)

Lemma typed_confirm_refused date_in other s :
  existsb (fun i => String.eqb (Invoice.invoice_number i) (invoiceNumber other))
    (invoices s) = true ->
  exists e, Typed.handleConfirmInvoice date_in other s = (Err e, s).
Proof.
  intros H.
  unfold Typed.handleConfirmInvoice, Typed.save_invoice, bind,
    Typed.insert_invoice, Typed.converted, Column.and_then.
  destruct (date_in _) as [d|e]; [|eexists; reflexivity].
  destruct (Column.numeric 10 2 (totalNet other)) as [n|e];
    [|eexists; reflexivity].
  destruct (Column.numeric 10 2 (totalGross other)) as [g|e];
    [|eexists; reflexivity].
  unfold insert_invoice, statement. rewrite H. eexists. reflexivity.
Qed.

(** X4.  An invoice is confirmed once: after a confirmation that succeeded,
    confirming the same data again is refused by the unique invoice number
    and changes nothing, so no stock is added a second time.  Every invoice
    whose number is in [invoices] is refused, by the unique number or before
    that by a column that refuses its date or a total, and nothing is
    written. *)
Theorem confirmed_invoice_is_not_confirmed_again date_in parsedData s s' :
  Typed.handleConfirmInvoice date_in parsedData s = (Ok tt, s') ->
  Typed.handleConfirmInvoice date_in parsedData s'
  = (Err (unique_violation "invoices_invoice_number_key"), s')
  /\ forall other s2,
       existsb (fun i => String.eqb (Invoice.invoice_number i)
                           (invoiceNumber other)) (invoices s2) = true ->
       exists e, Typed.handleConfirmInvoice date_in other s2 = (Err e, s2).
Proof.
  intros Hrun. split; [|intros other s2; apply typed_confirm_refused].
  destruct (typed_confirm_accepted _ _ _ _ Hrun) as [stored Hstored].
  destruct (stored_invoice_fields _ _ _ Hstored) as (En & _).
  rewrite (typed_handleConfirmInvoice _ _ _ s Hstored) in Hrun.
  rewrite (typed_handleConfirmInvoice _ _ _ s' Hstored).
  exact (proj1 (stored_invoice_is_not_confirmed_again stored s s' Hrun)).
Qed.

(** X4, witness: the one-line invoice confirmed twice. *)
Lemma confirmed_invoice_is_not_confirmed_again_witness :
  Typed.handleConfirmInvoice iso_date_in laptop_invoice
    (snd (Typed.handleConfirmInvoice iso_date_in laptop_invoice empty_store))
  = (Err (unique_violation "invoices_invoice_number_key"),
     snd (Typed.handleConfirmInvoice iso_date_in laptop_invoice empty_store)).
Proof.
  exact (proj1 (confirmed_invoice_is_not_confirmed_again iso_date_in
                  laptop_invoice empty_store
                  (snd (Typed.handleConfirmInvoice iso_date_in laptop_invoice
                          empty_store))
                  eq_refl)).
Defined.

(** ** An invoice with a value that is refused *)

(** X22.  The statements of a confirmation are not one transaction, and the
    values of the lines are converted after the invoice is stored.  When the
    date of an invoice is refused, nothing is written.  When the date and the
    totals are accepted and the number is not in [invoices], but a value of a
    line is refused (a percentage with a fraction, an amount beyond the
    precision of its column), the confirmation fails and leaves the invoice
    stored without any item: no product is created, no movement is written,
    and every later confirmation under the same number is refused, also with
    the value corrected. *)
Theorem refused_line_leaves_invoice_without_items date_in parsedData
  stored_date e s :
  existsb (fun i => String.eqb (Invoice.invoice_number i) (invoiceNumber parsedData))
    (invoices s) = false ->
  date_in (date parsedData) = Ok stored_date ->
  Column.accepted (Column.numeric 10 2 (totalNet parsedData)) = true ->
  Column.accepted (Column.numeric 10 2 (totalGross parsedData)) = true ->
  Column.for_all Column.invoice_item (items parsedData) = Err e ->
  (exists e' s',
      Typed.handleConfirmInvoice date_in parsedData s = (Err e', s')
      /\ invoices s'
         = invoices s
           ++ [Invoice.mk (next_uuid s) "uploaded.pdf" (invoiceNumber parsedData)
                 stored_date (vendor parsedData)
                 (Column.round 2 (totalNet parsedData))
                 (Column.round 2 (totalGross parsedData))]
      /\ invoice_items s' = invoice_items s
      /\ products s' = products s
      /\ stock_movements s' = stock_movements s
      /\ forall corrected,
           invoiceNumber corrected = invoiceNumber parsedData ->
           exists e'', Typed.handleConfirmInvoice date_in corrected s'
                       = (Err e'', s'))
  /\ forall other e0 s0,
       date_in (date other) = Err e0 ->
       Typed.handleConfirmInvoice date_in other s0 = (Err e0, s0).
Proof.
  intros Hnum Hdate Hnet Hgross Hitems. split.
  - unfold Typed.handleConfirmInvoice, Typed.save_invoice, bind,
      Typed.insert_invoice, Typed.converted, Column.and_then.
    rewrite Hdate, (accepted_numeric _ _ _ Hnet), (accepted_numeric _ _ _ Hgross).
    unfold insert_invoice, statement. rewrite Hnum.
    unfold Typed.insert_invoice_items. cbn [Invoice.id].
    destruct (for_all_rows_refused (next_uuid s) _ _ Hitems) as [e' ->].
    eexists e', _. split; [reflexivity|].
    destruct s as [ps ms invs iis ivs ivis sls slis n]. store_simpl.
    repeat (split; [reflexivity|]).
    intros corrected Hsame. apply typed_confirm_refused. store_simpl.
    rewrite existsb_app_last, Hsame. cbn [Invoice.invoice_number].
    now rewrite String.eqb_refl, orb_true_r.
  - intros other e0 s0 H0.
    unfold Typed.handleConfirmInvoice, Typed.save_invoice, bind,
      Typed.insert_invoice, Typed.converted, Column.and_then.
    now rewrite H0.
Qed.

(** X22, witness: the invoice with a percentage of 8.5 on the empty store;
    the invoice is stored, its item and its product are not. *)
Lemma refused_line_witness :
  exists e' s',
    Typed.handleConfirmInvoice iso_date_in invoice_with_fraction_of_percent
      empty_store = (Err e', s')
    /\ map Invoice.invoice_number (invoices s') = ["FV/2024/005"]
    /\ invoice_items s' = []
    /\ products s' = [].
Proof.
  destruct (refused_line_leaves_invoice_without_items iso_date_in
              invoice_with_fraction_of_percent "2024-01-18"
              invalid_text_representation empty_store
              eq_refl eq_refl eq_refl eq_refl eq_refl)
    as [(e' & s' & Hrun & Hinv & Hitems & Hps & _) _].
  exists e', s'. split; [exact Hrun|].
  split; [now rewrite Hinv|]. split; [exact Hitems|exact Hps].
Defined.
(** ** Sales, as they are requested *)







(** ** An inventory from its creation to its completion *)

Lemma round_is_decimal scale q :
  exists k : Z, (Column.round scale q == k # Z.to_pos (10 ^ Z.of_nat scale))%Q.
Proof.
  unfold Column.round. eexists. rewrite Qred_correct. reflexivity.
Qed.

Lemma decimal_minus (a b : Q) (k l : Z) (u : positive) :
  (a == k # u)%Q -> (b == l # u)%Q -> (a - b == (k - l) # u)%Q.
Proof.
  intros -> ->. unfold Qeq, Qminus, Qplus, Qopp. cbn [Qnum Qden].
  rewrite !Pos2Z.inj_mul. ring.
Qed.

Lemma typed_handleCompleteInventory_run now iid s :
  Typed.handleCompleteInventory now iid s
  = let s1 := snd (update_inventory iid completed (Some now) s) in
    match completion_movements iid (inventory_items s) with
    | [] => (Ok tt, s1)
    | n :: ns => Typed.insert_stock_movements (n :: ns) s1
    end.
Proof.
  unfold Typed.handleCompleteInventory, bind, select_items_with_difference.
  unfold update_inventory at 1, statement at 1. cbn [snd fst].
  cbn [inventory_items set_inventories].
  fold (completion_movements iid (inventory_items s)).
  destruct (completion_movements iid (inventory_items s)) as [|n ns] eqn:Hns;
    reflexivity.
Qed.

(** X13.  An inventory sets the stock to the count, as the column stores
    it.  On a well-formed store whose stock of the product is a value of its
    column, creating an inventory of that product from the current list of
    products, starting it, recording a count for its item and completing it
    leaves the product with the count rounded to three decimals as its
    stock, whatever the stock was; the inventory is completed, and the stock
    of every other product is what it was.  (The count and the difference
    are within the precision of their columns, and the item gets an id that
    no item has.) *)
Theorem inventory_sets_stock_to_count name now pid c0 k0 countedQuantity s :
  well_formed s = true ->
  stock_of pid s = Some c0 ->
  (c0 == k0 # 1000)%Q ->
  Column.accepted (Column.numeric 10 3 c0) = true ->
  Column.accepted (Column.numeric 10 3 countedQuantity) = true ->
  Column.accepted
    (Column.numeric 10 3
       (Column.round 3 countedQuantity - Column.round 3 c0)) = true ->
  find_inventory_item (S (next_uuid s)) s = None ->
  let inventoryId := next_uuid s in
  let itemId := S (next_uuid s) in
  let s' :=
    run_all
      [Typed.handleCreateInventory (products s) (mkCreateInventory name [pid]);
       handleStartInventory inventoryId;
       Typed.handleUpdateCount itemId countedQuantity;
       Typed.handleCompleteInventory now inventoryId] s in
  status_of inventoryId s' = Some completed
  /\ (exists c', stock_of pid s' = Some c'
                 /\ (c' == Column.round 3 countedQuantity)%Q)
  /\ (forall k c, k <> pid -> stock_of k s = Some c ->
        exists c', stock_of k s' = Some c' /\ (c' == c)%Q).
Proof.
  intros Hwf Hc0 Hk0 Hacc0 Hacc Haccd Hnew. apply well_formed_WF in Hwf.
  cbn zeta.
  set (cq := Column.round 3 countedQuantity) in *.
  set (e := Column.round 3 c0) in *.
  assert (He : (e == c0)%Q) by (apply (round_exact 3 c0 k0); exact Hk0).
  destruct s as [ps ms invs iis ivs ivis sls slis n].
  assert (Hhas : has_product pid (mkStore ps ms invs iis ivs ivis sls slis n)
                 = true).
  { destruct (has_product pid _) eqn:E; [reflexivity|].
    apply stock_of_none_iff in E. congruence. }
  assert (Hloaded : loaded_stock ps pid = c0).
  { unfold loaded_stock. unfold stock_of in Hc0. store_simpl.
    destruct (find_product pid ps); [|discriminate]. now injection Hc0. }
  assert (Hold : forall it, In it ivis -> InventoryItem.inventory_id it <> n).
  { intros it Hit E. apply (wf_inventory_items _ Hwf) in Hit as [Hit _].
    apply has_inventory_In in Hit as (j & Hj & Ej).
    apply (wf_inventories _ Hwf) in Hj. store_simpl. lia. }
  assert (Hfresh : forall j, In j ivs -> Inventory.id j <> n).
  { intros j Hj E. apply (wf_inventories _ Hwf) in Hj. store_simpl. lia. }
  assert (Hitems : forall it, In it ivis ->
                     Nat.eqb (InventoryItem.id it) (S n) = false).
  { intros it Hit. unfold find_inventory_item in Hnew. store_simpl.
    destruct (Nat.eqb (InventoryItem.id it) (S n)) eqn:E; [|reflexivity].
    pose proof (find_none _ _ Hnew it Hit) as H. cbn beta in H. congruence. }
  set (ivs' := map (fun i : Inventory.t =>
                      if Nat.eqb (Inventory.id i) n
                      then Inventory.mk (Inventory.id i) (Inventory.name i)
                             in_progress (Inventory.completed_at i)
                      else i) ivs).
  (* the creation *)
  assert (E1 : Typed.handleCreateInventory ps (mkCreateInventory name [pid])
                 (mkStore ps ms invs iis ivs ivis sls slis n)
               = (Ok tt,
                  mkStore ps ms invs iis
                    (ivs ++ [Inventory.mk n name draft None])
                    (ivis ++ [InventoryItem.mk (S n) n pid e None]) sls slis
                    (1 + S n))).
  { unfold Typed.handleCreateInventory, bind, insert_inventory, statement.
    store_simpl. cbn [Inventory.id ci_product_ids ci_name map].
    fold (loaded_stock ps pid). rewrite Hloaded.
    unfold Typed.insert_inventory_items, Typed.converted.
    cbn [Column.for_all]. unfold Column.inventory_item, Column.and_then.
    cbn [NewInventoryItem.expected_quantity NewInventoryItem.inventory_id
         NewInventoryItem.product_id].
    rewrite (accepted_numeric _ _ _ Hacc0). fold e.
    unfold insert_inventory_items, statement.
    change [NewInventoryItem.mk n pid e]
      with (map (fun p => NewInventoryItem.mk n p e) [pid]).
    rewrite (insert_inventory_item_rows_run n (fun _ => e)).
    - reflexivity.
    - unfold has_inventory. store_simpl. rewrite existsb_app_last.
      cbn [Inventory.id]. now rewrite Nat.eqb_refl, orb_true_r.
    - cbn [forallb]. unfold has_product in *. store_simpl.
      rewrite Hhas. reflexivity.
    - repeat constructor. intros [].
    - intros it Hit E _. now apply (Hold it). }
  (* the start and the count *)
  assert (E2 : forall l1 l2 m,
             snd (Typed.handleUpdateCount (S n) countedQuantity
                    (snd (handleStartInventory n
                            (mkStore ps ms invs iis
                               (ivs ++ [Inventory.mk n name draft None])
                               (ivis ++ [InventoryItem.mk (S n) n pid e None])
                               l1 l2 m))))
             = mkStore ps ms invs iis
                 (ivs' ++ [Inventory.mk n name in_progress None])
                 (ivis ++ [InventoryItem.mk (S n) n pid e (Some cq)]) l1 l2 m).
  { intros l1 l2 m.
    unfold handleStartInventory, update_inventory, statement. store_simpl.
    unfold Typed.handleUpdateCount, Typed.update_counted_quantity.
    rewrite (accepted_numeric _ _ _ Hacc). fold cq. store_simpl.
    rewrite filter_app. cbn [filter InventoryItem.id].
    rewrite Nat.eqb_refl.
    replace (filter (fun i => Nat.eqb (InventoryItem.id i) (S n)) ivis)
      with (@nil InventoryItem.t).
    2:{ symmetry. clear - Hitems. induction ivis as [|it l IH]; [reflexivity|].
        cbn [filter]. rewrite (Hitems it) by now left.
        apply IH. intros x Hx. apply Hitems. now right. }
    cbn [app map Column.for_all InventoryItem.expected_quantity].
    unfold Column.and_then at 1.
    rewrite (accepted_numeric _ _ _ Haccd). cbn [Column.and_then].
    unfold update_counted_quantity, statement. store_simpl.
    rewrite !map_app. cbn [map Inventory.id InventoryItem.id].
    rewrite !Nat.eqb_refl.
    rewrite (map_unchanged _ ivis).
    - reflexivity.
    - intros it Hit. now rewrite (Hitems it Hit). }
  cbn [products next_uuid run_all].
  rewrite E1. cbn [snd]. rewrite E2. clear E1 E2.
  (* the completion *)
  rewrite typed_handleCompleteInventory_run. cbn zeta.
  unfold update_inventory, statement. store_simpl.
  unfold completion_movements. rewrite with_difference_app.
  rewrite (with_difference_other n ivis Hold). cbn [app with_difference].
  cbn [InventoryItem.inventory_id]. rewrite Nat.eqb_refl.
  unfold InventoryItem.difference.
  cbn [InventoryItem.counted_quantity InventoryItem.expected_quantity filter snd].
  rewrite map_app. cbn [map Inventory.id]. rewrite Nat.eqb_refl.
  cbn [Inventory.name].
  assert (Hstatus : forall l1 (j : Inventory.t) ps' ms' its n',
             Inventory.id j = n ->
             (forall x, In x l1 -> Inventory.id x <> n) ->
             status_of n (mkStore ps' ms' invs iis (l1 ++ [j]) its sls slis n')
             = Some (Inventory.status j)).
  { intros l1 j ps' ms' its n' Hj Hl1. unfold status_of, find_inventory. store_simpl.
    induction l1 as [|x l1 IH]; cbn [app find].
    - now rewrite Hj, Nat.eqb_refl.
    - destruct (Nat.eqb (Inventory.id x) n) eqn:E.
      + apply Nat.eqb_eq in E. exfalso. apply (Hl1 x); [now left|exact E].
      + apply IH. intros y Hy. apply Hl1. now right. }
  assert (Hids : forall x, In x (map (fun i : Inventory.t =>
                      if Nat.eqb (Inventory.id i) n
                      then Inventory.mk (Inventory.id i) (Inventory.name i)
                             completed (Some now)
                      else i) ivs') -> Inventory.id x <> n).
  { intros x Hx. apply in_map_iff in Hx as (y & <- & Hy).
    unfold ivs' in Hy. apply in_map_iff in Hy as (z & <- & Hz).
    apply Hfresh in Hz.
    destruct (Nat.eqb (Inventory.id z) n) eqn:E; cbn [Inventory.id]; rewrite ?E;
      cbn [Inventory.id]; exact Hz. }
  destruct (Qeq_bool (cq - e) 0) eqn:Hd; cbn [negb map].
  - cbn [snd].
    split; [now apply Hstatus|].
    apply Qeq_bool_iff in Hd.
    split.
    + exists c0. split; [exact Hc0|].
      setoid_replace cq with (cq - e + e)%Q by ring.
      rewrite Hd, He. ring.
    + intros k c _ Hk. exists c. split; [exact Hk|reflexivity].
  - unfold Typed.insert_stock_movements, Typed.converted.
    cbn [Column.for_all]. unfold Column.stock_movement, Column.and_then.
    cbn [inventory_movement NewStockMovement.quantity snd fst
         NewStockMovement.product_id NewStockMovement.movement_type
         NewStockMovement.reference_id NewStockMovement.reference_type
         NewStockMovement.notes InventoryItem.product_id].
    rewrite (accepted_numeric _ _ _ Haccd).
    rewrite insert_stock_movements_run.
    set (mv := NewStockMovement.mk pid inventory _ _ _ _).
    set (s3 := mkStore ps ms invs iis _ _ sls slis _).
    assert (Hfk : forallb (fun x => has_product (NewStockMovement.product_id x) s3)
                    [mv] = true).
    { cbn [forallb]. unfold has_product in *. store_simpl. subst s3.
      cbn [products mv NewStockMovement.product_id].
      now rewrite Hhas. }
    destruct (insert_rows_spec _ s3 Hfk)
      as (s4 & rows & Hrun & Hms & Hstrip & Hf & Hstock).
    rewrite Hrun. cbn [snd].
    assert (Hexact : (Column.round 3 (cq - e) == cq - e)%Q).
    { destruct (round_is_decimal 3 countedQuantity) as [k1 H1].
      destruct (round_is_decimal 3 c0) as [k2 H2].
      apply (round_exact 3 _ (k1 - k2)). now apply decimal_minus. }
    split.
    + rewrite (status_of_inventories s3 s4) by apply (frame_inventories _ _ Hf).
      now apply Hstatus.
    + split.
      * destruct (Hstock pid c0 Hc0) as (c' & Hc' & Hsum).
        exists c'. split; [exact Hc'|]. rewrite Hsum.
        cbn [new_sum mv NewStockMovement.product_id NewStockMovement.quantity].
        rewrite Nat.eqb_refl, Hexact, He. ring.
      * intros k c Hne Hk.
        destruct (Hstock k c Hk) as (c' & Hc' & Hsum).
        exists c'. split; [exact Hc'|]. rewrite Hsum.
        cbn [new_sum mv NewStockMovement.product_id NewStockMovement.quantity].
        assert (E : Nat.eqb pid k = false) by (apply Nat.eqb_neq; congruence).
        rewrite E. ring.
Qed.

(** X13, witness: an inventory of the product whose stock is 10, counted as
    7.0004: the stock is 7 afterwards. *)
Lemma inventory_sets_stock_to_count_witness :
  exists c',
    stock_of 0
      (run_all
         [Typed.handleCreateInventory (products store_with_draft_inventory)
            (mkCreateInventory "Druga" [0]);
          handleStartInventory 3;
          Typed.handleUpdateCount 4 (70004 # 10000)%Q;
          Typed.handleCompleteInventory "2025-07-15T10:00:00.000Z" 3]
         store_with_draft_inventory) = Some c'
    /\ (c' == 7)%Q.
Proof.
  destruct (inventory_sets_stock_to_count "Druga" "2025-07-15T10:00:00.000Z"
              0 10%Q 10000%Z (70004 # 10000)%Q store_with_draft_inventory
              eq_refl eq_refl ltac:(reflexivity) eq_refl eq_refl eq_refl eq_refl)
    as (_ & (c' & Hc' & He) & _).
  exists c'. split; [exact Hc'|]. rewrite He. vm_compute. reflexivity.
Defined.
